(** * FastShip matching engine

    A shallow embedding of [FastShipMatcher] (public/shared/js/matcher.js):
    the four sub-scores, the composite score, the reason generator, the
    ranked search [findMatchingTrips] and the contact initiator
    [sendContactRequest], followed by the properties the specification
    states about them.

    Conventions of the embedding.
    - A JavaScript number is a [jsnum]: [NaN], the two infinities, or a
      finite value carried as an exact rational.  Rounding of IEEE doubles
      is not modelled; zero is unsigned, which is what the source sees since
      every zero it divides by comes out of [x || 0].
    - Text is a [string] holding the UTF-8 bytes of the JavaScript string.
      A field that may be [null] or [undefined] is an [option].
    - The JavaScript built-ins the source calls ([toLowerCase], [trim],
      [parseFloat], [new Date], number formatting) are the interface
      [Builtins]; the source functions are defined over any implementation
      of it, and [Reference] gives one to compute with.
    - A function that can throw returns a [completion]; an [async] method
      that talks to the store is a function of the [world].
    - The rows carry the types of the data model: a location or a vehicle
      type is text or missing, never a number or an object.  The matcher
      is one whose constructor found the client, so that [this.supabase]
      is set; a store that cannot be reached is a store that refuses the
      query. *)

From Stdlib Require Import QArith Qminmax Qabs Lqa ZArith Lia.
From Stdlib Require Import List String Ascii Bool.
From Stdlib Require Import Sorting.Sorted Sorting.Permutation.
Import ListNotations.

Local Open Scope string_scope.
Local Open Scope Q_scope.

(** ** JavaScript numbers *)

Inductive jsnum : Type :=
| NaN
| NegInf
| Fin (q : Q)
| PosInf.

Definition Qltb (a b : Q) : bool := negb (Qle_bool b a).

(** [x <= y] *)
Definition jsle (x y : jsnum) : bool :=
  match x, y with
  | NaN, _ | _, NaN => false
  | NegInf, _ => true
  | _, PosInf => true
  | Fin a, Fin b => Qle_bool a b
  | _, _ => false
  end.

(** [x < y] *)
Definition jslt (x y : jsnum) : bool :=
  match x, y with
  | NaN, _ | _, NaN => false
  | NegInf, NegInf => false
  | NegInf, _ => true
  | PosInf, _ => false
  | Fin a, Fin b => Qltb a b
  | Fin _, PosInf => true
  | Fin _, NegInf => false
  end.

(** [x >= y] and [x > y] *)
Definition jsge (x y : jsnum) : bool := jsle y x.
Definition jsgt (x y : jsnum) : bool := jslt y x.

(** [x === 0] *)
Definition is_zero (x : jsnum) : bool :=
  match x with
  | Fin q => Qeq_bool q 0
  | _ => false
  end.

(** [x || 0]: [NaN] and zero are the falsy numbers. *)
Definition or0 (x : jsnum) : jsnum :=
  match x with
  | NaN => Fin 0
  | Fin q => if Qeq_bool q 0 then Fin 0 else x
  | _ => x
  end.

(** [x - y] *)
Definition jssub (x y : jsnum) : jsnum :=
  match x, y with
  | NaN, _ | _, NaN => NaN
  | Fin a, Fin b => Fin (a - b)
  | PosInf, PosInf | NegInf, NegInf => NaN
  | PosInf, _ | _, NegInf => PosInf
  | NegInf, _ | _, PosInf => NegInf
  end.

(** [x / y], the divisor's zero being [+0].  The quotient is exact: where
    the program's quotient of two doubles is rounded past a bound it is
    then compared with, as 10.8 / 9 is past 1.2, the embedding does not
    follow it. *)
Definition jsdiv (x y : jsnum) : jsnum :=
  match x, y with
  | NaN, _ | _, NaN => NaN
  | Fin a, Fin b =>
      if Qeq_bool b 0 then
        if Qeq_bool a 0 then NaN
        else if Qltb 0 a then PosInf else NegInf
      else Fin (a / b)
  | Fin _, _ => Fin 0
  | PosInf, Fin b => if Qle_bool 0 b then PosInf else NegInf
  | NegInf, Fin b => if Qle_bool 0 b then NegInf else PosInf
  | _, _ => NaN
  end.

(** [Math.abs(x)] *)
Definition jsabs (x : jsnum) : jsnum :=
  match x with
  | NaN => NaN
  | Fin q => Fin (Qabs q)
  | _ => PosInf
  end.

(** ** Values, errors and completions *)

(** What a loosely typed field of a row may hold. *)
Inductive jsval : Type :=
| JUndefined
| JNull
| JNumber (n : jsnum)
| JString (s : string).

(** A thrown or returned error object: the store's errors carry a code. *)
Record jserror : Type := mkError {
  err_code : option string;
  message : string
}.

Inductive completion (A : Type) : Type :=
| Return (a : A)
| Throw (e : jserror).
Arguments Return {A} a.
Arguments Throw {A} e.

(** ** Built-ins *)

Class Builtins : Type := {
  (** [String.prototype.toLowerCase] *)
  toLowerCase : string -> string;
  (** [String.prototype.trim] *)
  trim : string -> string;
  (** the global [parseFloat] *)
  parseFloat : jsval -> jsnum;
  (** the time value, in milliseconds, of [new Date(v)]; [NaN] for an
      invalid date *)
  newDate : jsval -> jsnum;
  (** the text a number has inside a template literal *)
  numberToString : jsnum -> string
}.

(** [s.includes(t)]: [t] occurs in [s] as a contiguous run. *)
Fixpoint includes (s t : string) : bool :=
  String.prefix t s ||
  match s with
  | EmptyString => false
  | String _ s' => includes s' t
  end.

(** [!loc] for a text field: [null], [undefined] and the empty string. *)
Definition falsy (loc : option string) : bool :=
  match loc with
  | None => true
  | Some s => String.eqb s ""
  end.

(** [field || fallback] for a text field. *)
Definition or_else (field : option string) (fallback : string) : string :=
  match field with
  | Some s => if String.eqb s "" then fallback else s
  | None => fallback
  end.

(** [array.push(x)], on an array held by one variable only. *)
Definition push {A : Type} (array : list A) (x : A) : list A :=
  List.app array [x].

(** ** Shipments and trips *)

Record shipment : Type := mkShipment {
  pickup_location : option string;
  delivery_location : option string;
  weight : jsval;
  preferred_date : jsval;
  vehicle_type_preferred : option string
}.

Record trip : Type := mkTrip {
  trip_id : string;
  carrier_id : string;
  origin : option string;
  destination : option string;
  capacity : jsval;
  travel_date : jsval;
  vehicle_type : option string;
  status : string
}.

(** ** The scorer *)

Section Scorer.
Context {JS : Builtins}.

(** The gazetteer and the region table of [locationSimilarity], in source
    order ([Object.entries] walks a literal's keys in insertion order). *)
Definition cities : list string :=
  ["الرياض"; "جدة"; "مكة"; "المدينة"; "الدمام"; "الخبر"; "أبها"; "تبوك"; "حائل"; "القصيم"].

Definition regions : list (string * list string) :=
  [ ("وسط", ["الرياض"; "القصيم"; "حائل"]);
    ("غرب", ["مكة"; "جدة"; "المدينة"]);
    ("شرق", ["الدمام"; "الخبر"; "الأحساء"]);
    ("جنوب", ["أبها"; "جازان"; "نجران"]);
    ("شمال", ["تبوك"; "الجوف"; "حائل"]) ].

(** [city1 && city2 && city1 === city2] on the results of [Array.find]
    (every gazetteer entry is a non-empty, hence truthy, string). *)
Definition same_city (city1 city2 : option string) : bool :=
  match city1, city2 with
  | Some a, Some b => String.eqb a b
  | _, _ => false
  end.

Definition locationSimilarity (loc1 loc2 : option string) : Q :=
  if falsy loc1 || falsy loc2 then 0
  else
    let clean1 := trim (toLowerCase (or_else loc1 "")) in
    let clean2 := trim (toLowerCase (or_else loc2 "")) in
    if String.eqb clean1 clean2 then 1.0
    else if includes clean1 clean2 || includes clean2 clean1 then 0.8
    else
      let city1 := find (fun city => includes clean1 city) cities in
      let city2 := find (fun city => includes clean2 city) cities in
      if same_city city1 city2 then 0.9
      else if existsb
                (fun entry : string * list string =>
                   let regionCities := snd entry in
                   existsb (fun city => includes clean1 city) regionCities &&
                   existsb (fun city => includes clean2 city) regionCities)
                regions
      then 0.6
      else 0.2.

Definition calculateLocationScore (s : shipment) (t : trip) : Q :=
  let pickupMatch := locationSimilarity (pickup_location s) (origin t) in
  let deliveryMatch := locationSimilarity (delivery_location s) (destination t) in
  (pickupMatch + deliveryMatch) / 2.

Definition calculateCapacityScore (s : shipment) (t : trip) : Q :=
  let shipmentWeight := or0 (parseFloat (weight s)) in
  let availableCapacity := or0 (parseFloat (capacity t)) in
  if is_zero availableCapacity then 0
  else
    let utilization := jsdiv shipmentWeight availableCapacity in
    if jsge utilization (Fin 0.7) && jsle utilization (Fin 0.9) then 1.0
    else if jsge utilization (Fin 0.5) && jsle utilization (Fin 1.0) then 0.8
    else if jsge utilization (Fin 0.3) && jsle utilization (Fin 1.2) then 0.6
    else if jsgt utilization (Fin 1.2) then 0
    else 0.4.

(** [Math.abs((shipmentDate - tripDate) / (1000 * 60 * 60 * 24))], the
    expression [calculateDateScore] and [getMatchReasons] both compute. *)
Definition diffDays (s : shipment) (t : trip) : jsnum :=
  let shipmentDate := newDate (preferred_date s) in
  let tripDate := newDate (travel_date t) in
  jsabs (jsdiv (jssub shipmentDate tripDate) (Fin (1000 * 60 * 60 * 24))).

Definition calculateDateScore (s : shipment) (t : trip) : Q :=
  let diffDays := diffDays s t in
  if is_zero diffDays then 1.0
  else if jsle diffDays (Fin 1) then 0.9
  else if jsle diffDays (Fin 3) then 0.7
  else if jsle diffDays (Fin 7) then 0.5
  else if jsle diffDays (Fin 14) then 0.3
  else 0.

(** What reading a key of the object literal [similarTypes] yields: one of
    its three own arrays, a member inherited from [Object.prototype], or
    [undefined]. *)
Inductive property : Type :=
| Own (similar : list string)
| Inherited
| Undefined.

Definition Object_prototype : list string :=
  [ "constructor"; "hasOwnProperty"; "isPrototypeOf"; "propertyIsEnumerable";
    "toLocaleString"; "toString"; "valueOf"; "__proto__";
    "__defineGetter__"; "__defineSetter__"; "__lookupGetter__"; "__lookupSetter__" ].

Definition similarTypes (key : string) : property :=
  if String.eqb key "pickup" then Own ["van"; "truck"]
  else if String.eqb key "van" then Own ["pickup"; "truck"]
  else if String.eqb key "truck" then Own ["van"; "pickup"]
  else if existsb (String.eqb key) Object_prototype then Inherited
  else Undefined.

Definition not_a_function : jserror :=
  mkError None "similarTypes[shipmentType]?.includes is not a function".

(** [similarTypes[shipmentType]?.includes(vehicleType)]: the optional chain
    stops at [undefined] only; an inherited member is not nullish, has no
    [includes], and calling that raises a [TypeError]. *)
Definition similar_includes (shipmentType vehicleType : string) : completion bool :=
  match similarTypes shipmentType with
  | Own similar => Return (existsb (String.eqb vehicleType) similar)
  | Undefined => Return false
  | Inherited => Throw not_a_function
  end.

Definition calculateVehicleScore (s : shipment) (t : trip) : completion Q :=
  let shipmentType := or_else (vehicle_type_preferred s) "any" in
  let vehicleType := or_else (vehicle_type t) "any" in
  if String.eqb shipmentType "any" || String.eqb vehicleType "any" then Return 1.0
  else if String.eqb shipmentType vehicleType then Return 1.0
  else
    match similar_includes shipmentType vehicleType with
    | Throw e => Throw e
    | Return true => Return 0.7
    | Return false => Return 0.3
    end.

Definition calculateMatchScore (s : shipment) (t : trip) : completion Q :=
  let score := 0 in
  let locationScore := calculateLocationScore s t in
  let score := score + locationScore * 40 in
  let capacityScore := calculateCapacityScore s t in
  let score := score + capacityScore * 30 in
  let dateScore := calculateDateScore s t in
  let score := score + dateScore * 20 in
  match calculateVehicleScore s t with
  | Throw e => Throw e
  | Return vehicleScore =>
      let score := score + vehicleScore * 10 in
      Return (Qmin 100 (Qmax 0 score))
  end.

(** ** The reason generator *)

Definition getMatchReasons (s : shipment) (t : trip) : list string :=
  let pickupMatch := locationSimilarity (pickup_location s) (origin t) in
  let deliveryMatch := locationSimilarity (delivery_location s) (destination t) in
  let reasons := [] in
  let reasons :=
    if Qle_bool 0.8 pickupMatch then push reasons "موقع الاستلام متطابق" else reasons in
  let reasons :=
    if Qle_bool 0.8 deliveryMatch then push reasons "موقع التسليم متطابق" else reasons in
  let shipmentWeight := or0 (parseFloat (weight s)) in
  let availableCapacity := or0 (parseFloat (capacity t)) in
  let utilization := jsdiv shipmentWeight availableCapacity in
  let reasons :=
    if jsge utilization (Fin 0.7) && jsle utilization (Fin 0.9)
    then push reasons "السعة مناسبة تماماً"
    else if jsge utilization (Fin 0.5) && jsle utilization (Fin 1.0)
    then push reasons "السعة مناسبة"
    else reasons in
  let diffDays := diffDays s t in
  let reasons :=
    if is_zero diffDays then push reasons "التاريخ متطابق تماماً"
    else if jsle diffDays (Fin 3)
    then push reasons ("فارق " ++ numberToString diffDays ++ " أيام فقط")
    else reasons in
  let shipmentType := or_else (vehicle_type_preferred s) "any" in
  let vehicleType := or_else (vehicle_type t) "any" in
  if negb (String.eqb shipmentType "any") && negb (String.eqb vehicleType "any")
     && String.eqb shipmentType vehicleType
  then push reasons "نوع المركبة متطابق"
  else reasons.

End Scorer.

(** ** A reference implementation of the built-ins

    Enough of each built-in to run the engine on concrete rows: ASCII
    letters are lowered (Arabic script has no case), ASCII white space is
    trimmed, [parseFloat] reads a decimal literal, dates are read in the
    date-only form [YYYY-MM-DD] the application stores, as UTC midnight.
    It serves the sample rows only: what is proved of the engine is proved
    for every implementation of the built-ins. *)

Module Reference.

Definition lower (c : ascii) : ascii :=
  let n := nat_of_ascii c in
  if ((65 <=? n) && (n <=? 90))%nat then ascii_of_nat (n + 32) else c.

Fixpoint lowercase (s : string) : string :=
  match s with
  | EmptyString => EmptyString
  | String c s' => String (lower c) (lowercase s')
  end.

Definition is_space (c : ascii) : bool :=
  let n := nat_of_ascii c in
  ((n =? 32) || ((9 <=? n) && (n <=? 13)))%nat.

Fixpoint trim_start (s : string) : string :=
  match s with
  | EmptyString => EmptyString
  | String c s' => if is_space c then trim_start s' else s
  end.

Fixpoint trim_end (s : string) : string :=
  match s with
  | EmptyString => EmptyString
  | String c s' =>
      let rest := trim_end s' in
      if is_space c && String.eqb rest "" then EmptyString else String c rest
  end.

Definition digit (c : ascii) : option Z :=
  let n := nat_of_ascii c in
  if ((48 <=? n) && (n <=? 57))%nat then Some (Z.of_nat (n - 48)) else None.

(** The longest run of digits [s] starts with: its value after [acc], how
    many there were, and what follows. *)
Fixpoint digits (s : string) (acc : Z) (count : nat) : Z * nat * string :=
  match s with
  | EmptyString => (acc, count, s)
  | String c s' =>
      match digit c with
      | Some d => digits s' (10 * acc + d)%Z (S count)
      | None => (acc, count, s)
      end
  end.

Definition sign_of (s : string) : bool * string :=
  match s with
  | String "-" s' => (true, s')
  | String "+" s' => (false, s')
  | _ => (false, s)
  end.

Definition exponent (s : string) : Z :=
  match s with
  | String c s' =>
      if Ascii.eqb c "e" || Ascii.eqb c "E" then
        let '(negative, s'') := sign_of s' in
        let '(e, count, _) := digits s'' 0%Z 0%nat in
        match count with
        | O => 0%Z
        | _ => if negative then (- e)%Z else e
        end
      else 0%Z
  | EmptyString => 0%Z
  end.

Definition parse_decimal (s : string) : jsnum :=
  let '(negative, s) := sign_of (trim_start s) in
  if String.prefix "Infinity" s then (if negative then NegInf else PosInf)
  else
    let '(i, ni, s) := digits s 0%Z 0%nat in
    let '(m, nf, s) :=
      match s with
      | String "." s' => digits s' i 0%nat
      | _ => (i, 0%nat, s)
      end in
    match (ni + nf)%nat with
    | O => NaN
    | _ =>
        let magnitude :=
          inject_Z m * Qpower 10 (exponent s - Z.of_nat nf) in
        Fin (if negative then - magnitude else magnitude)
    end.

Definition parse_float (v : jsval) : jsnum :=
  match v with
  | JNumber n => n
  | JString s => parse_decimal s
  | _ => NaN
  end.

(** Days from 1970-01-01 to the given day of the proleptic Gregorian
    calendar. *)
Definition days_from_civil (y m d : Z) : Z :=
  let y := (if m <=? 2 then y - 1 else y)%Z in
  let era := (y / 400)%Z in
  let yoe := (y - era * 400)%Z in
  let doy := ((153 * (if m <=? 2 then m + 9 else m - 3) + 2) / 5 + d - 1)%Z in
  let doe := (yoe * 365 + yoe / 4 - yoe / 100 + doy)%Z in
  (era * 146097 + doe - 719468)%Z.

Definition days_in_month (y m : Z) : Z :=
  (if m =? 2 then
     if ((y mod 4 =? 0) && negb (y mod 100 =? 0)) || (y mod 400 =? 0)
     then 29 else 28
   else if (m =? 4) || (m =? 6) || (m =? 9) || (m =? 11) then 30 else 31)%Z.

Definition parse_date (s : string) : jsnum :=
  let '(y, ny, s) := digits s 0%Z 0%nat in
  match s with
  | String "-" s =>
      let '(m, nm, s) := digits s 0%Z 0%nat in
      match s with
      | String "-" s =>
          let '(d, nd, s) := digits s 0%Z 0%nat in
          if (ny =? 4)%nat && (nm =? 2)%nat && (nd =? 2)%nat && String.eqb s ""
             && (1 <=? m)%Z && (m <=? 12)%Z
             && (1 <=? d)%Z && (d <=? days_in_month y m)%Z
          then Fin (inject_Z (days_from_civil y m d * 86400000))
          else NaN
      | _ => NaN
      end
  | _ => NaN
  end.

Definition time_value (v : jsval) : jsnum :=
  match v with
  | JUndefined => NaN
  | JNull => Fin 0
  | JNumber (Fin q) =>
      let ms := (Z.quot (Qnum q) (Zpos (Qden q))) in
      if (Z.abs ms <=? 8640000000000000)%Z then Fin (inject_Z ms) else NaN
  | JNumber _ => NaN
  | JString s => parse_date s
  end.

Fixpoint decimal (fuel : nat) (n : Z) (acc : string) : string :=
  match fuel with
  | O => acc
  | S fuel =>
      let acc := String (ascii_of_nat (48 + Z.to_nat (n mod 10))) acc in
      if (n / 10 =? 0)%Z then acc else decimal fuel (n / 10)%Z acc
  end.

Definition show_nat (n : Z) : string := decimal (S (Z.to_nat (Z.log2 n))) n "".

(** Up to [places] digits of the fraction [num / den], [0 <= num < den]. *)
Fixpoint fraction (places : nat) (num den : Z) : string :=
  match places with
  | O => ""
  | S places =>
      if (num =? 0)%Z then ""
      else String (ascii_of_nat (48 + Z.to_nat (10 * num / den)))
                  (fraction places ((10 * num) mod den)%Z den)
  end.

Definition show_number (x : jsnum) : string :=
  match x with
  | NaN => "NaN"
  | PosInf => "Infinity"
  | NegInf => "-Infinity"
  | Fin q =>
      let den := Zpos (Qden q) in
      let num := Z.abs (Qnum q) in
      let digits := show_nat (num / den) in
      let digits :=
        if (num mod den =? 0)%Z then digits
        else digits ++ "." ++ fraction 17 (num mod den)%Z den in
      if (Qnum q <? 0)%Z then "-" ++ digits else digits
  end.

#[export] Instance builtins : Builtins := {
  toLowerCase := lowercase;
  trim := fun s => trim_end (trim_start s);
  parseFloat := parse_float;
  newDate := time_value;
  numberToString := show_number
}.

End Reference.

(** ** The store and the session

    The engine reaches the backend through a query builder.  The store is
    modelled as three tables held in memory; [failure] names the tables the
    store currently refuses to serve (unreachable, query rejected) and the
    error it answers with. *)

Record user : Type := mkUser {
  user_id : string;
  email : string
}.

Record shipper : Type := mkShipper {
  shipper_id : string;
  shipper_user_id : string
}.

Record contact_request : Type := mkContactRequest {
  cr_shipper_id : string;
  cr_carrier_id : string;
  cr_shipment_id : string;
  cr_trip_id : string;
  cr_message : string;
  cr_status : string;
  cr_created_at : string
}.

Inductive table : Type := Trips | Shippers | ContactRequests.

Record database : Type := mkDatabase {
  trips : list trip;
  shippers : list shipper;
  contact_requests : list contact_request;
  failure : table -> option jserror
}.

(** The [{ data, error }] pair a query resolves to. *)
Inductive response (A : Type) : Type :=
| Data (data : A)
| Error (error : jserror).
Arguments Data {A} data.
Arguments Error {A} error.

(** The requests the engine sends, as the store sees them. *)
Inductive request : Type :=
| SelectActiveTrips (today : string)
| SelectShipper (user : string)
| SelectTripCarrier (trip : string)
| InsertContactRequest (row : contact_request).

(** What an [async] method runs in: the clock, the session manager's
    current user, the store, the console, and the requests sent so far. *)
Record world : Type := mkWorld {
  now : string;
  currentUser : option user;
  store : database;
  console : list (string * jserror);
  requests : list request
}.

(** The answer [.single()] gives when the rows are not exactly one. *)
Definition PGRST116 : jserror :=
  mkError (Some "PGRST116") "JSON object requested, multiple (or no) rows returned".

Definition single {A : Type} (rows : list A) : response A :=
  match rows with
  | [row] => Data row
  | _ => Error PGRST116
  end.

(** A method that awaits the store: it may return or throw, and what it
    did to the world stays done either way. *)
Definition async (A : Type) : Type := world -> completion A * world.

Definition ret {A : Type} (a : A) : async A := fun w => (Return a, w).

Definition throw {A : Type} (e : jserror) : async A := fun w => (Throw e, w).

Definition bind {A B : Type} (m : async A) (k : A -> async B) : async B :=
  fun w =>
    match m w with
    | (Return a, w') => k a w'
    | (Throw e, w') => (Throw e, w')
    end.

Definition try_catch {A : Type} (body : async A) (handler : jserror -> async A) : async A :=
  fun w =>
    match body w with
    | (Return a, w') => (Return a, w')
    | (Throw e, w') => handler e w'
    end.

Definition lift {A : Type} (c : completion A) : async A := fun w => (c, w).

Declare Scope async_scope.
Delimit Scope async_scope with async.
Notation "x <- m ;; k" := (bind m (fun x => k))
  (at level 61, m at next level, right associativity) : async_scope.
Notation "m ;; k" := (bind m (fun _ => k))
  (at level 61, right associativity) : async_scope.

Definition with_store (db : database) (w : world) : world :=
  mkWorld (now w) (currentUser w) db (console w) (requests w).

Definition with_request (r : request) (w : world) : world :=
  mkWorld (now w) (currentUser w) (store w) (console w) (push (requests w) r).

Definition with_console (label : string) (e : jserror) (w : world) : world :=
  mkWorld (now w) (currentUser w) (store w) (push (console w) (label, e)) (requests w).

Definition send (r : request) : async unit :=
  fun w => (Return tt, with_request r w).

(** [console.error(label, e)] *)
Definition console_error (label : string) (e : jserror) : async unit :=
  fun w => (Return tt, with_console label e w).

(** Reading the store leaves the world as it is. *)
Definition answer {A : Type} (read : database -> A) : async A :=
  fun w => (Return (read (store w)), w).

(** [new Date().toISOString()] *)
Definition toISOString_now : async string := fun w => (Return (now w), w).

(** [window.sessionManager.getCurrentUser()] *)
Definition getCurrentUser : async (option user) := fun w => (Return (currentUser w), w).

(** [iso.split('T')[0]] *)
Fixpoint split_T_0 (iso : string) : string :=
  match iso with
  | EmptyString => EmptyString
  | String c rest => if Ascii.eqb c "T" then EmptyString else String c (split_T_0 rest)
  end.

Section Engine.
Context {JS : Builtins}.

(** [.eq('status', 'active').gte('travel_date', today)], the dates compared
    by their time values. *)
Definition eligible (today : string) (t : trip) : bool :=
  String.eqb (status t) "active" &&
  jsge (newDate (travel_date t)) (newDate (JString today)).

Definition trips_active (today : string) (db : database) : response (list trip) :=
  match failure db Trips with
  | Some e => Error e
  | None => Data (filter (eligible today) (trips db))
  end.

Definition select_active_trips (today : string) : async (response (list trip)) :=
  (send (SelectActiveTrips today) ;; answer (trips_active today))%async.

(** [.from('shippers').select('id').eq('user_id', id).single()] *)
Definition shippers_single (id : string) (db : database) : response shipper :=
  match failure db Shippers with
  | Some e => Error e
  | None => single (filter (fun r => String.eqb (shipper_user_id r) id) (shippers db))
  end.

Definition select_shipper (id : string) : async (response shipper) :=
  (send (SelectShipper id) ;; answer (shippers_single id))%async.

(** [.from('trips').select('carrier_id').eq('id', tripId).single()] *)
Definition trips_single (tripId : string) (db : database) : response trip :=
  match failure db Trips with
  | Some e => Error e
  | None => single (filter (fun r => String.eqb (trip_id r) tripId) (trips db))
  end.

Definition select_trip_carrier (tripId : string) : async (response trip) :=
  (send (SelectTripCarrier tripId) ;; answer (trips_single tripId))%async.

(** [.from('contact_requests').insert(row)]; without [.select()] the data
    of a successful insert is [null]. *)
Definition insert_contact_request (row : contact_request) : async (response jsval) :=
  (send (InsertContactRequest row) ;;
   fun w =>
     match failure (store w) ContactRequests with
     | Some e => (Return (Error e), w)
     | None =>
         let db := store w in
         (Return (Data JNull),
          with_store (mkDatabase (trips db) (shippers db)
                                 (push (contact_requests db) row) (failure db)) w)
     end)%async.

(** ** The ranked search *)

Record match_result : Type := mkMatch {
  trip_of : trip;
  score : Q;
  reasons : list string
}.

(** The loop of [findMatchingTrips] over the fetched trips. *)
Fixpoint score_trips (s : shipment) (fetched : list trip) (matches : list match_result)
  : completion (list match_result) :=
  match fetched with
  | [] => Return matches
  | trip :: rest =>
      match calculateMatchScore s trip with
      | Throw e => Throw e
      | Return matchScore =>
          score_trips s rest
            (if Qltb 0 matchScore
             then push matches (mkMatch trip matchScore (getMatchReasons s trip))
             else matches)
      end
  end.

(** [Array.prototype.sort(comparefn)].  The language requires the sort to
    be stable and, for a consistent [comparefn], to order the array by it;
    that fixes the result, computed here by insertion: [x] moves behind
    [y] only when [comparefn(x, y) > 0]. *)
Fixpoint sort_insert {A : Type} (comparefn : A -> A -> Q) (x : A) (sorted : list A) : list A :=
  match sorted with
  | [] => [x]
  | y :: rest =>
      if Qltb 0 (comparefn x y) then y :: sort_insert comparefn x rest
      else x :: y :: rest
  end.

Fixpoint sort {A : Type} (comparefn : A -> A -> Q) (array : list A) : list A :=
  match array with
  | [] => []
  | x :: rest => sort_insert comparefn x (sort comparefn rest)
  end.

(** The comparator [(a, b) => b.score - a.score]. *)
Definition by_score (a b : match_result) : Q := score b - score a.

Definition search_failed : string := "خطأ في البحث عن الرحلات المتطابقة:".

Definition findMatchingTrips (s : shipment) : async (list match_result) :=
  try_catch
    (iso <- toISOString_now ;;
     r <- select_active_trips (split_T_0 iso) ;;
     match r with
     | Error error => throw error
     | Data trips =>
         matches <- lift (score_trips s trips []) ;;
         ret (sort by_score matches)
     end)%async
    (fun error =>
       console_error search_failed error ;;
       ret [])%async.

(** ** The contact initiator *)

(** [{ success: true, data }] or [{ success: false, error }]. *)
Inductive contact_result : Type :=
| Success (data : jsval)
| Failure (error : string).

Definition contact_failed : string := "خطأ في إرسال طلب التواصل:".

Definition not_logged_in : jserror := mkError None "User not logged in".

Definition sendContactRequest (shipmentId tripId message_text : string)
  : async contact_result :=
  try_catch
    (user <- getCurrentUser ;;
     match user with
     | None => throw not_logged_in
     | Some user =>
         r <- select_shipper (user_id user) ;;
         match r with
         | Error shipperError => throw shipperError
         | Data shipper =>
             r <- select_trip_carrier tripId ;;
             match r with
             | Error tripError => throw tripError
             | Data trip =>
                 created_at <- toISOString_now ;;
                 r <- insert_contact_request
                        (mkContactRequest (shipper_id shipper) (carrier_id trip)
                                          shipmentId tripId message_text
                                          "pending" created_at) ;;
                 match r with
                 | Error error => throw error
                 | Data data => ret (Success data)
                 end
             end
         end
     end)%async
    (fun error =>
       console_error contact_failed error ;;
       ret (Failure (message error)))%async.

End Engine.

(** ** Vocabulary of the specification *)

(** [t] occurs in [s]. *)
Definition Substring (t s : string) : Prop :=
  exists before after, s = before ++ t ++ after.

(** A text field that is [null], [undefined] or empty. *)
Definition Missing (loc : option string) : Prop :=
  loc = None \/ loc = Some "".

(** [city] is the first entry of the gazetteer that occurs in [text]. *)
Definition FirstCity (text city : string) : Prop :=
  exists earlier later,
    cities = (earlier ++ city :: later)%list /\
    Substring city text /\
    forall other, In other earlier -> ~ Substring other text.

(** Rule "same gazetteer city", as the source decides it: both texts have
    a first gazetteer city, and it is the same one. *)
Definition SameFirstCity (text1 text2 : string) : Prop :=
  exists city, FirstCity text1 city /\ FirstCity text2 city.

(** Rule "same gazetteer city", read as: some gazetteer city occurs in
    both texts. *)
Definition SharedCity (text1 text2 : string) : Prop :=
  exists city, In city cities /\ Substring city text1 /\ Substring city text2.

(** Both texts name a city of one region group. *)
Definition SameRegion (text1 text2 : string) : Prop :=
  exists region members,
    In (region, members) regions /\
    (exists city, In city members /\ Substring city text1) /\
    (exists city, In city members /\ Substring city text2).

(** A vehicle type that reads as itself: [similarTypes] has it as an own
    key or not at all, so that looking it up does not land on a member
    objects inherit.  The four types of the data model are of this kind. *)
Definition plain_type (vehicle : option string) : Prop :=
  similarTypes (or_else vehicle "any") <> Inherited.

Section Cascade.
Context {JS : Builtins}.

(** The case- and whitespace-normalised form of a location. *)
Definition clean (loc : string) : string := trim (toLowerCase loc).

(** How the same-city rule is read: [SameFirstCity] or [SharedCity]. *)
Variable same_city_rule : string -> string -> Prop.

(** The ordered rule cascade of location similarity: each rule applies
    only where every earlier one failed. *)
Inductive Cascade : option string -> option string -> Q -> Prop :=
| rule_missing loc1 loc2 :
    Missing loc1 \/ Missing loc2 ->
    Cascade loc1 loc2 0
| rule_exact a b :
    a <> "" -> b <> "" ->
    clean a = clean b ->
    Cascade (Some a) (Some b) 1.0
| rule_substring a b :
    a <> "" -> b <> "" ->
    clean a <> clean b ->
    Substring (clean b) (clean a) \/ Substring (clean a) (clean b) ->
    Cascade (Some a) (Some b) 0.8
| rule_city a b :
    a <> "" -> b <> "" ->
    clean a <> clean b ->
    ~ (Substring (clean b) (clean a) \/ Substring (clean a) (clean b)) ->
    same_city_rule (clean a) (clean b) ->
    Cascade (Some a) (Some b) 0.9
| rule_region a b :
    a <> "" -> b <> "" ->
    clean a <> clean b ->
    ~ (Substring (clean b) (clean a) \/ Substring (clean a) (clean b)) ->
    ~ same_city_rule (clean a) (clean b) ->
    SameRegion (clean a) (clean b) ->
    Cascade (Some a) (Some b) 0.6
| rule_otherwise a b :
    a <> "" -> b <> "" ->
    clean a <> clean b ->
    ~ (Substring (clean b) (clean a) \/ Substring (clean a) (clean b)) ->
    ~ same_city_rule (clean a) (clean b) ->
    ~ SameRegion (clean a) (clean b) ->
    Cascade (Some a) (Some b) 0.2.

End Cascade.

(** A ranked list: every result scores at least as much as each result
    after it. *)
Definition Descending (matches : list match_result) : Prop :=
  StronglySorted (fun a b => score b <= score a) matches.

(** The results with composite score [v]. *)
Definition has_score (v : Q) (m : match_result) : bool := Qeq_bool (score m) v.

(** [l1] is [l2] with some elements left out, the others in place. *)
Inductive Subsequence {A : Type} : list A -> list A -> Prop :=
| sub_nil : Subsequence [] []
| sub_skip x l1 l2 : Subsequence l1 l2 -> Subsequence l1 (x :: l2)
| sub_keep x l1 l2 : Subsequence l1 l2 -> Subsequence (x :: l1) (x :: l2).

(** The candidates of a search, in the order the store holds them. *)
Definition candidates {JS : Builtins} (w : world) : list trip :=
  filter (eligible (split_T_0 (now w))) (trips (store w)).

(** ** Sample rows *)

Module Sample.

(** A Riyadh address on Makkah Road, and Makkah itself. *)
Definition riyadh_makkah_road : option string := Some "الرياض، طريق مكة".
Definition makkah : option string := Some "مكة المكرمة".

(** The scenario of the specification: 800 kg from Riyadh to Jeddah by
    truck on 2024-06-10, and a trip that fits it exactly. *)
Definition cargo : shipment :=
  mkShipment (Some "الرياض") (Some "جدة") (JNumber (Fin 800))
             (JString "2024-06-10") (Some "truck").

Definition ride : trip :=
  mkTrip "trip-1" "carrier-1" (Some "الرياض") (Some "جدة") (JNumber (Fin 1000))
         (JString "2024-06-10") (Some "truck") "active".

(** Trips that differ from [ride] in capacity only: none recorded, and a
    negative one. *)
Definition ride_without_capacity : trip :=
  mkTrip "trip-2" "carrier-1" (Some "الرياض") (Some "جدة") JNull
         (JString "2024-06-10") (Some "truck") "active".

Definition ride_negative_capacity : trip :=
  mkTrip "trip-3" "carrier-1" (Some "الرياض") (Some "جدة") (JNumber (Fin (-1000)))
         (JString "2024-06-10") (Some "truck") "active".

(** The same cargo asking for a vehicle type that is the name of a member
    of [Object.prototype], and a van to score it against. *)
Definition odd_cargo : shipment :=
  mkShipment (Some "الرياض") (Some "جدة") (JNumber (Fin 800))
             (JString "2024-06-10") (Some "constructor").

Definition van_ride : trip :=
  mkTrip "trip-4" "carrier-2" (Some "الرياض") (Some "جدة") (JNumber (Fin 1000))
         (JString "2024-06-12") (Some "van") "active".


(** Worlds: a store that holds [ride] and [van_ride] and a signed-in
    shipper; the same store refusing to serve trips; an empty store with
    nobody signed in. *)
Definition unavailable : jserror := mkError (Some "503") "Service Unavailable".

Definition online : database :=
  mkDatabase [van_ride; ride] [mkShipper "shipper-1" "user-1"] [] (fun _ => None).

Definition offline : database :=
  mkDatabase [van_ride; ride] [mkShipper "shipper-1" "user-1"] []
             (fun t => match t with Trips => Some unavailable | _ => None end).

Definition signed_in : world :=
  mkWorld "2024-06-01T09:00:00.000Z" (Some (mkUser "user-1" "shipper@example.com"))
          online [] [].

Definition signed_in_offline : world :=
  mkWorld "2024-06-01T09:00:00.000Z" (Some (mkUser "user-1" "shipper@example.com"))
          offline [] [].

Definition signed_out : world :=
  mkWorld "2024-06-01T09:00:00.000Z" None
          (mkDatabase [] [] [] (fun _ => None)) [] [].

End Sample.

(** * The pages around the matcher

    The language switcher and the session manager work on the page: the
    document tree, [localStorage], the address of the page.  What follows
    models those, then the two scripts. *)

(** ** The document *)

Module Dom.

(** The attributes of an element the scripts look at. *)
Record attributes : Type := mkAttributes {
  id : option string;
  classList : list string;
  data_ar : option string;
  data_en : option string
}.

#[warnings="-register-all"]
Inductive node : Type :=
| Text (data : string)
| Element (a : attributes) (childNodes : list node).

(** Where a node sits: the positions to follow from the root. *)
Definition path : Type := list nat.

(** The first element, in document order, whose attributes satisfy
    [selects]; [getElementById] and [querySelector] both return it. *)
Fixpoint find (selects : attributes -> bool) (n : node) : option path :=
  match n with
  | Text _ => None
  | Element a childNodes =>
      if selects a then Some []
      else
        (fix first (i : nat) (nodes : list node) : option path :=
           match nodes with
           | [] => None
           | child :: rest =>
               match find selects child with
               | Some q => Some (i :: q)
               | None => first (S i) rest
               end
           end) O childNodes
  end.

Definition has_id (name : string) (a : attributes) : bool :=
  match id a with
  | Some x => String.eqb x name
  | None => false
  end.

Definition has_class (name : string) (a : attributes) : bool :=
  existsb (String.eqb name) (classList a).

(** [document.getElementById(name)] and [document.querySelector('.' + name)] *)
Definition getElementById (name : string) (root : node) : option path :=
  find (has_id name) root.

Definition querySelector_class (name : string) (root : node) : option path :=
  find (has_class name) root.

Fixpoint update_nth {A : Type} (i : nat) (f : A -> A) (l : list A) : list A :=
  match l, i with
  | [], _ => []
  | x :: rest, O => f x :: rest
  | x :: rest, S i' => x :: update_nth i' f rest
  end.

(** The tree with [change] applied to the node at [q]. *)
Fixpoint update (q : path) (change : node -> node) (n : node) : node :=
  match q with
  | [] => change n
  | i :: q' =>
      match n with
      | Element a childNodes => Element a (update_nth i (update q' change) childNodes)
      | Text _ => n
      end
  end.

(** [element.textContent = text]: the children give way to one text node,
    or to none when the text is empty. *)
Definition content (text : string) : list node :=
  if String.eqb text "" then [] else [Text text].

Definition set_textContent (text : string) (n : node) : node :=
  match n with
  | Element a _ => Element a (content text)
  | Text _ => Text text
  end.

Definition with_classList (change : list string -> list string) (n : node) : node :=
  match n with
  | Element a childNodes =>
      Element (mkAttributes (id a) (change (classList a)) (data_ar a) (data_en a)) childNodes
  | Text _ => n
  end.

(** [classList.add], [classList.remove], [classList.toggle] *)
Definition add (name : string) (classes : list string) : list string :=
  if existsb (String.eqb name) classes then classes else push classes name.

Definition remove (name : string) (classes : list string) : list string :=
  filter (fun c => negb (String.eqb name c)) classes.

Definition toggle (name : string) (classes : list string) : list string :=
  if existsb (String.eqb name) classes then remove name classes else push classes name.

(** The node at [q], if the path leads to one. *)
Fixpoint at_path (q : path) (n : node) : option node :=
  match q with
  | [] => Some n
  | i :: q' =>
      match n with
      | Element _ childNodes =>
          match nth_error childNodes i with
          | Some child => at_path q' child
          | None => None
          end
      | Text _ => None
      end
  end.

(** [q] lies strictly below [p]: what sits at [q] goes when the content of
    the element at [p] is replaced. *)
Fixpoint below (p q : path) : bool :=
  match p, q with
  | [], [] => false
  | [], _ :: _ => true
  | _ :: _, [] => false
  | i :: p', j :: q' => Nat.eqb i j && below p' q'
  end.

(** The search through the children, from position [i]. *)
Fixpoint find_from (selects : attributes -> bool) (i : nat) (nodes : list node)
  : option path :=
  match nodes with
  | [] => None
  | child :: rest =>
      match find selects child with
      | Some q => Some (i :: q)
      | None => find_from selects (S i) rest
      end
  end.

(** Induction on a tree, with the children as a list. *)
Section Induction.

Variable P : node -> Prop.
Hypothesis on_text : forall data, P (Text data).
Hypothesis on_element : forall a childNodes, Forall P childNodes -> P (Element a childNodes).

Fixpoint node_induction (n : node) : P n :=
  match n with
  | Text data => on_text data
  | Element a childNodes =>
      on_element a childNodes
        ((fix all (nodes : list node) : Forall P nodes :=
            match nodes with
            | [] => Forall_nil P
            | child :: rest => Forall_cons child (node_induction child) (all rest)
            end) childNodes)
  end.

End Induction.

End Dom.

(** ** Local storage

    The two items the scripts keep.  [fastship_user] is read through
    [JSON.parse] only, so it is kept as what parsing it gives. *)

Record metadata : Type := mkMetadata {
  md_user_type : option string;
  md_full_name : option string;
  md_phone : option string
}.

Inductive stored_user : Type :=
| NoItem                                  (* no item, or the empty string *)
| Unreadable (e : jserror)                (* [JSON.parse] throws, or gives [null] *)
| Readable (user_metadata : option metadata).

Record localStorage : Type := mkStorage {
  fastship_lang : option string;
  fastship_user : stored_user
}.

(** [localStorage.clear()] *)
Definition clear : localStorage := mkStorage None NoItem.

(** ** The language switcher *)

Module Language.

Import Dom.

Record page : Type := mkPage {
  currentLang : string;
  storage : localStorage;
  lang : string;              (* document.documentElement.lang *)
  dir : string;               (* document.documentElement.dir *)
  documentElement : node
}.

(** [let currentLang = localStorage.getItem(LANG_KEY) || 'ar'], when the
    script is loaded. *)
Definition load (store : localStorage) : string :=
  or_else (fastship_lang store) "ar".

(** What [updateTranslations] does to the tree.  The elements that carry
    both [data-ar] and [data-en] are collected first, in document order,
    and then given their text one by one; an element below another one
    that was given its text has left the document by then. *)
Fixpoint translate_tree (language : string) (n : node) : node :=
  match n with
  | Text data => Text data
  | Element a childNodes =>
      match data_ar a, data_en a with
      | Some arText, Some enText =>
          Element a (content (if String.eqb language "ar" then arText else enText))
      | _, _ => Element a (map (translate_tree language) childNodes)
      end
  end.

Definition updateTranslations (p : page) : page :=
  mkPage (currentLang p) (storage p) (lang p) (dir p)
         (translate_tree (currentLang p) (documentElement p)).

Definition initLanguage (p : page) : page :=
  let p := mkPage (currentLang p) (storage p) (currentLang p)
                  (if String.eqb (currentLang p) "ar" then "rtl" else "ltr")
                  (documentElement p) in
  let p := updateTranslations p in
  match getElementById "currentLang" (documentElement p) with
  | Some langToggle =>
      mkPage (currentLang p) (storage p) (lang p) (dir p)
             (update langToggle
                     (set_textContent (if String.eqb (currentLang p) "ar" then "EN" else "AR"))
                     (documentElement p))
  | None => p
  end.

Definition toggleLanguage (p : page) : page :=
  let currentLang := if String.eqb (currentLang p) "ar" then "en" else "ar" in
  initLanguage
    (mkPage currentLang
            (mkStorage (Some currentLang) (fastship_user (storage p)))
            (lang p) (dir p) (documentElement p)).

(** [window.getCurrentLang] and [window.translate] *)
Definition getCurrentLang (p : page) : string := currentLang p.

Definition translate (p : page) (ar en : string) : string :=
  if String.eqb (currentLang p) "ar" then ar else en.

End Language.

(** ** The session manager

    [SessionManager] keeps the signed-in user, loads their profile row,
    guards the pages and paints the navigation bars.  Its methods run on a
    page: the manager's [currentUser], the Supabase client and the tables
    behind it, [localStorage], the address, the alerts shown, the console
    and the document.  [console.log] is left out; [sessionStorage] is
    cleared by [logout] and read by nothing, and is left out as well. *)

Module Session.

Import Dom.

Record user_row : Type := mkUserRow {
  row_id : string;
  auth_user_id : string;
  row_email : option string;
  full_name : option string;
  phone : option string;
  user_type : option string
}.

Record shipper_row : Type := mkShipperRow {
  s_id : string;
  s_user_id : string;
  company_name : option string;
  s_status : string
}.

Record carrier_row : Type := mkCarrierRow {
  c_id : string;
  c_user_id : string;
  c_vehicle_type : string;
  c_status : string
}.

Record notification : Type := mkNotification {
  n_id : string;
  n_user_id : string;
  n_type : string;
  n_title : string;
  n_message : string;
  n_related_id : option string;
  is_read : bool
}.

(** The queries the manager sends.  [refuses] names the ones the store
    answers with an error; [generated] gives the id the store assigns to
    the next row of a table, from the number of rows it holds;
    [signOut_rejects] is the error [auth.signOut()] rejects with, if it
    does.  The methods that wait on timers or register listeners ([init],
    [_doInit], [_waitForSupabase], [waitForUserProfile]) are not
    modelled. *)
Inductive operation : Type :=
| SelectUser | InsertUser | InsertShipper | InsertCarrier | InsertNotification.

Record backend : Type := mkBackend {
  users : list user_row;
  shippers : list shipper_row;
  carriers : list carrier_row;
  notifications : list notification;
  refuses : operation -> option jserror;
  generated : operation -> nat -> string;
  signOut_rejects : option jserror
}.

(** [session.user], and the object the manager keeps in [currentUser]. *)
Record auth_user : Type := mkAuthUser {
  au_id : string;
  au_email : option string
}.

Record account : Type := mkAccount {
  id : string;
  email : option string;
  profile : option user_row
}.

(** An [async] method that was called without [await] and waits at an
    [await] of its own: the caller goes on without it, and the rest of the
    method comes later. *)
Inductive started_call : Type := GoToDashboard.

Record page : Type := mkPage {
  currentUser : option account;
  supabaseClient : option backend;        (* window.supabaseClient *)
  storage : localStorage;
  pathname : string;                      (* window.location.pathname *)
  href : list string;                     (* what location.href was set to, in order *)
  alerts : list string;
  console : list (string * jserror);
  document : node;
  started : list started_call
}.

Definition action (A : Type) : Type := page -> completion A * page.

Definition ret {A : Type} (a : A) : action A := fun p => (Return a, p).

Definition throw {A : Type} (e : jserror) : action A := fun p => (Throw e, p).

Definition bind {A B : Type} (m : action A) (k : A -> action B) : action B :=
  fun p =>
    match m p with
    | (Return a, p') => k a p'
    | (Throw e, p') => (Throw e, p')
    end.

Definition try_catch {A : Type} (body : action A) (handler : jserror -> action A) : action A :=
  fun p =>
    match body p with
    | (Return a, p') => (Return a, p')
    | (Throw e, p') => handler e p'
    end.

Declare Scope session_scope.
Delimit Scope session_scope with session.
Notation "x <- m ;; k" := (bind m (fun x => k))
  (at level 61, m at next level, right associativity) : session_scope.
Notation "m ;; k" := (bind m (fun _ => k))
  (at level 61, right associativity) : session_scope.

Definition change (f : page -> page) : action unit := fun p => (Return tt, f p).

Definition with_currentUser (u : option account) (p : page) : page :=
  mkPage u (supabaseClient p) (storage p) (pathname p) (href p) (alerts p)
         (console p) (document p) (started p).

Definition with_backend (b : backend) (p : page) : page :=
  mkPage (currentUser p) (Some b) (storage p) (pathname p) (href p) (alerts p)
         (console p) (document p) (started p).


Definition with_document (d : node) (p : page) : page :=
  mkPage (currentUser p) (supabaseClient p) (storage p) (pathname p) (href p) (alerts p)
         (console p) d (started p).

(** [window.location.href = target] *)
Definition location_href (target : string) : action unit :=
  change (fun p =>
    mkPage (currentUser p) (supabaseClient p) (storage p) (pathname p)
           (push (href p) target) (alerts p) (console p) (document p) (started p)).

Definition alert (text : string) : action unit :=
  change (fun p =>
    mkPage (currentUser p) (supabaseClient p) (storage p) (pathname p) (href p)
           (push (alerts p) text) (console p) (document p) (started p)).

Definition console_error (label : string) (e : jserror) : action unit :=
  change (fun p =>
    mkPage (currentUser p) (supabaseClient p) (storage p) (pathname p) (href p)
           (alerts p) (push (console p) (label, e)) (document p) (started p)).

Definition start (call : started_call) : action unit :=
  change (fun p =>
    mkPage (currentUser p) (supabaseClient p) (storage p) (pathname p) (href p)
           (alerts p) (console p) (document p) (push (started p) call)).

(** What reaching through [window.supabaseClient] raises when it is
    [undefined]. *)
Definition no_client : jserror :=
  mkError None "Cannot read properties of undefined (reading 'from')".

(** A query on the client: it raises without a client, and answers with
    the error when the store refuses it. *)
Definition query {A : Type} (op : operation) (run : backend -> response A * backend)
  : action (response A) :=
  fun p =>
    match supabaseClient p with
    | None => (Throw no_client, p)
    | Some b =>
        match refuses b op with
        | Some e => (Return (Error e), p)
        | None => let (answer, b') := run b in (Return answer, with_backend b' p)
        end
    end.

(** ** Reading the session *)

Definition isLoggedIn (p : page) : bool :=
  match currentUser p with
  | Some _ => true
  | None => false
  end.

Definition getCurrentUser (p : page) : option account := currentUser p.

(** [value || null] for a text field. *)
Definition or_null (value : option string) : option string :=
  if falsy value then None else value.

(** [user.user_metadata?.field] *)
Definition optional {A : Type} (user_metadata : option metadata)
           (field : metadata -> option A) : option A :=
  match user_metadata with
  | Some m => field m
  | None => None
  end.

(** [this.currentUser?.profile] *)
Definition current_profile (p : page) : option user_row :=
  match currentUser p with
  | Some u => profile u
  | None => None
  end.

Definition profile_user_type (u : option account) : option string :=
  match u with
  | Some u =>
      match profile u with
      | Some row => user_type row
      | None => None
      end
  | None => None
  end.

Definition getUserType (p : page) : option string :=
  if negb (falsy (profile_user_type (currentUser p)))
  then profile_user_type (currentUser p)
  else
    match fastship_user (storage p) with
    | Readable user_metadata => or_null (optional user_metadata md_user_type)
    | Unreadable _ => None
    | NoItem => None
    end.

(** ** Paths *)


Definition _getAuthPath (p : page) (target : string) : string :=
  if includes (pathname p) "/pages/auth/" then target
  else if includes (pathname p) "/pages/" then String.append "../auth/" target
  else String.append "pages/auth/" target.

Definition _getDashboardPath (p : page) (target : string) : string :=
  if includes (pathname p) "/shipper-app/" || includes (pathname p) "/pages/shipper/"
  then String.append "../" target
  else if includes (pathname p) "/carrier-app/" then String.append "../" target
  else if includes (pathname p) "/pages/" then target
  else String.append "pages/" target.

(** ** The navigation bars *)

(** [text.split('@')[0]] *)
Fixpoint split_at_0 (text : string) : string :=
  match text with
  | EmptyString => EmptyString
  | String c rest => if Ascii.eqb c "@" then EmptyString else String c (split_at_0 rest)
  end.

Definition profile_field (u : account) (field : user_row -> option string) : option string :=
  match profile u with
  | Some row => field row
  | None => None
  end.

(** The two [displayName]s, of the main bar and of the sidebar. *)
Definition displayName (u : account) : string :=
  or_else (profile_field u full_name)
    (or_else (option_map split_at_0 (profile_field u row_email))
       (or_else (option_map split_at_0 (email u)) "المستخدم")).

Definition displayName_sidebar (u : account) : string :=
  or_else (profile_field u full_name)
    (or_else (option_map split_at_0 (email u)) "المستخدم").

(** [if (element) element.textContent = text] *)
Definition textContent_set (element : option path) (text : string) (doc : node) : node :=
  match element with
  | Some q => update q (set_textContent text) doc
  | None => doc
  end.

(** An element looked up before [replaced] was given its text: if it sat
    below, it has left the document, and writing to it shows nowhere. *)
Definition still_attached (replaced element : option path) : option path :=
  match replaced, element with
  | Some r, Some q => if below r q then None else Some q
  | _, _ => element
  end.

Definition _updateNavbar (p : page) : page :=
  let doc := document p in
  let userName := getElementById "userName" doc in
  let userNameDisplay := getElementById "userNameDisplay" doc in
  match getElementById "notLoggedInMenu" doc, getElementById "loggedInMenu" doc with
  | Some notLoggedInMenu, Some loggedInMenu =>
      match currentUser p with
      | Some u =>
          let doc := update notLoggedInMenu (with_classList (add "hidden")) doc in
          let doc := update loggedInMenu (with_classList (remove "hidden")) doc in
          let doc := textContent_set userName (displayName u) doc in
          let doc := textContent_set (still_attached userName userNameDisplay)
                                     (displayName u) doc in
          with_document doc p
      | None =>
          let doc := update notLoggedInMenu (with_classList (remove "hidden")) doc in
          let doc := update loggedInMenu (with_classList (add "hidden")) doc in
          with_document doc p
      end
  | _, _ => p
  end.

Definition _updateSidebarNavbar (p : page) : page :=
  let doc := document p in
  let userNameSidebar := getElementById "userNameSidebar" doc in
  let userEmailSidebar := getElementById "userEmailSidebar" doc in
  match querySelector_class "user-info" doc, currentUser p with
  | Some _, Some u =>
      let doc := textContent_set userNameSidebar (displayName_sidebar u) doc in
      let doc := textContent_set (still_attached userNameSidebar userEmailSidebar)
                                 (or_else (email u) "") doc in
      with_document doc p
  | _, _ => p
  end.

Definition _updateAllNavbars (p : page) : page :=
  _updateSidebarNavbar (_updateNavbar p).

(** ** Loading the profile *)

(** [.from('users').select('*').eq('auth_user_id', id).single()] *)
Definition select_user (auth_id : string) : action (response user_row) :=
  query SelectUser
        (fun b => (single (filter (fun row => String.eqb (auth_user_id row) auth_id) (users b)),
                   b)).

Definition is_PGRST116 (e : jserror) : bool :=
  match err_code e with
  | Some code => String.eqb code "PGRST116"
  | None => false
  end.

Definition data_or_null {A : Type} (answer : response A) : option A :=
  match answer with
  | Data row => Some row
  | Error _ => None
  end.

Definition _loadUserProfile (authUser : auth_user) : action unit :=
  try_catch
    (answer <- select_user (au_id authUser) ;;
     match answer with
     | Error error =>
         if negb (is_PGRST116 error) then console_error "Profile load error:" error
         else ret tt
     | Data _ => ret tt
     end ;;
     change (with_currentUser
               (Some (mkAccount (au_id authUser) (au_email authUser) (data_or_null answer)))) ;;
     change _updateAllNavbars)%session
    (fun error =>
       console_error "Error loading user profile:" error ;;
       change (with_currentUser
                 (Some (mkAccount (au_id authUser) (au_email authUser) None))))%session.

(** ** Signing out *)




(** ** Guards *)

Definition requireAuth : action bool :=
  fun p =>
    if negb (isLoggedIn p)
    then (location_href (_getAuthPath p "login.html") ;; ret false)%session p
    else ret true p.

Definition invalid_user_type : jserror :=
  mkError None "Invalid user type. Only shipper or carrier is supported.".

Definition option_eqb (a : option string) (b : string) : bool :=
  match a with
  | Some x => String.eqb x b
  | None => false
  end.

(** ** The dashboard *)

(** [a || b], where [b] may be missing too. *)
Definition or_option (a b : option string) : option string :=
  if falsy a then b else a.

(** [.from('users').insert([row]).select().single()]: the store gives the
    row its id and answers with it. *)
Definition insert_user (auth_id : string) (email full_name : option string)
           (phone user_type : string) : action (response user_row) :=
  query InsertUser
        (fun b =>
           let row := mkUserRow (generated b InsertUser (List.length (users b)))
                                auth_id email full_name (Some phone) (Some user_type) in
           (Data row,
            mkBackend (push (users b) row) (shippers b) (carriers b) (notifications b)
                      (refuses b) (generated b) (signOut_rejects b))).

Definition insert_shipper (user_id : string) (company : option string)
  : action (response unit) :=
  query InsertShipper
        (fun b =>
           let row := mkShipperRow (generated b InsertShipper (List.length (shippers b)))
                                   user_id company "active" in
           (Data tt,
            mkBackend (users b) (push (shippers b) row) (carriers b) (notifications b)
                      (refuses b) (generated b) (signOut_rejects b))).

Definition insert_carrier (user_id : string) : action (response unit) :=
  query InsertCarrier
        (fun b =>
           let row := mkCarrierRow (generated b InsertCarrier (List.length (carriers b)))
                                   user_id "any" "active" in
           (Data tt,
            mkBackend (users b) (shippers b) (push (carriers b) row) (notifications b)
                      (refuses b) (generated b) (signOut_rejects b))).

(** The block of [goToDashboard] that makes a [users] row for a signed-in
    user who has none.  It answers [false] where the method returns from
    inside the block. *)
Definition create_profile (u : account) : action bool :=
  fun p =>
    let email := email u in
    let '(userType, fullName, phone) :=
      match fastship_user (storage p) with
      | Readable user_metadata =>
          (optional user_metadata md_user_type,
           Some (or_else (optional user_metadata md_full_name) ""),
           Some (or_else (optional user_metadata md_phone) ""))
      | Unreadable _ => (None, None, None)
      | NoItem => (None, None, None)
      end in
    let userType := or_else userType "shipper" in
    try_catch
      (created <- insert_user (id u) email (or_option fullName email)
                              (or_else phone "") userType ;;
       match created with
       | Error _ =>
           alert "تعذر إنشاء بياناتك تلقائياً. يرجى التواصل مع الدعم." ;;
           location_href (_getAuthPath p "register.html") ;;
           ret false
       | Data userData =>
           (if String.eqb userType "shipper" then
              made <- insert_shipper (row_id userData) (or_option fullName email) ;;
              match made with
              | Error shipperError =>
                  console_error "Error creating shipper record:" shipperError
              | Data _ => ret tt
              end
            else if String.eqb userType "carrier" then
              made <- insert_carrier (row_id userData) ;;
              match made with
              | Error carrierError =>
                  console_error "Error creating carrier record:" carrierError
              | Data _ => ret tt
              end
            else ret tt) ;;
           _loadUserProfile (mkAuthUser (id u) email) ;;
           ret true
       end)%session
      (fun _ =>
         alert "حدث خطأ أثناء إنشاء بياناتك. يرجى التواصل مع الدعم." ;;
         location_href (_getAuthPath p "register.html") ;;
         ret false)%session
      p.

(** The last block of [goToDashboard]: the redirect by user type. *)
Definition open_dashboard : action unit :=
  fun p =>
    let userType := getUserType p in
    let userType :=
      if falsy userType then
        match fastship_user (storage p) with
        | Readable user_metadata => optional user_metadata md_user_type
        | Unreadable _ => userType
        | NoItem => userType
        end
      else userType in
    if option_eqb userType "shipper"
    then location_href (_getDashboardPath p "shipper/index.html") p
    else if option_eqb userType "carrier"
    then location_href (_getDashboardPath p "carrier/index.html") p
    else (alert "نوع المستخدم غير معروف. يرجى إكمال بياناتك أو التواصل مع الدعم." ;;
          location_href (_getAuthPath p "register.html"))%session p.

Definition goToDashboard : action unit :=
  fun p =>
    match currentUser p with
    | None => location_href (_getAuthPath p "login.html") p
    | Some u =>
        (proceed <- match profile u with
                    | None => create_profile u
                    | Some _ => ret true
                    end ;;
         if negb proceed then ret tt else open_dashboard)%session p
    end.

(** ** The guard by user type

    [requireUserType] calls [goToDashboard] without [await].  An [async]
    method runs, inside the call, up to its first [await]: the only one of
    [goToDashboard] that it can meet first is the insert of the [users]
    row, reached by a signed-in user without a profile when the page has a
    client.  Everywhere else the method has run to its end when the call
    comes back.  [goToDashboard_begins] is that first stretch; it answers
    [true] when the method waits at the [await], the rest still to come. *)
Definition goToDashboard_begins : action bool :=
  fun p =>
    match currentUser p with
    | None => (location_href (_getAuthPath p "login.html") ;; ret false)%session p
    | Some u =>
        match profile u with
        | Some _ => (open_dashboard ;; ret false)%session p
        | None =>
            match supabaseClient p with
            | Some _ => ret true p
            | None =>
                (alert "حدث خطأ أثناء إنشاء بياناتك. يرجى التواصل مع الدعم." ;;
                 location_href (_getAuthPath p "register.html") ;;
                 ret false)%session p
            end
        end
    end.

Definition requireUserType (requiredType : string) : action bool :=
  if negb (String.eqb requiredType "shipper") && negb (String.eqb requiredType "carrier")
  then throw invalid_user_type
  else
    (allowed <- requireAuth ;;
     if negb allowed then ret false
     else
       fun p =>
         if negb (option_eqb (getUserType p) requiredType)
         then (alert "غير مصرح لك بالوصول إلى هذه الصفحة" ;;
               waiting <- goToDashboard_begins ;;
               (if waiting : bool then start GoToDashboard else ret tt) ;;
               ret false) p
         else ret true p)%session.

(** ** Notifications *)

Definition no_supabase : jserror := mkError None "Supabase client not available".

Definition insert_notification (userId type title text : string) (relatedId : option string)
  : action (response notification) :=
  query InsertNotification
        (fun b =>
           let row := mkNotification
                        (generated b InsertNotification (List.length (notifications b)))
                        userId type title text relatedId false in
           (Data row,
            mkBackend (users b) (shippers b) (carriers b) (push (notifications b) row)
                      (refuses b) (generated b) (signOut_rejects b))).

Definition createNotification (userId type title text : string) (relatedId : option string)
  : action (option notification) :=
  try_catch
    (fun p =>
       match supabaseClient p with
       | None => throw no_supabase p
       | Some _ =>
           (answer <- insert_notification userId type title text relatedId ;;
            match answer with
            | Error error => throw error
            | Data data => ret (Some data)
            end)%session p
       end)
    (fun error => console_error "Error creating notification:" error ;; ret None)%session.

Definition createSystemNotification (title text : string) (relatedId : option string)
  : action (option notification) :=
  fun p =>
    match currentUser p with
    | None => ret None p
    | Some u => createNotification (id u) "system" title text relatedId p
    end.

Definition createShipmentNotification (title text : string) (shipmentId : option string)
  : action (option notification) :=
  fun p =>
    match currentUser p with
    | None => ret None p
    | Some u => createNotification (id u) "shipment" title text shipmentId p
    end.

Definition createMessageNotification (title text : string) (messageId : option string)
  : action (option notification) :=
  fun p =>
    match currentUser p with
    | None => ret None p
    | Some u => createNotification (id u) "message" title text messageId p
    end.

(** ** The two menus *)

(** [window.toggleAccountMenu] and [window.toggleUserMenu], on the
    document. *)
Definition toggleAccountMenu (doc : node) : node :=
  match getElementById "accountMenu" doc with
  | Some menu =>
      let userMenu := getElementById "userMenu" doc in
      let doc := update menu (with_classList (toggle "hidden")) doc in
      match userMenu with
      | Some userMenu => update userMenu (with_classList (add "hidden")) doc
      | None => doc
      end
  | None => doc
  end.

Definition toggleUserMenu (doc : node) : node :=
  match getElementById "userMenu" doc with
  | Some menu =>
      let accountMenu := getElementById "accountMenu" doc in
      let doc := update menu (with_classList (toggle "hidden")) doc in
      match accountMenu with
      | Some accountMenu => update accountMenu (with_classList (add "hidden")) doc
      | None => doc
      end
  | None => doc
  end.

(** The class list of the element at [q]. *)
Definition classes_at (q : path) (doc : node) : option (list string) :=
  match at_path q doc with
  | Some (Element a _) => Some (classList a)
  | _ => None
  end.

Definition hidden (classes : list string) : bool := existsb (String.eqb "hidden") classes.

End Session.

(** ** A sample page *)

Module SamplePage.

Definition element (name : string) (classes : list string) (childNodes : list Dom.node)
  : Dom.node :=
  Dom.Element (Dom.mkAttributes (Some name) classes None None) childNodes.

Definition heading : Dom.node :=
  Dom.Element (Dom.mkAttributes None [] (Some "مرحبا") (Some "Welcome")) [Dom.Text "مرحبا"].

(** A home page: the language button, a translated heading, the two bars
    and the two menus. *)
Definition home : Dom.node :=
  Dom.Element (Dom.mkAttributes None [] None None)
    [element "langToggle" [] [element "currentLang" [] [Dom.Text "EN"]];
     heading;
     element "notLoggedInMenu" [] [Dom.Text "دخول"];
     element "loggedInMenu" ["hidden"] [element "userName" [] []];
     element "accountMenu" ["hidden"] [];
     element "userMenu" ["menu"] []].

Definition arabic : Language.page :=
  Language.mkPage "ar" (mkStorage (Some "ar") NoItem) "" "" home.

(** A store that serves every query and numbers its rows. *)
Definition numbered (op : Session.operation) (n : nat) : string :=
  String.append
    match op with
    | Session.SelectUser => "users-"
    | Session.InsertUser => "users-"
    | Session.InsertShipper => "shippers-"
    | Session.InsertCarrier => "carriers-"
    | Session.InsertNotification => "notifications-"
    end
    (String (Ascii.ascii_of_nat (48 + n)) "").

Definition serving : Session.backend :=
  Session.mkBackend [] [] [] [] (fun _ => None) numbered None.

(** A user who has signed in and has no [users] row yet. *)
Definition sara : Session.account :=
  Session.mkAccount "auth-1" (Some "sara@example.com") None.

Definition first_visit : Session.page :=
  Session.mkPage (Some sara) (Some serving) (mkStorage (Some "ar") NoItem)
                 "/index.html" [] [] [] home [].

(** What the matcher sees once that user has been to the dashboard. *)
Definition after_first_visit : world :=
  mkWorld "2025-03-01T09:00:00.000Z" (Some (mkUser "auth-1" "sara@example.com"))
          (mkDatabase [] [mkShipper "shippers-0" "users-0"] [] (fun _ => None))
          [] [].

End SamplePage.

(** * Properties *)

(** ** Text *)

Lemma prefix_app (t s : string) :
  String.prefix t s = true <-> exists after, s = t ++ after.
Proof.
  revert t. induction s as [|d s IH]; intros [|c t]; simpl.
  - split; [exists ""; reflexivity | reflexivity].
  - split; [discriminate | intros [after H]; discriminate].
  - split; [exists (String d s); reflexivity | reflexivity].
  - destruct (ascii_dec c d) as [->|Hne].
    + rewrite IH. split; intros [after H]; exists after.
      * now rewrite H.
      * now inversion H.
    + split; [discriminate|].
      intros [after H]. inversion H. congruence.
Qed.

Lemma includes_step (c : ascii) (s t : string) :
  includes (String c s) t = String.prefix t (String c s) || includes s t.
Proof. reflexivity. Qed.

Lemma includes_Substring (s t : string) :
  includes s t = true <-> Substring t s.
Proof.
  induction s as [|c s IH].
  - change (includes "" t) with (String.prefix t "" || false).
    rewrite orb_false_r, prefix_app. split.
    + intros [after H]. exists "", after. exact H.
    + intros [before [after H]]. destruct before; simpl in H.
      * now exists after.
      * discriminate.
  - rewrite includes_step, orb_true_iff, prefix_app, IH. split.
    + intros [[after H] | [before [after H]]].
      * exists "", after. exact H.
      * exists (String c before), after. simpl. now rewrite H.
    + intros [before [after H]]. destruct before as [|d before]; simpl in H.
      * left. now exists after.
      * right. inversion H. now exists before, after.
Qed.

Lemma includes_not_Substring (s t : string) :
  includes s t = false <-> ~ Substring t s.
Proof.
  rewrite <- includes_Substring. destruct (includes s t); split; congruence.
Qed.

Lemma existsb_includes (text : string) (members : list string) :
  existsb (fun city => includes text city) members = true <->
  exists city, In city members /\ Substring city text.
Proof.
  rewrite existsb_exists. split; intros [city [Hin H]]; exists city;
    (split; [exact Hin | now apply includes_Substring]).
Qed.

Lemma find_first {A : Type} (p : A -> bool) (l : list A) (x : A) :
  find p l = Some x <->
  exists earlier later,
    l = (earlier ++ x :: later)%list /\ p x = true /\
    forall y, In y earlier -> p y = false.
Proof.
  induction l as [|a l IH]; simpl.
  - split; [discriminate|]. intros [[|e earlier] [later [H _]]]; discriminate.
  - destruct (p a) eqn:Ha.
    + split.
      * intros [= <-]. exists [], l. simpl. repeat split; auto. contradiction.
      * intros [[|e earlier] [later [H [Hx Hearlier]]]]; simpl in H.
        -- congruence.
        -- inversion H; subst e. rewrite (Hearlier a) in Ha; [discriminate | now left].
    + rewrite IH. split.
      * intros [earlier [later [-> [Hx Hearlier]]]].
        exists (a :: earlier), later. repeat split; auto.
        intros y [<-|Hy]; auto.
      * intros [[|e earlier] [later [H [Hx Hearlier]]]]; simpl in H.
        -- inversion H; subst a. congruence.
        -- inversion H; subst. exists earlier, later. repeat split; auto.
           intros y Hy. apply Hearlier. now right.
Qed.

Lemma find_FirstCity (text city : string) :
  find (fun city => includes text city) cities = Some city <-> FirstCity text city.
Proof.
  rewrite find_first. unfold FirstCity.
  split; intros [earlier [later [H [Hx Hearlier]]]]; exists earlier, later;
    (split; [exact H|]); split.
  - now apply includes_Substring.
  - intros other Hin. apply includes_not_Substring. auto.
  - now apply includes_Substring.
  - intros other Hin. apply includes_not_Substring. auto.
Qed.

Lemma FirstCity_unique (text c1 c2 : string) :
  FirstCity text c1 -> FirstCity text c2 -> c1 = c2.
Proof.
  intros H1 H2. apply find_FirstCity in H1, H2. congruence.
Qed.

Lemma same_city_SameFirstCity (text1 text2 : string) :
  same_city (find (fun city => includes text1 city) cities)
            (find (fun city => includes text2 city) cities) = true <->
  SameFirstCity text1 text2.
Proof.
  unfold SameFirstCity, same_city. split.
  - destruct (find _ cities) as [c1|] eqn:H1; [|discriminate].
    destruct (find (fun city => includes text2 city) cities) as [c2|] eqn:H2;
      [|discriminate].
    rewrite String.eqb_eq. intros <-. exists c1.
    split; now apply find_FirstCity.
  - intros [city [H1 H2]]. apply find_FirstCity in H1, H2.
    rewrite H1, H2. apply String.eqb_refl.
Qed.

Lemma regions_SameRegion (text1 text2 : string) :
  existsb
    (fun entry : string * list string =>
       let regionCities := snd entry in
       existsb (fun city => includes text1 city) regionCities &&
       existsb (fun city => includes text2 city) regionCities)
    regions = true <->
  SameRegion text1 text2.
Proof.
  rewrite existsb_exists. unfold SameRegion. split.
  - intros [[region members] [Hin H]]. simpl in H.
    apply andb_true_iff in H. destruct H as [H1 H2].
    exists region, members. rewrite <- !existsb_includes. auto.
  - intros [region [members [Hin [H1 H2]]]]. exists (region, members).
    simpl. rewrite andb_true_iff, !existsb_includes. auto.
Qed.

Lemma falsy_Missing (loc : option string) : falsy loc = true <-> Missing loc.
Proof.
  unfold falsy, Missing. destruct loc as [s|].
  - rewrite String.eqb_eq. split; [intros ->; now right | intros [H|[= H]]; congruence].
  - split; auto.
Qed.

(** ** Location similarity *)

Section LocationSimilarity.
Context {JS : Builtins}.

Lemma not_true_iff (b : bool) (P : Prop) :
  (b = true <-> P) -> (b = false <-> ~ P).
Proof.
  intros [H1 H2]. destruct b; split; intros H; try congruence.
  - exfalso. apply H, H1. reflexivity.
  - intros HP. apply H2 in HP. discriminate.
Qed.

Lemma either_includes (text1 text2 : string) :
  includes text1 text2 || includes text2 text1 = true <->
  Substring text2 text1 \/ Substring text1 text2.
Proof. now rewrite orb_true_iff, !includes_Substring. Qed.

(** Past the guard [!loc1 || !loc2], the cascade runs on the cleaned
    texts. *)
Lemma locationSimilarity_present (a b : string) :
  a <> "" -> b <> "" ->
  locationSimilarity (Some a) (Some b) =
  if String.eqb (clean a) (clean b) then 1.0
  else if includes (clean a) (clean b) || includes (clean b) (clean a) then 0.8
  else if same_city (find (fun city => includes (clean a) city) cities)
                    (find (fun city => includes (clean b) city) cities) then 0.9
  else if existsb
            (fun entry : string * list string =>
               let regionCities := snd entry in
               existsb (fun city => includes (clean a) city) regionCities &&
               existsb (fun city => includes (clean b) city) regionCities)
            regions
  then 0.6 else 0.2.
Proof.
  intros Ha Hb. apply String.eqb_neq in Ha, Hb.
  unfold locationSimilarity, falsy, or_else, clean. now rewrite Ha, Hb.
Qed.

Lemma locationSimilarity_missing (loc1 loc2 : option string) :
  Missing loc1 \/ Missing loc2 -> locationSimilarity loc1 loc2 = 0.
Proof.
  intros H. unfold locationSimilarity.
  replace (falsy loc1 || falsy loc2) with true; [reflexivity|].
  symmetry. apply orb_true_iff. now rewrite !falsy_Missing.
Qed.

Lemma locationSimilarity_Cascade (loc1 loc2 : option string) :
  Cascade SameFirstCity loc1 loc2 (locationSimilarity loc1 loc2).
Proof.
  destruct (falsy loc1 || falsy loc2) eqn:Hguard.
  - apply orb_true_iff in Hguard. rewrite !falsy_Missing in Hguard.
    rewrite locationSimilarity_missing by exact Hguard.
    now apply rule_missing.
  - apply orb_false_iff in Hguard. destruct Hguard as [H1 H2].
    destruct loc1 as [a|]; [|discriminate]. destruct loc2 as [b|]; [|discriminate].
    simpl in H1, H2. apply String.eqb_neq in H1, H2.
    rewrite locationSimilarity_present by assumption.
    destruct (String.eqb (clean a) (clean b)) eqn:Hexact.
    { apply String.eqb_eq in Hexact. now apply rule_exact. }
    apply String.eqb_neq in Hexact.
    destruct (includes (clean a) (clean b) || includes (clean b) (clean a)) eqn:Hsub.
    { apply either_includes in Hsub. now apply rule_substring. }
    apply (not_true_iff _ _ (either_includes _ _)) in Hsub.
    destruct (same_city _ _) eqn:Hcity.
    { apply same_city_SameFirstCity in Hcity. now apply rule_city. }
    apply (not_true_iff _ _ (same_city_SameFirstCity _ _)) in Hcity.
    destruct (existsb _ regions) eqn:Hregion.
    { apply regions_SameRegion in Hregion. now apply rule_region. }
    apply (not_true_iff _ _ (regions_SameRegion _ _)) in Hregion.
    now apply rule_otherwise.
Qed.

Lemma Cascade_locationSimilarity (loc1 loc2 : option string) (v : Q) :
  Cascade SameFirstCity loc1 loc2 v -> v = locationSimilarity loc1 loc2.
Proof.
  pose proof (fun a b => proj2 (not_true_iff _ _ (either_includes a b))) as no_sub.
  pose proof (fun a b => proj2 (not_true_iff _ _ (same_city_SameFirstCity a b))) as no_city.
  pose proof (fun a b => proj2 (not_true_iff _ _ (regions_SameRegion a b))) as no_region.
  intros H.
  destruct H as [loc1 loc2 H | a b Ha Hb Hexact | a b Ha Hb Hexact Hsub
                | a b Ha Hb Hexact Hsub Hcity | a b Ha Hb Hexact Hsub Hcity Hregion
                | a b Ha Hb Hexact Hsub Hcity Hregion];
    [ now rewrite locationSimilarity_missing | .. ];
    rewrite locationSimilarity_present by assumption.
  - apply String.eqb_eq in Hexact. now rewrite Hexact.
  - apply String.eqb_neq in Hexact. apply either_includes in Hsub.
    now rewrite Hexact, Hsub.
  - apply String.eqb_neq in Hexact. apply no_sub in Hsub.
    apply same_city_SameFirstCity in Hcity.
    now rewrite Hexact, Hsub, Hcity.
  - apply String.eqb_neq in Hexact. apply no_sub in Hsub. apply no_city in Hcity.
    apply regions_SameRegion in Hregion. cbv zeta in *.
    now rewrite Hexact, Hsub, Hcity, Hregion.
  - apply String.eqb_neq in Hexact. apply no_sub in Hsub. apply no_city in Hcity.
    apply no_region in Hregion. cbv zeta in *.
    now rewrite Hexact, Hsub, Hcity, Hregion.
Qed.

(** C6, as amended.  The value [locationSimilarity] returns is the one the
    ordered cascade assigns, and no other: missing or empty input gives 0,
    equal cleaned texts 1.0, one cleaned text occurring in the other 0.8,
    the same first gazetteer city in both 0.9, cities of one region 0.6,
    anything else 0.2, each rule tried only where all earlier ones failed.
    The substring rule stands before the same-city rule, so two different
    texts of which one contains the other score 0.8 whatever cities they
    name. *)
Theorem locationSimilarity_cascade (loc1 loc2 : option string) (v : Q) :
  Cascade SameFirstCity loc1 loc2 v <-> v = locationSimilarity loc1 loc2.
Proof.
  split.
  - apply Cascade_locationSimilarity.
  - intros ->. apply locationSimilarity_Cascade.
Qed.

Lemma same_city_sym (c1 c2 : option string) : same_city c1 c2 = same_city c2 c1.
Proof.
  destruct c1, c2; simpl; auto using String.eqb_sym.
Qed.

Lemma existsb_ext_in {A : Type} (f g : A -> bool) (l : list A) :
  (forall x, f x = g x) -> existsb f l = existsb g l.
Proof.
  intros H. induction l as [|x l IH]; simpl; [reflexivity|]. now rewrite H, IH.
Qed.

(** C7.  Location similarity is symmetric. *)
Theorem locationSimilarity_symmetric (a b : option string) :
  locationSimilarity a b = locationSimilarity b a.
Proof.
  unfold locationSimilarity.
  rewrite (orb_comm (falsy a)).
  destruct (falsy b || falsy a); [reflexivity|].
  set (clean1 := trim (toLowerCase (or_else a ""))).
  set (clean2 := trim (toLowerCase (or_else b ""))).
  rewrite (String.eqb_sym clean1 clean2).
  destruct (String.eqb clean2 clean1); [reflexivity|].
  rewrite (orb_comm (includes clean1 clean2)).
  destruct (includes clean2 clean1 || includes clean1 clean2); [reflexivity|].
  rewrite same_city_sym.
  destruct (same_city _ _); [reflexivity|].
  erewrite existsb_ext_in; [reflexivity|].
  intros entry. apply andb_comm.
Qed.

End LocationSimilarity.

(** C6, with the same-city rule as the specification words it.  A Riyadh
    address on Makkah Road and Makkah itself differ, neither contains the
    other, and the gazetteer city Makkah occurs in both, so the cascade
    read that way assigns 0.9; the source finds Riyadh first in the one and
    Makkah in the other, falls through to the region rule, and returns
    0.6. *)
Lemma locationSimilarity_shared_city_counterexample :
  @Cascade Reference.builtins SharedCity Sample.riyadh_makkah_road Sample.makkah 0.9 /\
  @locationSimilarity Reference.builtins Sample.riyadh_makkah_road Sample.makkah = 0.6 /\
  ~ 0.6 == 0.9.
Proof.
  split; [|split].
  - apply rule_city.
    + discriminate.
    + discriminate.
    + apply String.eqb_neq. vm_compute. reflexivity.
    + apply (not_true_iff _ _ (either_includes _ _)). vm_compute. reflexivity.
    + exists "مكة". split; [|split].
      * simpl. tauto.
      * apply includes_Substring. vm_compute. reflexivity.
      * apply includes_Substring. vm_compute. reflexivity.
  - vm_compute. reflexivity.
  - intros H. discriminate H.
Qed.

(** ** Numbers *)

Lemma Qle_bool_false (a b : Q) : Qle_bool a b = false <-> b < a.
Proof.
  split; intros H.
  - apply Qnot_le_lt. intros Hle. apply Qle_bool_iff in Hle. congruence.
  - destruct (Qle_bool a b) eqn:E; [|reflexivity].
    apply Qle_bool_iff in E. apply Qlt_not_le in H. contradiction.
Qed.

Lemma Qeq_bool_false (a b : Q) : Qeq_bool a b = false <-> ~ a == b.
Proof.
  rewrite <- Qeq_bool_iff. destruct (Qeq_bool a b); split; congruence.
Qed.

Lemma Qltb_lt (a b : Q) : Qltb a b = true <-> a < b.
Proof.
  unfold Qltb. rewrite negb_true_iff. apply Qle_bool_false.
Qed.

Lemma Qltb_false (a b : Q) : Qltb a b = false <-> b <= a.
Proof.
  unfold Qltb. rewrite negb_false_iff. apply Qle_bool_iff.
Qed.

(** Splits on every comparison of rationals in the goal and keeps what
    each outcome means. *)
Ltac compare_rationals :=
  repeat match goal with
  | |- context [Qltb ?a ?b] =>
      let H := fresh "Hcmp" in
      destruct (Qltb a b) eqn:H;
      [apply Qltb_lt in H | apply Qltb_false in H]
  | |- context [Qle_bool ?a ?b] =>
      let H := fresh "Hcmp" in
      destruct (Qle_bool a b) eqn:H;
      [apply Qle_bool_iff in H | apply Qle_bool_false in H]
  | |- context [Qeq_bool ?a ?b] =>
      let H := fresh "Hcmp" in
      destruct (Qeq_bool a b) eqn:H;
      [apply Qeq_bool_iff in H | apply Qeq_bool_false in H]
  end.

Lemma jsabs_not_negative (x : jsnum) : jsabs x <> NegInf.
Proof. destruct x; discriminate. Qed.

Lemma jsabs_finite (x : jsnum) (q : Q) : jsabs x = Fin q -> 0 <= q.
Proof.
  destruct x; try discriminate. intros [= <-]. apply Qabs_nonneg.
Qed.

(** ** Date score *)

Section DateScore.
Context {JS : Builtins}.

Lemma diffDays_nonnegative (s : shipment) (t : trip) (q : Q) :
  diffDays s t = Fin q -> 0 <= q.
Proof. apply jsabs_finite. Qed.

Lemma diffDays_between (s : shipment) (t : trip) (a b : Q) :
  newDate (preferred_date s) = Fin a ->
  newDate (travel_date t) = Fin b ->
  diffDays s t = Fin (Qabs ((a - b) / (1000 * 60 * 60 * 24))).
Proof.
  intros Ha Hb. unfold diffDays. rewrite Ha, Hb. reflexivity.
Qed.

Lemma calculateDateScore_finite (s : shipment) (t : trip) (q : Q) :
  diffDays s t = Fin q ->
  calculateDateScore s t =
  if Qeq_bool q 0 then 1.0
  else if Qle_bool q 1 then 0.9
  else if Qle_bool q 3 then 0.7
  else if Qle_bool q 7 then 0.5
  else if Qle_bool q 14 then 0.3
  else 0.
Proof.
  intros H. unfold calculateDateScore. rewrite H. reflexivity.
Qed.

Lemma calculateDateScore_not_finite (s : shipment) (t : trip) :
  (forall q, diffDays s t <> Fin q) -> calculateDateScore s t = 0.
Proof.
  intros H. unfold calculateDateScore.
  pose proof (jsabs_not_negative
                (jsdiv (jssub (newDate (preferred_date s)) (newDate (travel_date t)))
                       (Fin (1000 * 60 * 60 * 24)))) as Hneg.
  fold (diffDays s t) in Hneg.
  destruct (diffDays s t) as [| |q|]; try reflexivity; congruence.
Qed.

Lemma calculateDateScore_range (s : shipment) (t : trip) :
  0 <= calculateDateScore s t <= 1.
Proof.
  destruct (diffDays s t) as [| |q|] eqn:Hd.
  - rewrite calculateDateScore_not_finite by (rewrite Hd; discriminate). lra.
  - now apply jsabs_not_negative in Hd.
  - rewrite (calculateDateScore_finite s t q Hd). compare_rationals; lra.
  - rewrite calculateDateScore_not_finite by (rewrite Hd; discriminate). lra.
Qed.

(** C8.  With [diffDays] the absolute difference of the two dates in days:
    the date score is 1.0 exactly when [diffDays] is 0; it is 0.9, 0.7,
    0.5, 0.3 for a difference of at most 1, 3, 7, 14 days (the first bound
    that holds), and 0 beyond or when a date cannot be read; and it never
    grows as [diffDays] grows. *)
Theorem calculateDateScore_table (s : shipment) (t : trip) :
  (forall a b,
     newDate (preferred_date s) = Fin a -> newDate (travel_date t) = Fin b ->
     exists q, diffDays s t = Fin q /\ q == Qabs (a - b) / 86400000) /\
  (calculateDateScore s t == 1 <-> exists q, diffDays s t = Fin q /\ q == 0) /\
  (forall q, diffDays s t = Fin q ->
     (q == 0 -> calculateDateScore s t = 1.0) /\
     (0 < q <= 1 -> calculateDateScore s t = 0.9) /\
     (1 < q <= 3 -> calculateDateScore s t = 0.7) /\
     (3 < q <= 7 -> calculateDateScore s t = 0.5) /\
     (7 < q <= 14 -> calculateDateScore s t = 0.3) /\
     (14 < q -> calculateDateScore s t = 0)) /\
  ((forall q, diffDays s t <> Fin q) -> calculateDateScore s t = 0) /\
  (forall s' t' q q',
     diffDays s t = Fin q -> diffDays s' t' = Fin q' -> q <= q' ->
     calculateDateScore s' t' <= calculateDateScore s t).
Proof.
  split; [|split; [|split; [|split]]].
  - intros a b Ha Hb. exists (Qabs ((a - b) / (1000 * 60 * 60 * 24))).
    split; [exact (diffDays_between s t a b Ha Hb)|].
    unfold Qdiv. rewrite Qabs_Qmult. apply Qmult_comp; [reflexivity|].
    vm_compute. reflexivity.
  - split.
    + intros H. destruct (diffDays s t) as [| |q|] eqn:Hd.
      * rewrite calculateDateScore_not_finite in H by (rewrite Hd; discriminate).
        discriminate H.
      * now apply jsabs_not_negative in Hd.
      * exists q. split; [reflexivity|].
        rewrite (calculateDateScore_finite s t q Hd) in H.
        revert H. compare_rationals; intros H; first [assumption | exfalso; lra].
      * rewrite calculateDateScore_not_finite in H by (rewrite Hd; discriminate).
        discriminate H.
    + intros [q [Hd Hq]]. rewrite (calculateDateScore_finite s t q Hd).
      apply Qeq_bool_iff in Hq. rewrite Hq. reflexivity.
  - intros q Hd. pose proof (diffDays_nonnegative s t q Hd) as Hq.
    rewrite (calculateDateScore_finite s t q Hd).
    repeat split; intros H; compare_rationals; try reflexivity; lra.
  - apply calculateDateScore_not_finite.
  - intros s' t' q q' Hd Hd' Hle.
    pose proof (diffDays_nonnegative s t q Hd) as Hq.
    rewrite (calculateDateScore_finite s t q Hd).
    rewrite (calculateDateScore_finite s' t' q' Hd').
    compare_rationals; lra.
Qed.

End DateScore.

(** ** Capacity score *)

Section CapacityScore.
Context {JS : Builtins}.

(** [parseFloat(field) || 0] is 0 for a field that does not parse. *)
Lemma or0_NaN (v : jsval) : parseFloat v = NaN -> or0 (parseFloat v) = Fin 0.
Proof. intros ->. reflexivity. Qed.

Lemma or0_zero (x : jsnum) :
  is_zero (or0 x) = true <-> x = NaN \/ exists q, x = Fin q /\ q == 0.
Proof.
  destruct x as [| |q|]; simpl.
  - split; [now left | reflexivity].
  - split; [discriminate | intros [H|[q [H _]]]; discriminate].
  - destruct (Qeq_bool q 0) eqn:Hq; simpl.
    + split; [|reflexivity]. intros _. right. exists q.
      split; [reflexivity | now apply Qeq_bool_iff].
    + rewrite Hq. split; [discriminate|].
      intros [H|[q' [[= <-] H]]]; [discriminate|].
      apply Qeq_bool_iff in H. congruence.
  - split; [discriminate | intros [H|[q [H _]]]; discriminate].
Qed.

Lemma calculateCapacityScore_range (s : shipment) (t : trip) :
  0 <= calculateCapacityScore s t <= 1.
Proof.
  unfold calculateCapacityScore.
  repeat match goal with
  | |- context [if ?b then _ else _] => destruct b
  end; lra.
Qed.

(** C3, as amended.  A trip whose capacity is 0, or is missing or not a
    number and therefore coerced to 0, has capacity score 0 whatever the
    shipment weighs. *)
Theorem calculateCapacityScore_zero_capacity (s : shipment) (t : trip) :
  parseFloat (capacity t) = NaN \/
  (exists q, parseFloat (capacity t) = Fin q /\ q == 0) ->
  calculateCapacityScore s t = 0.
Proof.
  intros H. apply or0_zero in H.
  unfold calculateCapacityScore. now rewrite H.
Qed.

End CapacityScore.

Lemma calculateCapacityScore_zero_capacity_witness :
  @parseFloat Reference.builtins (capacity Sample.ride_without_capacity) = NaN /\
  @calculateCapacityScore Reference.builtins Sample.cargo Sample.ride_without_capacity = 0.
Proof.
  split; [reflexivity|].
  apply (@calculateCapacityScore_zero_capacity Reference.builtins).
  left. reflexivity.
Defined.

(** C3, as the specification states it.  A capacity below zero is not treated as
    zero: 800 kg against a capacity of -1000 has utilisation -0.8, which
    falls through every band to the last line, and scores 0.4. *)
Lemma calculateCapacityScore_negative_capacity_counterexample :
  @parseFloat Reference.builtins (capacity Sample.ride_negative_capacity) = Fin (-1000) /\
  -1000 <= 0 /\
  @calculateCapacityScore Reference.builtins Sample.cargo Sample.ride_negative_capacity = 0.4 /\
  ~ 0.4 == 0.
Proof.
  repeat split; try reflexivity; try (intros H; discriminate H).
Qed.

(** ** Vehicle score and composite score *)

(** The vehicle types of the data model, and a missing one, are plain. *)
Lemma data_model_types_plain (vehicle : option string) :
  In vehicle [None; Some "van"; Some "pickup"; Some "truck"; Some "any"] ->
  plain_type vehicle.
Proof.
  unfold plain_type.
  intros [<-|[<-|[<-|[<-|[<-|[]]]]]]; vm_compute; discriminate.
Qed.

Section CompositeScore.
Context {JS : Builtins}.

Lemma locationSimilarity_range (loc1 loc2 : option string) :
  0 <= locationSimilarity loc1 loc2 <= 1.
Proof.
  unfold locationSimilarity.
  repeat match goal with
  | |- context [if ?b then _ else _] => destruct b
  end; lra.
Qed.

Lemma calculateLocationScore_range (s : shipment) (t : trip) :
  0 <= calculateLocationScore s t <= 1.
Proof.
  unfold calculateLocationScore.
  pose proof (locationSimilarity_range (pickup_location s) (origin t)).
  pose proof (locationSimilarity_range (delivery_location s) (destination t)).
  unfold Qdiv. change (/ 2) with (1 # 2). lra.
Qed.

(** The vehicle score, when there is one, is 1.0, 0.7 or 0.3. *)
Lemma calculateVehicleScore_values (s : shipment) (t : trip) (V : Q) :
  calculateVehicleScore s t = Return V -> V = 1.0 \/ V = 0.7 \/ V = 0.3.
Proof.
  unfold calculateVehicleScore.
  destruct (_ || _); [intros [= <-]; auto|].
  destruct (String.eqb _ _); [intros [= <-]; auto|].
  destruct (similar_includes _ _) as [[|]|e]; [intros [= <-]; auto ..|discriminate].
Qed.

(** It raises only when the shipment's type names an inherited member. *)
Lemma calculateVehicleScore_returns (s : shipment) (t : trip) :
  plain_type (vehicle_type_preferred s) ->
  exists V, calculateVehicleScore s t = Return V.
Proof.
  unfold plain_type, calculateVehicleScore, similar_includes. intros Hplain.
  destruct (_ || _); [eauto|].
  destruct (String.eqb _ _); [eauto|].
  destruct (similarTypes _) as [similar| |]; [|congruence|eauto].
  destruct (existsb _ similar); eauto.
Qed.

Lemma calculateMatchScore_unfold (s : shipment) (t : trip) (V : Q) :
  calculateVehicleScore s t = Return V ->
  calculateMatchScore s t =
  Return (Qmin 100 (Qmax 0 (0 + calculateLocationScore s t * 40
                              + calculateCapacityScore s t * 30
                              + calculateDateScore s t * 20
                              + V * 10))).
Proof.
  intros H. unfold calculateMatchScore. now rewrite H.
Qed.

Lemma clamp_inside (x : Q) : 0 <= x <= 100 -> Qmin 100 (Qmax 0 x) == x.
Proof.
  intros [H0 H100].
  rewrite (Q.max_r 0 x) by exact H0. now rewrite (Q.min_r 100 x).
Qed.

(** C2.  For a shipment whose preferred vehicle type is a plain type (the
    types of the data model are, see [data_model_types_plain]) and any
    trip, the four sub-scores L, C, D, V all lie in [0, 1] and
    [calculateMatchScore] returns [40 L + 30 C + 20 D + 10 V] clamped to
    [0, 100]; the clamp changes nothing, and the composite score lies in
    [0, 100]. *)
Theorem calculateMatchScore_formula (s : shipment) (t : trip) :
  plain_type (vehicle_type_preferred s) ->
  exists V composite,
    calculateVehicleScore s t = Return V /\
    calculateMatchScore s t = Return composite /\
    let L := calculateLocationScore s t in
    let C := calculateCapacityScore s t in
    let D := calculateDateScore s t in
    0 <= L <= 1 /\ 0 <= C <= 1 /\ 0 <= D <= 1 /\ 0 <= V <= 1 /\
    composite == Qmin 100 (Qmax 0 (40 * L + 30 * C + 20 * D + 10 * V)) /\
    composite == 40 * L + 30 * C + 20 * D + 10 * V /\
    0 <= composite <= 100.
Proof.
  intros Hplain.
  destruct (calculateVehicleScore_returns s t Hplain) as [V HV].
  exists V. eexists. split; [exact HV|].
  split; [exact (calculateMatchScore_unfold s t V HV)|].
  pose proof (calculateLocationScore_range s t) as HL.
  pose proof (calculateCapacityScore_range s t) as HC.
  pose proof (calculateDateScore_range s t) as HD.
  assert (0 <= V <= 1) as HVr
    by (destruct (calculateVehicleScore_values s t V HV) as [->|[->| ->]]; lra).
  cbv zeta.
  set (L := calculateLocationScore s t) in *.
  set (C := calculateCapacityScore s t) in *.
  set (D := calculateDateScore s t) in *.
  assert (0 + L * 40 + C * 30 + D * 20 + V * 10 == 40 * L + 30 * C + 20 * D + 10 * V)
    as Hsum by ring.
  assert (0 <= 40 * L + 30 * C + 20 * D + 10 * V <= 100) as Hrange by lra.
  repeat split; try tauto.
  - now rewrite Hsum.
  - rewrite Hsum. now apply clamp_inside.
  - rewrite Hsum, clamp_inside by exact Hrange. tauto.
  - rewrite Hsum, clamp_inside by exact Hrange. tauto.
Qed.

(** The composite score is never 0, nor anywhere near: the vehicle score
    alone contributes 3 points or more.  The guard [matchScore > 0] in
    [findMatchingTrips] therefore lets every scored trip through. *)
Lemma calculateMatchScore_positive (s : shipment) (t : trip) (composite : Q) :
  calculateMatchScore s t = Return composite -> 3 <= composite.
Proof.
  unfold calculateMatchScore.
  destruct (calculateVehicleScore s t) as [V|e] eqn:HV; [|discriminate].
  intros [= <-].
  pose proof (calculateLocationScore_range s t) as HL.
  pose proof (calculateCapacityScore_range s t) as HC.
  pose proof (calculateDateScore_range s t) as HD.
  assert (0.3 <= V <= 1) as HVr
    by (destruct (calculateVehicleScore_values s t V HV) as [->|[->| ->]]; lra).
  rewrite clamp_inside; lra.
Qed.

Lemma calculateMatchScore_returns (s : shipment) (t : trip) :
  plain_type (vehicle_type_preferred s) ->
  exists composite, calculateMatchScore s t = Return composite.
Proof.
  intros Hplain. destruct (calculateVehicleScore_returns s t Hplain) as [V HV].
  eexists. exact (calculateMatchScore_unfold s t V HV).
Qed.

End CompositeScore.

Lemma calculateMatchScore_formula_witness :
  plain_type (vehicle_type_preferred Sample.cargo) /\
  exists V composite,
    calculateVehicleScore Sample.cargo Sample.ride = Return V /\
    @calculateMatchScore Reference.builtins Sample.cargo Sample.ride = Return composite /\
    composite == 100.
Proof.
  assert (plain_type (vehicle_type_preferred Sample.cargo)) as Hplain
    by (unfold plain_type; vm_compute; discriminate).
  split; [exact Hplain|].
  destruct (@calculateMatchScore_formula Reference.builtins Sample.cargo Sample.ride Hplain)
    as [V [composite [HV [Hscore _]]]].
  exists V, composite. repeat split; try assumption.
  vm_compute in Hscore. injection Hscore as <-. reflexivity.
Defined.

(** C10, at the input where it fails.  A shipment that asks for the
    vehicle type "constructor" against a van: the lookup
    [similarTypes["constructor"]] yields the inherited [Object] function,
    the optional chain does not stop, and calling its missing [includes]
    raises.  This holds under every implementation of the built-ins. *)
Theorem calculateMatchScore_raises {JS : Builtins} :
  calculateVehicleScore Sample.odd_cargo Sample.van_ride = Throw not_a_function /\
  calculateMatchScore Sample.odd_cargo Sample.van_ride = Throw not_a_function.
Proof. split; reflexivity. Qed.

(** ** Sorting *)

Section Sorting.

Lemma by_score_moves (x y : match_result) :
  Qltb 0 (by_score x y) = true <-> score x < score y.
Proof. unfold by_score. rewrite Qltb_lt. split; intros H; lra. Qed.

Lemma by_score_stays (x y : match_result) :
  Qltb 0 (by_score x y) = false <-> score y <= score x.
Proof. unfold by_score. rewrite Qltb_false. split; intros H; lra. Qed.

Lemma sort_insert_Permutation (x : match_result) (l : list match_result) :
  Permutation (sort_insert by_score x l) (x :: l).
Proof.
  induction l as [|y l IH]; simpl; [reflexivity|].
  destruct (Qltb 0 (by_score x y)); [|reflexivity].
  rewrite IH. apply perm_swap.
Qed.

Lemma sort_Permutation (l : list match_result) :
  Permutation (sort by_score l) l.
Proof.
  induction l as [|x l IH]; simpl; [reflexivity|].
  rewrite sort_insert_Permutation. now apply perm_skip.
Qed.

Lemma sort_insert_Descending (x : match_result) (l : list match_result) :
  Descending l -> Descending (sort_insert by_score x l).
Proof.
  unfold Descending. induction l as [|y l IH]; intros Hl; simpl.
  - constructor; constructor.
  - inversion Hl as [|? ? Htail Hhead]; subst.
    destruct (Qltb 0 (by_score x y)) eqn:Hcmp.
    + apply by_score_moves in Hcmp. constructor; [now apply IH|].
      rewrite Forall_forall. intros z Hz.
      apply (Permutation_in _ (sort_insert_Permutation x l)) in Hz.
      destruct Hz as [<-|Hz]; [lra|].
      rewrite Forall_forall in Hhead. auto.
    + apply by_score_stays in Hcmp. constructor; [exact Hl|].
      constructor; [exact Hcmp|].
      rewrite Forall_forall in *. intros z Hz. specialize (Hhead z Hz). lra.
Qed.

Lemma sort_Descending (l : list match_result) : Descending (sort by_score l).
Proof.
  induction l as [|x l IH]; simpl.
  - constructor.
  - now apply sort_insert_Descending.
Qed.

(** Inserting moves [x] past results of a strictly higher score only, so
    the results of any one score keep their order. *)
Lemma sort_insert_stable (v : Q) (x : match_result) (l : list match_result) :
  filter (has_score v) (sort_insert by_score x l) = filter (has_score v) (x :: l).
Proof.
  induction l as [|y l IH]; [reflexivity|].
  simpl sort_insert. destruct (Qltb 0 (by_score x y)) eqn:Hcmp; [|reflexivity].
  apply by_score_moves in Hcmp.
  simpl filter in *. rewrite IH. unfold has_score.
  destruct (Qeq_bool (score x) v) eqn:Hx; [|reflexivity].
  destruct (Qeq_bool (score y) v) eqn:Hy; [|reflexivity].
  apply Qeq_bool_iff in Hx, Hy. lra.
Qed.

Lemma sort_stable (v : Q) (l : list match_result) :
  filter (has_score v) (sort by_score l) = filter (has_score v) l.
Proof.
  induction l as [|x l IH]; [reflexivity|].
  simpl sort. rewrite sort_insert_stable. simpl. now rewrite IH.
Qed.

Lemma Subsequence_refl {A : Type} (l : list A) : Subsequence l l.
Proof. induction l; constructor; assumption. Qed.

Lemma Subsequence_nil {A : Type} (l : list A) : Subsequence [] l.
Proof. induction l; constructor; assumption. Qed.

Lemma Subsequence_filter {A B : Type} (f : A -> B) (p : A -> bool) (l : list A) :
  Subsequence (map f (filter p l)) (map f l).
Proof.
  induction l as [|x l IH]; simpl; [constructor|].
  destruct (p x); simpl; constructor; assumption.
Qed.

End Sorting.

(** ** The ranked search *)

Section Search.
Context {JS : Builtins}.

(** One run of [findMatchingTrips], step by step: the request goes out
    once; a refusal of the store, or an exception of the scorer, ends in
    the [catch] block, which logs it and returns the empty list. *)
Lemma findMatchingTrips_run (s : shipment) (w : world) :
  findMatchingTrips s w =
  let today := split_T_0 (now w) in
  let w1 := with_request (SelectActiveTrips today) w in
  match trips_active today (store w) with
  | Error e => (Return [], with_console search_failed e w1)
  | Data fetched =>
      match score_trips s fetched [] with
      | Return matches => (Return (sort by_score matches), w1)
      | Throw e => (Return [], with_console search_failed e w1)
      end
  end.
Proof.
  unfold findMatchingTrips, try_catch, bind, select_active_trips, toISOString_now,
    send, answer, lift, ret, throw, console_error, bind.
  simpl. destruct (trips_active _ (store w)) as [fetched|e]; [|reflexivity].
  destruct (score_trips s fetched []); reflexivity.
Qed.

Lemma trips_active_candidates (w : world) :
  failure (store w) Trips = None ->
  trips_active (split_T_0 (now w)) (store w) = Data (candidates w).
Proof. intros H. unfold trips_active. now rewrite H. Qed.

Lemma trips_active_data (w : world) (fetched : list trip) :
  trips_active (split_T_0 (now w)) (store w) = Data fetched ->
  fetched = candidates w.
Proof.
  unfold trips_active. destruct (failure (store w) Trips); [discriminate|].
  now intros [= <-].
Qed.

(** The loop keeps every trip it scores, in fetch order, with its
    composite score and reasons. *)
Lemma score_trips_spec (s : shipment) (fetched : list trip) :
  forall acc matches,
    score_trips s fetched acc = Return matches ->
    exists new,
      matches = (acc ++ new)%list /\
      map trip_of new = fetched /\
      Forall (fun m => calculateMatchScore s (trip_of m) = Return (score m) /\
                       reasons m = getMatchReasons s (trip_of m)) new.
Proof.
  induction fetched as [|t fetched IH]; intros acc matches; simpl.
  - intros [= <-]. exists []. now rewrite app_nil_r.
  - destruct (calculateMatchScore s t) as [v|e] eqn:Hv; [|discriminate].
    pose proof (calculateMatchScore_positive s t v Hv) as Hpos.
    assert (Qltb 0 v = true) as -> by (apply Qltb_lt; lra).
    intros H. destruct (IH _ _ H) as [new [-> [Hmap Hall]]].
    exists (mkMatch t v (getMatchReasons s t) :: new).
    unfold push. rewrite <- app_assoc. simpl. repeat split.
    + now rewrite Hmap.
    + constructor; [now split | exact Hall].
Qed.

Lemma score_trips_returns (s : shipment) (fetched : list trip) :
  plain_type (vehicle_type_preferred s) ->
  forall acc, exists matches, score_trips s fetched acc = Return matches.
Proof.
  intros Hplain. induction fetched as [|t fetched IH]; intros acc; simpl.
  - eauto.
  - destruct (calculateMatchScore_returns s t Hplain) as [v ->]. apply IH.
Qed.

(** The loop raises only what the scorer raises on one of the trips. *)
Lemma score_trips_Throw (s : shipment) (fetched : list trip) :
  forall acc e,
    score_trips s fetched acc = Throw e ->
    exists t, In t fetched /\ calculateMatchScore s t = Throw e.
Proof.
  induction fetched as [|t fetched IH]; intros acc e; simpl; [discriminate|].
  destruct (calculateMatchScore s t) as [v|e'] eqn:Hv.
  - intros H. destruct (IH _ _ H) as [t' [Hin Ht']]. exists t'. split; [now right|exact Ht'].
  - intros [= <-]. exists t. split; [now left|exact Hv].
Qed.

(** C9.  Whatever the store holds and answers, [findMatchingTrips] returns
    a list ordered by descending composite score, in which the results of
    any one score stand in the order their trips were fetched; with no
    candidate to score the list is empty.  The list ranks the candidates,
    all of them and each once, whenever the store answers and the scorer
    returns on every candidate; otherwise, and only then, the search has
    failed: the list is empty and the failure is on the console. *)
Theorem findMatchingTrips_ranked (s : shipment) (w : world) :
  exists matches w',
    findMatchingTrips s w = (Return matches, w') /\
    Descending matches /\
    (forall m, In m matches -> calculateMatchScore s (trip_of m) = Return (score m)) /\
    (forall v, Subsequence (map trip_of (filter (has_score v) matches)) (candidates w)) /\
    (candidates w = [] -> matches = []) /\
    ((failure (store w) Trips = None /\
      (forall t, In t (candidates w) -> exists v, calculateMatchScore s t = Return v) /\
      Permutation (map trip_of matches) (candidates w) /\
      console w' = console w) \/
     ((failure (store w) Trips <> None \/
       exists t e, In t (candidates w) /\ calculateMatchScore s t = Throw e) /\
      matches = [] /\
      exists e, console w' = push (console w) (search_failed, e))).
Proof.
  rewrite findMatchingTrips_run. cbv zeta.
  assert (forall e (w' : world),
             console w' = push (console w) (search_failed, e) ->
             (failure (store w) Trips <> None \/
              exists t e, In t (candidates w) /\ calculateMatchScore s t = Throw e) ->
             exists matches w'',
             (Return (A := list match_result) [], w') = (Return matches, w'') /\
             Descending matches /\
             (forall m, In m matches ->
                        calculateMatchScore s (trip_of m) = Return (score m)) /\
             (forall v, Subsequence (map trip_of (filter (has_score v) matches))
                                    (candidates w)) /\
             (candidates w = [] -> matches = []) /\
             ((failure (store w) Trips = None /\
               (forall t, In t (candidates w) ->
                          exists v, calculateMatchScore s t = Return v) /\
               Permutation (map trip_of matches) (candidates w) /\
               console w'' = console w) \/
              ((failure (store w) Trips <> None \/
                exists t e, In t (candidates w) /\ calculateMatchScore s t = Throw e) /\
               matches = [] /\
               exists e, console w'' = push (console w) (search_failed, e)))) as Hempty.
  { intros e w' Hlogged Hwhy. exists [], w'. repeat split.
    - constructor.
    - intros m [].
    - intros v. apply Subsequence_nil.
    - right. split; [exact Hwhy|]. split; [reflexivity|]. now exists e. }
  destruct (trips_active _ (store w)) as [fetched|e] eqn:Hfetch.
  2: { apply (Hempty e); [reflexivity|]. left. intros Hup.
       rewrite (trips_active_candidates w Hup) in Hfetch. discriminate. }
  assert (Hup : failure (store w) Trips = None).
  { unfold trips_active in Hfetch. now destruct (failure (store w) Trips). }
  apply trips_active_data in Hfetch. subst fetched.
  destruct (score_trips s (candidates w) []) as [matches|e] eqn:Hscore.
  2: { apply (Hempty e); [reflexivity|]. right.
       destruct (score_trips_Throw _ _ _ _ Hscore) as [t [Hin Ht]]. now exists t, e. }
  destruct (score_trips_spec _ _ _ _ Hscore) as [new [Heq [Hmap Hall]]].
  simpl in Heq. subst new.
  eexists. eexists. split; [reflexivity|].
  split; [apply sort_Descending|].
  split.
  { intros m Hm. apply (Permutation_in _ (sort_Permutation matches)) in Hm.
    rewrite Forall_forall in Hall. now apply Hall. }
  split.
  { intros v. rewrite sort_stable, <- Hmap. apply Subsequence_filter. }
  split.
  { intros Hnone. rewrite Hnone in Hmap.
    apply map_eq_nil in Hmap. now subst matches. }
  left. split; [exact Hup|]. split; [|split; [|reflexivity]].
  - intros t Hin. rewrite <- Hmap in Hin. apply in_map_iff in Hin.
    destruct Hin as [m [<- Hm]]. exists (score m).
    rewrite Forall_forall in Hall. now apply Hall.
  - rewrite <- Hmap. apply Permutation_map, sort_Permutation.
Qed.

(** C1.  When the store answers the query, every eligible trip (status
    active, travel date today or later) is in the list [findMatchingTrips]
    returns, once per row and under its composite score, for a shipment
    whose preferred vehicle type is a plain type (the types of the data
    model are).  No trip is dropped for its score: the guard
    [matchScore > 0] of the loop never fails, since no composite score is
    below 3. *)
Theorem findMatchingTrips_keeps_every_candidate (s : shipment) (w : world) :
  failure (store w) Trips = None ->
  plain_type (vehicle_type_preferred s) ->
  exists matches w',
    findMatchingTrips s w = (Return matches, w') /\
    Permutation (map trip_of matches) (candidates w) /\
    forall t,
      In t (trips (store w)) ->
      status t = "active" ->
      jsge (newDate (travel_date t)) (newDate (JString (split_T_0 (now w)))) = true ->
      exists m, In m matches /\ trip_of m = t /\
                calculateMatchScore s t = Return (score m).
Proof.
  intros Hup Hplain.
  rewrite findMatchingTrips_run. cbv zeta.
  rewrite (trips_active_candidates w Hup).
  destruct (score_trips_returns s (candidates w) Hplain []) as [matches Hscore].
  rewrite Hscore.
  destruct (score_trips_spec _ _ _ _ Hscore) as [new [Heq [Hmap Hall]]].
  simpl in Heq. subst new.
  assert (Permutation (map trip_of (sort by_score matches)) (candidates w)) as Hperm.
  { rewrite <- Hmap. apply Permutation_map, sort_Permutation. }
  eexists. eexists. split; [reflexivity|]. split; [exact Hperm|].
  intros t Hin Hactive Hdate.
  assert (In t (candidates w)) as Hcand.
  { apply filter_In. split; [exact Hin|].
    unfold eligible. rewrite Hactive, Hdate. reflexivity. }
  apply (Permutation_in _ (Permutation_sym Hperm)) in Hcand.
  apply in_map_iff in Hcand. destruct Hcand as [m [<- Hm]].
  exists m. repeat split; [exact Hm|].
  apply (Permutation_in _ (sort_Permutation matches)) in Hm.
  rewrite Forall_forall in Hall. now apply Hall.
Qed.

(** C4, as amended.  When the store refuses the candidate query,
    [findMatchingTrips] logs the error to the console and returns the empty
    list as an ordinary result; the query has been sent once and the store
    is as before. *)
Theorem findMatchingTrips_failure (s : shipment) (w : world) (e : jserror) :
  failure (store w) Trips = Some e ->
  exists w',
    findMatchingTrips s w = (Return [], w') /\
    console w' = push (console w) (search_failed, e) /\
    requests w' = push (requests w) (SelectActiveTrips (split_T_0 (now w))) /\
    store w' = store w.
Proof.
  intros Hdown. rewrite findMatchingTrips_run. cbv zeta.
  unfold trips_active. rewrite Hdown.
  eexists. split; [reflexivity|]. repeat split.
Qed.

End Search.

Lemma findMatchingTrips_keeps_every_candidate_witness :
  failure (store Sample.signed_in) Trips = None /\
  plain_type (vehicle_type_preferred Sample.cargo) /\
  exists matches w',
    @findMatchingTrips Reference.builtins Sample.cargo Sample.signed_in = (Return matches, w') /\
    Permutation (map trip_of matches) [Sample.van_ride; Sample.ride].
Proof.
  assert (failure (store Sample.signed_in) Trips = None) as Hup by reflexivity.
  assert (plain_type (vehicle_type_preferred Sample.cargo)) as Hplain
    by (unfold plain_type; vm_compute; discriminate).
  split; [exact Hup|]. split; [exact Hplain|].
  destruct (@findMatchingTrips_keeps_every_candidate Reference.builtins
              Sample.cargo Sample.signed_in Hup Hplain)
    as [matches [w' [Hrun [Hperm _]]]].
  exists matches, w'. split; [exact Hrun | exact Hperm].
Defined.

Lemma findMatchingTrips_failure_witness :
  failure (store Sample.signed_in_offline) Trips = Some Sample.unavailable /\
  exists w',
    @findMatchingTrips Reference.builtins Sample.cargo Sample.signed_in_offline
    = (Return [], w') /\
    requests w' = [SelectActiveTrips "2024-06-01"].
Proof.
  split; [reflexivity|].
  destruct (@findMatchingTrips_failure Reference.builtins Sample.cargo
              Sample.signed_in_offline Sample.unavailable eq_refl)
    as [w' [Hrun [_ [Hsent _]]]].
  exists w'. split; [exact Hrun | exact Hsent].
Defined.

(** C4, as the specification states it.  With the trips table refused, the search
    does not fail: it returns the empty list, the very result it returns
    when the store answers and holds no trip. *)
Lemma findMatchingTrips_failure_counterexample :
  failure (store Sample.signed_in_offline) Trips = Some Sample.unavailable /\
  fst (@findMatchingTrips Reference.builtins Sample.cargo Sample.signed_in_offline)
  = Return [] /\
  failure (store Sample.signed_out) Trips = None /\
  fst (@findMatchingTrips Reference.builtins Sample.cargo Sample.signed_out)
  = Return [].
Proof. repeat split. Qed.

(** ** The contact initiator *)

Section Contact.

Variables shipmentId tripId text : string.

(** One run of [sendContactRequest], step by step. *)
Lemma sendContactRequest_run (w : world) :
  sendContactRequest shipmentId tripId text w =
  match currentUser w with
  | None =>
      (Return (Failure (message not_logged_in)),
       with_console contact_failed not_logged_in w)
  | Some user =>
      let w1 := with_request (SelectShipper (user_id user)) w in
      match shippers_single (user_id user) (store w) with
      | Error e => (Return (Failure (message e)), with_console contact_failed e w1)
      | Data shipper =>
          let w2 := with_request (SelectTripCarrier tripId) w1 in
          match trips_single tripId (store w) with
          | Error e => (Return (Failure (message e)), with_console contact_failed e w2)
          | Data trip =>
              let row := mkContactRequest (shipper_id shipper) (carrier_id trip)
                                          shipmentId tripId text "pending" (now w) in
              let w3 := with_request (InsertContactRequest row) w2 in
              match failure (store w) ContactRequests with
              | Some e =>
                  (Return (Failure (message e)), with_console contact_failed e w3)
              | None =>
                  (Return (Success JNull),
                   with_store (mkDatabase (trips (store w)) (shippers (store w))
                                          (push (contact_requests (store w)) row)
                                          (failure (store w))) w3)
              end
          end
      end
  end.
Proof.
  unfold sendContactRequest, try_catch, bind, getCurrentUser.
  destruct (currentUser w) as [user|]; [|reflexivity].
  unfold select_shipper, select_trip_carrier, insert_contact_request,
    toISOString_now, bind, send, answer, ret, throw, console_error.
  simpl. destruct (shippers_single _ (store w)) as [shipper|e]; [|reflexivity].
  change (store (with_request (SelectShipper (user_id user)) w)) with (store w).
  destruct (trips_single tripId (store w)) as [trip|e]; [|reflexivity].
  simpl. destruct (failure (store w) ContactRequests); reflexivity.
Qed.



End Contact.



(** ** Further properties of the scorer and the contact initiator *)

(** Whenever [calculateMatchScore] returns, the composite score is at least
    3: the vehicle score is never below 0.3.  The guard [matchScore > 0] of
    [findMatchingTrips] therefore never drops a scored trip. *)
Theorem composite_score_at_least_three {JS : Builtins}
        (s : shipment) (t : trip) (composite : Q) :
  calculateMatchScore s t = Return composite ->
  3 <= composite /\ Qltb 0 composite = true.
Proof.
  intros H. apply calculateMatchScore_positive in H.
  split; [exact H | apply Qltb_lt; lra].
Qed.

Lemma composite_score_at_least_three_witness :
  exists composite,
    @calculateMatchScore Reference.builtins Sample.cargo Sample.van_ride = Return composite /\
    composite == 91 /\
    3 <= composite /\ Qltb 0 composite = true.
Proof.
  destruct (@calculateMatchScore Reference.builtins Sample.cargo Sample.van_ride)
    as [composite|e] eqn:H; [|vm_compute in H; discriminate H].
  exists composite. split; [reflexivity|]. split.
  - vm_compute in H. injection H as <-. reflexivity.
  - exact (@composite_score_at_least_three Reference.builtins _ _ _ H).
Defined.

(** Two different texts of which one contains the other score 0.8, also
    when they name the same gazetteer city, for which the later rule would
    give 0.9. *)
Theorem substring_rule_shadows_same_city {JS : Builtins} (a b : string) :
  a <> "" -> b <> "" ->
  clean a <> clean b ->
  Substring (clean b) (clean a) \/ Substring (clean a) (clean b) ->
  locationSimilarity (Some a) (Some b) = 0.8.
Proof.
  intros Ha Hb Hexact Hsub. symmetry.
  apply Cascade_locationSimilarity. now apply rule_substring.
Qed.

Lemma substring_rule_shadows_same_city_witness :
  @SameFirstCity (@clean Reference.builtins "الرياض")
                 (@clean Reference.builtins "حي العليا، الرياض") /\
  @locationSimilarity Reference.builtins (Some "الرياض") (Some "حي العليا، الرياض") = 0.8.
Proof.
  split.
  - apply same_city_SameFirstCity. vm_compute. reflexivity.
  - apply (@substring_rule_shadows_same_city Reference.builtins).
    + discriminate.
    + discriminate.
    + apply String.eqb_neq. vm_compute. reflexivity.
    + right. apply includes_Substring. vm_compute. reflexivity.
Defined.

Section ContactSuccess.

Variables shipmentId tripId text : string.

(** A signed-in caller whose shipper record resolves, naming a trip the
    store has one row for, against a store that accepts the insert: the
    call succeeds and the store gains one contact request, status pending,
    stamped with the time of the call, that links the shipper, the trip's
    carrier, the shipment and the trip; trips and shippers are untouched. *)
Theorem sendContactRequest_inserts_one (w : world) (u : user) (sh : shipper) (t : trip) :
  currentUser w = Some u ->
  shippers_single (user_id u) (store w) = Data sh ->
  trips_single tripId (store w) = Data t ->
  failure (store w) ContactRequests = None ->
  exists w',
    sendContactRequest shipmentId tripId text w = (Return (Success JNull), w') /\
    contact_requests (store w') =
    push (contact_requests (store w))
         (mkContactRequest (shipper_id sh) (carrier_id t) shipmentId tripId text
                           "pending" (now w)) /\
    trips (store w') = trips (store w) /\
    shippers (store w') = shippers (store w).
Proof.
  intros Hu Hsh Ht Hup. rewrite sendContactRequest_run, Hu. cbv zeta.
  rewrite Hsh, Ht, Hup. eexists. repeat split.
Qed.

End ContactSuccess.

Lemma sendContactRequest_inserts_one_witness :
  exists w',
    sendContactRequest "shipment-1" "trip-1" "hello" Sample.signed_in
    = (Return (Success JNull), w') /\
    contact_requests (store w') =
    [mkContactRequest "shipper-1" "carrier-1" "shipment-1" "trip-1" "hello"
                      "pending" "2024-06-01T09:00:00.000Z"].
Proof.
  destruct (sendContactRequest_inserts_one "shipment-1" "trip-1" "hello"
              Sample.signed_in (mkUser "user-1" "shipper@example.com")
              (mkShipper "shipper-1" "user-1") Sample.ride
              eq_refl eq_refl eq_refl eq_refl)
    as [w' [Hrun [Hrows _]]].
  exists w'. split; [exact Hrun | exact Hrows].
Defined.

(** Only candidates are returned: every result is a row of the trips table
    with status active and a travel date of today or later, and carries
    that trip's composite score and reasons. *)
Theorem findMatchingTrips_only_candidates {JS : Builtins}
        (s : shipment) (w w' : world) (matches : list match_result) :
  findMatchingTrips s w = (Return matches, w') ->
  forall m, In m matches ->
    In (trip_of m) (trips (store w)) /\
    status (trip_of m) = "active" /\
    jsge (newDate (travel_date (trip_of m)))
         (newDate (JString (split_T_0 (now w)))) = true /\
    calculateMatchScore s (trip_of m) = Return (score m) /\
    reasons m = getMatchReasons s (trip_of m).
Proof.
  rewrite findMatchingTrips_run. cbv zeta.
  destruct (trips_active _ (store w)) as [fetched|e] eqn:Hfetch;
    [|intros [= <- _] m []].
  apply trips_active_data in Hfetch. subst fetched.
  destruct (score_trips s (candidates w) []) as [unsorted|e] eqn:Hscore;
    [|intros [= <- _] m []].
  destruct (score_trips_spec _ _ _ _ Hscore) as [new [Heq [Hmap Hall]]].
  simpl in Heq. subst new.
  intros [= <- _] m Hm.
  apply (Permutation_in _ (sort_Permutation unsorted)) in Hm.
  assert (In (trip_of m) (candidates w)) as Hcand
    by (rewrite <- Hmap; now apply in_map).
  apply filter_In in Hcand. destruct Hcand as [Hrow Heligible].
  apply andb_true_iff in Heligible. destruct Heligible as [Hactive Hdate].
  apply String.eqb_eq in Hactive.
  rewrite Forall_forall in Hall. destruct (Hall m Hm) as [Hcomposite Hreasons].
  repeat split; assumption.
Qed.

Lemma findMatchingTrips_only_candidates_witness :
  exists matches w',
    @findMatchingTrips Reference.builtins Sample.cargo Sample.signed_in
    = (Return matches, w') /\
    map (fun m => trip_id (trip_of m)) matches = ["trip-1"; "trip-4"] /\
    forall m, In m matches -> status (trip_of m) = "active".
Proof.
  destruct (@findMatchingTrips Reference.builtins Sample.cargo Sample.signed_in)
    as [[matches|e] w'] eqn:Hrun; [|vm_compute in Hrun; discriminate Hrun].
  exists matches, w'. split; [reflexivity|]. split.
  - vm_compute in Hrun. injection Hrun as <- _. reflexivity.
  - intros m Hm.
    exact (proj1 (proj2 (@findMatchingTrips_only_candidates Reference.builtins
                           _ _ _ _ Hrun m Hm))).
Defined.

(** ** The scenarios of the specification *)

(** The exact fit scores 100. *)
Example scenario_exact_fit :
  exists composite,
    @calculateMatchScore Reference.builtins Sample.cargo Sample.ride = Return composite /\
    composite == 100.
Proof. eexists. split; [vm_compute; reflexivity | reflexivity]. Qed.

(** With room for 100 kg only, utilisation is 8, the capacity score is 0
    and the composite score is 70. *)
Example scenario_too_small :
  let small :=
    mkTrip "trip-5" "carrier-1" (Some "الرياض") (Some "جدة") (JNumber (Fin 100))
           (JString "2024-06-10") (Some "truck") "active" in
  @calculateCapacityScore Reference.builtins Sample.cargo small = 0 /\
  exists composite,
    @calculateMatchScore Reference.builtins Sample.cargo small = Return composite /\
    composite == 70.
Proof.
  split; [reflexivity|]. eexists. split; [vm_compute; reflexivity | reflexivity].
Qed.

(** A trip that is not active is no candidate, whatever it would score. *)
Example scenario_inactive :
  let parked :=
    mkTrip "trip-6" "carrier-1" (Some "الرياض") (Some "جدة") (JNumber (Fin 1000))
           (JString "2024-06-10") (Some "truck") "inactive" in
  @eligible Reference.builtins "2024-06-01" parked = false /\
  @eligible Reference.builtins "2024-06-01" Sample.ride = true.
Proof. split; reflexivity. Qed.

(** Two days apart is reported as such. *)
Example scenario_reasons :
  @getMatchReasons Reference.builtins Sample.cargo Sample.van_ride =
  ["موقع الاستلام متطابق"; "موقع التسليم متطابق"; "السعة مناسبة تماماً";
   "فارق 2 أيام فقط"].
Proof. vm_compute. reflexivity. Qed.

(** Two trips of equal score come back in the order they were fetched, the
    better one before both. *)
Example scenario_ties :
  let twin := mkTrip "trip-7" "carrier-3" (Some "الرياض") (Some "جدة")
                     (JNumber (Fin 1000)) (JString "2024-06-12") (Some "van") "active" in
  let w := mkWorld "2024-06-01T09:00:00.000Z" None
                   (mkDatabase [twin; Sample.van_ride; Sample.ride] [] [] (fun _ => None))
                   [] [] in
  exists matches w',
    @findMatchingTrips Reference.builtins Sample.cargo w = (Return matches, w') /\
    map (fun m => trip_id (trip_of m)) matches = ["trip-1"; "trip-7"; "trip-4"].
Proof.
  cbv zeta. eexists. eexists. split; [vm_compute; reflexivity | reflexivity].
Qed.

(** * More of the matcher *)

(** ** Location similarity at its ends *)

Section SimilarityEnds.
Context {JS : Builtins}.

(** The similarity is 0 exactly when a location is missing or empty, 1
    exactly when both are there and their cleaned texts are equal, and at
    least 0.2 whenever both are there. *)
Theorem locationSimilarity_ends (loc1 loc2 : option string) :
  (locationSimilarity loc1 loc2 == 0 <-> Missing loc1 \/ Missing loc2) /\
  (locationSimilarity loc1 loc2 == 1 <->
   exists a b, loc1 = Some a /\ loc2 = Some b /\ a <> "" /\ b <> "" /\
               clean a = clean b) /\
  (~ (Missing loc1 \/ Missing loc2) -> 0.2 <= locationSimilarity loc1 loc2).
Proof.
  pose proof (locationSimilarity_Cascade loc1 loc2) as H.
  inversion H as [? ? Hm | a b Ha Hb He | a b Ha Hb He Hs | a b Ha Hb He Hs Hc
                 | a b Ha Hb He Hs Hc Hr | a b Ha Hb He Hs Hc Hr]; subst.
  - repeat split; try (intros; assumption || reflexivity || tauto).
    + intros Hq. discriminate Hq.
    + intros [a [b [-> [-> [Ha [Hb _]]]]]].
      destruct Hm as [[H1|H1]|[H1|H1]]; congruence.
  - repeat split; try (intros Hq; discriminate Hq); try (intros; lra).
    + intros [[H1|H1]|[H1|H1]]; congruence.
    + intros _. exists a, b. auto.
  - repeat split; try (intros Hq; discriminate Hq); try (intros; lra).
    + intros [[H1|H1]|[H1|H1]]; congruence.
    + intros [a' [b' [[= <-] [[= <-] [_ [_ Heq]]]]]]. contradiction.
  - repeat split; try (intros Hq; discriminate Hq); try (intros; lra).
    + intros [[H1|H1]|[H1|H1]]; congruence.
    + intros [a' [b' [[= <-] [[= <-] [_ [_ Heq]]]]]]. contradiction.
  - repeat split; try (intros Hq; discriminate Hq); try (intros; lra).
    + intros [[H1|H1]|[H1|H1]]; congruence.
    + intros [a' [b' [[= <-] [[= <-] [_ [_ Heq]]]]]]. contradiction.
  - repeat split; try (intros Hq; discriminate Hq); try (intros; lra).
    + intros [[H1|H1]|[H1|H1]]; congruence.
    + intros [a' [b' [[= <-] [[= <-] [_ [_ Heq]]]]]]. contradiction.
Qed.

End SimilarityEnds.

(** ** Vehicle compatibility *)

Lemma similarTypes_Inherited (key : string) :
  similarTypes key = Inherited <-> In key Object_prototype.
Proof.
  unfold similarTypes.
  destruct (String.eqb key "pickup") eqn:H1;
    [apply String.eqb_eq in H1; subst; split; [discriminate|];
     simpl; intros H; repeat destruct H as [H|H]; try discriminate H; contradiction|].
  destruct (String.eqb key "van") eqn:H2;
    [apply String.eqb_eq in H2; subst; split; [discriminate|];
     simpl; intros H; repeat destruct H as [H|H]; try discriminate H; contradiction|].
  destruct (String.eqb key "truck") eqn:H3;
    [apply String.eqb_eq in H3; subst; split; [discriminate|];
     simpl; intros H; repeat destruct H as [H|H]; try discriminate H; contradiction|].
  destruct (existsb (String.eqb key) Object_prototype) eqn:H4.
  - split; [intros _|reflexivity].
    apply existsb_exists in H4. destruct H4 as [k [Hin Hk]].
    apply String.eqb_eq in Hk. now subst.
  - split; [discriminate|]. intros Hin. exfalso.
    assert (existsb (String.eqb key) Object_prototype = true) as Ht
      by (apply existsb_exists; exists key; split; [exact Hin | apply String.eqb_refl]).
    congruence.
Qed.

Lemma similarTypes_Own (key : string) (similar : list string) :
  similarTypes key = Own similar <->
  (key = "pickup" /\ similar = ["van"; "truck"]) \/
  (key = "van" /\ similar = ["pickup"; "truck"]) \/
  (key = "truck" /\ similar = ["van"; "pickup"]).
Proof.
  unfold similarTypes.
  destruct (String.eqb key "pickup") eqn:H1.
  { apply String.eqb_eq in H1. subst. split.
    - intros [= <-]. auto.
    - intros [[_ ->]|[[H _]|[H _]]]; [reflexivity | discriminate H | discriminate H]. }
  destruct (String.eqb key "van") eqn:H2.
  { apply String.eqb_eq in H2. subst. split.
    - intros [= <-]. auto.
    - intros [[H _]|[[_ ->]|[H _]]]; [discriminate H | reflexivity | discriminate H]. }
  destruct (String.eqb key "truck") eqn:H3.
  { apply String.eqb_eq in H3. subst. split.
    - intros [= <-]. auto.
    - intros [[H _]|[[H _]|[_ ->]]]; [discriminate H | discriminate H | reflexivity]. }
  apply String.eqb_neq in H1, H2, H3.
  destruct (existsb _ _); (split; [discriminate|]);
    intros [[H _]|[[H _]|[H _]]]; contradiction.
Qed.

Lemma trio_Own (key : string) :
  In key ["pickup"; "van"; "truck"] <-> exists similar, similarTypes key = Own similar.
Proof.
  split.
  - simpl. intros [<-|[<-|[<-|[]]]]; eexists; reflexivity.
  - intros [similar H]. apply similarTypes_Own in H. simpl.
    destruct H as [[-> _]|[[-> _]|[-> _]]]; tauto.
Qed.

Lemma similar_includes_true (shipmentType vehicleType : string) :
  similar_includes shipmentType vehicleType = Return true <->
  shipmentType <> vehicleType /\
  In shipmentType ["pickup"; "van"; "truck"] /\
  In vehicleType ["pickup"; "van"; "truck"].
Proof.
  unfold similar_includes.
  destruct (similarTypes shipmentType) as [similar| |] eqn:Hsim.
  - apply similarTypes_Own in Hsim.
    destruct Hsim as [[-> ->]|[[-> ->]|[-> ->]]]; simpl;
      (split;
       [ intros [= H]; apply orb_true_iff in H; destruct H as [H|H];
         [| apply orb_true_iff in H; destruct H as [H|H]; [|discriminate H]];
         apply String.eqb_eq in H; subst;
         (split; [discriminate | split; tauto])
       | intros [Hne [_ [<-|[<-|[<-|[]]]]]]; try reflexivity; contradiction ]).
  - split; [discriminate|]. intros [_ [Hin _]].
    apply trio_Own in Hin. destruct Hin as [similar H]. congruence.
  - split; [discriminate|]. intros [_ [Hin _]].
    apply trio_Own in Hin. destruct Hin as [similar H]. congruence.
Qed.

Lemma similar_includes_false (shipmentType vehicleType : string) :
  similar_includes shipmentType vehicleType = Return false <->
  ~ In shipmentType Object_prototype /\
  ~ (shipmentType <> vehicleType /\
     In shipmentType ["pickup"; "van"; "truck"] /\
     In vehicleType ["pickup"; "van"; "truck"]).
Proof.
  rewrite <- similar_includes_true, <- similarTypes_Inherited.
  unfold similar_includes.
  destruct (similarTypes shipmentType) as [similar| |].
  - destruct (existsb _ similar).
    + split; [discriminate|]. intros [_ H]. exfalso. now apply H.
    + split; [|reflexivity]. intros _. split; discriminate.
  - split; [discriminate|]. intros [H _]. exfalso. now apply H.
  - split; [|reflexivity]. intros _. split; discriminate.
Qed.

Lemma trio_not_inherited (key : string) :
  In key ["pickup"; "van"; "truck"] -> ~ In key Object_prototype.
Proof.
  intros Hin Hproto. apply trio_Own in Hin. destruct Hin as [similar Hown].
  apply similarTypes_Inherited in Hproto. congruence.
Qed.

Lemma any_not_in_trio (key : string) :
  key = "any" -> ~ In key ["pickup"; "van"; "truck"].
Proof.
  intros -> Hin. apply trio_Own in Hin. destruct Hin as [similar Hown].
  discriminate Hown.
Qed.

Section VehicleScore.
Context {JS : Builtins}.

(** On rows of the data model's types, where a location or a vehicle type
    is text or missing, the scorer raises exactly when both vehicle types
    are given and are not "any", they differ, and the shipment's type is
    the name of a member of [Object.prototype].  The trip's type is only
    ever compared, so no trip type alone can make it raise. *)
Theorem calculateMatchScore_raises_iff (s : shipment) (t : trip) :
  (exists e, calculateMatchScore s t = Throw e) <->
  (or_else (vehicle_type_preferred s) "any" <> "any" /\
   or_else (vehicle_type t) "any" <> "any" /\
   or_else (vehicle_type_preferred s) "any" <> or_else (vehicle_type t) "any" /\
   In (or_else (vehicle_type_preferred s) "any") Object_prototype).
Proof.
  unfold calculateMatchScore, calculateVehicleScore, similar_includes.
  set (st := or_else (vehicle_type_preferred s) "any").
  set (vt := or_else (vehicle_type t) "any").
  rewrite <- similarTypes_Inherited.
  destruct (String.eqb st "any") eqn:Hs; simpl.
  { apply String.eqb_eq in Hs. split; [intros [e H]; discriminate H | tauto]. }
  destruct (String.eqb vt "any") eqn:Hv; simpl.
  { apply String.eqb_eq in Hv. split; [intros [e H]; discriminate H | tauto]. }
  destruct (String.eqb st vt) eqn:Hsv.
  { apply String.eqb_eq in Hsv. split; [intros [e H]; discriminate H | tauto]. }
  apply String.eqb_neq in Hs, Hv, Hsv.
  destruct (similarTypes st) as [similar| |].
  - destruct (existsb _ similar);
      (split; [intros [e H]; discriminate H | intros [_ [_ [_ H]]]; discriminate H]).
  - split; [tauto | eauto].
  - split; [intros [e H]; discriminate H | intros [_ [_ [_ H]]]; discriminate H].
Qed.

(** What [calculateVehicleScore] does, by the four kinds of pair. *)
Lemma calculateVehicleScore_cases (s : shipment) (t : trip) :
  let st := or_else (vehicle_type_preferred s) "any" in
  let vt := or_else (vehicle_type t) "any" in
  let trio := ["pickup"; "van"; "truck"] in
  ((st = "any" \/ vt = "any" \/ st = vt) /\
   calculateVehicleScore s t = Return 1.0) \/
  ((st <> "any" /\ vt <> "any" /\ st <> vt) /\
   ((In st trio /\ In vt trio /\ calculateVehicleScore s t = Return 0.7) \/
    (~ In st Object_prototype /\ ~ (In st trio /\ In vt trio) /\
     calculateVehicleScore s t = Return 0.3) \/
    (In st Object_prototype /\ calculateVehicleScore s t = Throw not_a_function))).
Proof.
  cbv zeta. unfold calculateVehicleScore.
  set (st := or_else (vehicle_type_preferred s) "any").
  set (vt := or_else (vehicle_type t) "any").
  pose proof (similar_includes_true st vt) as Htrue.
  pose proof (similar_includes_false st vt) as Hfalse.
  destruct (String.eqb st "any") eqn:Hs; simpl.
  { apply String.eqb_eq in Hs. left. split; [now left | reflexivity]. }
  destruct (String.eqb vt "any") eqn:Hv; simpl.
  { apply String.eqb_eq in Hv. left. split; [right; now left | reflexivity]. }
  destruct (String.eqb st vt) eqn:Hsv.
  { apply String.eqb_eq in Hsv. left. split; [right; now right | reflexivity]. }
  apply String.eqb_neq in Hs, Hv, Hsv.
  right. split; [now repeat split|].
  destruct (similar_includes st vt) as [[|]|e] eqn:Hinc.
  - left. destruct (proj1 Htrue eq_refl) as [_ [H1 H2]]. now repeat split.
  - right. left. destruct (proj1 Hfalse eq_refl) as [H1 H2].
    split; [exact H1|]. split; [|reflexivity]. intros [H3 H4]. apply H2. now repeat split.
  - right. right. unfold similar_includes in Hinc.
    destruct (similarTypes st) as [similar| |] eqn:Hsim; try discriminate Hinc.
    injection Hinc as <-. split; [|reflexivity]. now apply similarTypes_Inherited.
Qed.

(** The values of the vehicle score: 1.0 when either side takes any
    vehicle or both name the same type; 0.7 when they name two different
    types out of pickup, van and truck; 0.3 for every other pair it can
    score. *)
Theorem calculateVehicleScore_table (s : shipment) (t : trip) :
  let shipmentType := or_else (vehicle_type_preferred s) "any" in
  let vehicleType := or_else (vehicle_type t) "any" in
  let trio := ["pickup"; "van"; "truck"] in
  (calculateVehicleScore s t = Return 1.0 <->
   shipmentType = "any" \/ vehicleType = "any" \/ shipmentType = vehicleType) /\
  (calculateVehicleScore s t = Return 0.7 <->
   shipmentType <> vehicleType /\ In shipmentType trio /\ In vehicleType trio) /\
  (calculateVehicleScore s t = Return 0.3 <->
   shipmentType <> "any" /\ vehicleType <> "any" /\ shipmentType <> vehicleType /\
   ~ In shipmentType Object_prototype /\
   ~ (In shipmentType trio /\ In vehicleType trio)).
Proof.
  cbv zeta.
  pose proof (calculateVehicleScore_cases s t) as Hcases. cbv zeta in Hcases.
  set (st := or_else (vehicle_type_preferred s) "any") in *.
  set (vt := or_else (vehicle_type t) "any") in *.
  pose proof (any_not_in_trio st) as Hany1.
  pose proof (any_not_in_trio vt) as Hany2.
  pose proof (trio_not_inherited st) as Hdisjoint.
  set (T1 := In st ["pickup"; "van"; "truck"]) in *.
  set (T2 := In vt ["pickup"; "van"; "truck"]) in *.
  set (P := In st Object_prototype) in *.
  clearbody T1 T2 P.
  destruct Hcases as [[Hkind Hv] | [Hkind [[H1 [H2 Hv]] | [[H1 [H2 Hv]] | [H1 Hv]]]]];
    rewrite Hv; clear Hv;
    (split; [|split]);
    (split; [intros Heq; try discriminate Heq; tauto | intros Hcond; try reflexivity; exfalso; tauto]).
Qed.

End VehicleScore.

(** ** Reasons and sub-scores *)

Lemma In_if_one (b : bool) (x y : string) :
  In x (if b then [y] else []) <-> b = true /\ y = x.
Proof.
  destruct b; simpl.
  - split; [intros [H|[]]; now split | intros [_ H]; now left].
  - split; [intros [] | intros [H _]; discriminate H].
Qed.

Lemma In_if_two (b c : bool) (x y z : string) :
  In x (if b then [y] else if c then [z] else []) <->
  (b = true /\ y = x) \/ (b = false /\ c = true /\ z = x).
Proof.
  destruct b.
  - rewrite (In_if_one true). split; [now left|].
    intros [H|[H _]]; [exact H | discriminate H].
  - rewrite (In_if_one c). split.
    + intros [H1 H2]. right. now repeat split.
    + intros [[H _]|[_ H]]; [discriminate H | exact H].
Qed.

(** Dividing by a zero capacity gives [NaN] or an infinity, which lies
    in no utilisation band. *)
Lemma zero_capacity_in_no_band (kg room : jsnum) (low high : Q) :
  is_zero room = true ->
  jsge (jsdiv kg room) (Fin low) && jsle (jsdiv kg room) (Fin high) = false.
Proof.
  destruct room as [| |q|]; try discriminate. simpl. intros Hq.
  destruct kg as [| |a|]; simpl; try reflexivity.
  - destruct (Qle_bool 0 q); reflexivity.
  - rewrite Hq. destruct (Qeq_bool a 0); [reflexivity|].
    destruct (Qltb 0 a); reflexivity.
  - destruct (Qle_bool 0 q); reflexivity.
Qed.

Lemma jsle_trans_Fin (x : jsnum) (a b : Q) :
  a <= b -> jsle x (Fin a) = true -> jsle x (Fin b) = true.
Proof.
  intros Hab. destruct x as [| |q|]; simpl; try congruence.
  rewrite !Qle_bool_iff. intros H. lra.
Qed.

Lemma not_In_if_one (b : bool) (x y : string) :
  y <> x -> ~ In x (if b then [y] else []).
Proof. rewrite In_if_one. tauto. Qed.

Lemma not_In_if_two (b c : bool) (x y z : string) :
  y <> x -> z <> x -> ~ In x (if b then [y] else if c then [z] else []).
Proof. rewrite In_if_two. tauto. Qed.

Lemma In_five (x : string) (p1 p2 p3 p4 p5 : list string) :
  In x (p1 ++ p2 ++ p3 ++ p4 ++ p5)%list <->
  In x p1 \/ In x p2 \/ In x p3 \/ In x p4 \/ In x p5.
Proof. now rewrite !in_app_iff. Qed.

(** Settles [value = literal <-> conditions] once the value and the
    conditions are known. *)
Ltac settle_band :=
  split; intros H;
  match type of H with
  | _ /\ _ =>
      first [ reflexivity
            | let H1 := fresh in let H2 := fresh in
              destruct H as [H1 H2]; first [discriminate H1 | discriminate H2] ]
  | _ \/ _ =>
      let H1 := fresh in
      destruct H as [H1|H1]; first [discriminate H1 | now split]
  | _ => first [ discriminate H | reflexivity | now split | exact H ]
  end.

(** Closes [~ In x group] for a group of reasons none of which is [x]. *)
Ltac other_reason :=
  first [ apply not_In_if_one; simpl; discriminate
        | apply not_In_if_two; simpl; discriminate ].

Section Reasons.
Context {JS : Builtins}.

(** The reasons, as the five groups the source appends in turn. *)
Lemma getMatchReasons_parts (s : shipment) (t : trip) :
  let utilization := jsdiv (or0 (parseFloat (weight s))) (or0 (parseFloat (capacity t))) in
  let shipmentType := or_else (vehicle_type_preferred s) "any" in
  let vehicleType := or_else (vehicle_type t) "any" in
  getMatchReasons s t =
  ((if Qle_bool 0.8 (locationSimilarity (pickup_location s) (origin t))
    then ["موقع الاستلام متطابق"] else []) ++
   (if Qle_bool 0.8 (locationSimilarity (delivery_location s) (destination t))
    then ["موقع التسليم متطابق"] else []) ++
   (if jsge utilization (Fin 0.7) && jsle utilization (Fin 0.9)
    then ["السعة مناسبة تماماً"]
    else if jsge utilization (Fin 0.5) && jsle utilization (Fin 1.0)
    then ["السعة مناسبة"] else []) ++
   (if is_zero (diffDays s t) then ["التاريخ متطابق تماماً"]
    else if jsle (diffDays s t) (Fin 3)
    then [String.append "فارق "
            (String.append (numberToString (diffDays s t)) " أيام فقط")]
    else []) ++
   (if negb (String.eqb shipmentType "any") && negb (String.eqb vehicleType "any")
       && String.eqb shipmentType vehicleType
    then ["نوع المركبة متطابق"] else []))%list.
Proof.
  cbv zeta. unfold getMatchReasons, push.
  set (u := jsdiv (or0 (parseFloat (weight s))) (or0 (parseFloat (capacity t)))).
  set (st := or_else (vehicle_type_preferred s) "any").
  set (vt := or_else (vehicle_type t) "any").
  destruct (Qle_bool 0.8 (locationSimilarity (pickup_location s) (origin t)));
  destruct (Qle_bool 0.8 (locationSimilarity (delivery_location s) (destination t)));
  destruct (jsge u (Fin 0.7) && jsle u (Fin 0.9));
  destruct (jsge u (Fin 0.5) && jsle u (Fin 1.0));
  destruct (is_zero (diffDays s t));
  destruct (jsle (diffDays s t) (Fin 3));
  destruct (negb (String.eqb st "any") && negb (String.eqb vt "any") && String.eqb st vt);
  reflexivity.
Qed.

Lemma getMatchReasons_length (s : shipment) (t : trip) :
  (List.length (getMatchReasons s t) <= 5)%nat.
Proof.
  rewrite getMatchReasons_parts. cbv zeta.
  set (u := jsdiv (or0 (parseFloat (weight s))) (or0 (parseFloat (capacity t)))).
  set (st := or_else (vehicle_type_preferred s) "any").
  set (vt := or_else (vehicle_type t) "any").
  destruct (Qle_bool 0.8 (locationSimilarity (pickup_location s) (origin t)));
  destruct (Qle_bool 0.8 (locationSimilarity (delivery_location s) (destination t)));
  destruct (jsge u (Fin 0.7) && jsle u (Fin 0.9));
  destruct (jsge u (Fin 0.5) && jsle u (Fin 1.0));
  destruct (is_zero (diffDays s t));
  destruct (jsle (diffDays s t) (Fin 3));
  destruct (negb (String.eqb st "any") && negb (String.eqb vt "any") && String.eqb st vt);
  simpl; lia.
Qed.

Lemma calculateCapacityScore_by_band (s : shipment) (t : trip) :
  let utilization := jsdiv (or0 (parseFloat (weight s))) (or0 (parseFloat (capacity t))) in
  let ideal := jsge utilization (Fin 0.7) && jsle utilization (Fin 0.9) in
  let good := jsge utilization (Fin 0.5) && jsle utilization (Fin 1.0) in
  (calculateCapacityScore s t = 1.0 <-> ideal = true) /\
  (calculateCapacityScore s t = 0.8 <-> ideal = false /\ good = true).
Proof.
  cbv zeta. unfold calculateCapacityScore.
  set (kg := or0 (parseFloat (weight s))).
  set (room := or0 (parseFloat (capacity t))).
  destruct (is_zero room) eqn:Hzero.
  - rewrite !(zero_capacity_in_no_band kg room _ _ Hzero). split; settle_band.
  - destruct (jsge (jsdiv kg room) (Fin 0.7) && jsle (jsdiv kg room) (Fin 0.9));
      [split; settle_band|].
    destruct (jsge (jsdiv kg room) (Fin 0.5) && jsle (jsdiv kg room) (Fin 1.0));
      [split; settle_band|].
    destruct (jsge (jsdiv kg room) (Fin 0.3) && jsle (jsdiv kg room) (Fin 1.2));
      [split; settle_band|].
    destruct (jsgt (jsdiv kg room) (Fin 1.2)); split; settle_band.
Qed.

Lemma calculateDateScore_by_band (s : shipment) (t : trip) :
  (calculateDateScore s t = 1.0 <-> is_zero (diffDays s t) = true) /\
  (calculateDateScore s t = 0.9 \/ calculateDateScore s t = 0.7 <->
   is_zero (diffDays s t) = false /\ jsle (diffDays s t) (Fin 3) = true).
Proof.
  unfold calculateDateScore.
  destruct (is_zero (diffDays s t)); [split; settle_band|].
  destruct (jsle (diffDays s t) (Fin 1)) eqn:H1.
  { rewrite (jsle_trans_Fin (diffDays s t) 1 3) by (lra || exact H1).
    split; [settle_band|]. split; [now split | now left]. }
  destruct (jsle (diffDays s t) (Fin 3)).
  { split; [settle_band|]. split; [now split | now right]. }
  destruct (jsle (diffDays s t) (Fin 7)); [split; settle_band|].
  destruct (jsle (diffDays s t) (Fin 14)); split; settle_band.
Qed.

(** The reasons say what the sub-scores say.  A location reason is given
    exactly for a similarity of 0.8 or more; the two capacity reasons
    exactly for capacity scores 1.0 and 0.8; the same-day reason exactly
    for date score 1.0 and the days-apart reason exactly for 0.9 or 0.7;
    the vehicle reason exactly when both sides name the same type other
    than "any".  There are never more than five reasons. *)
Theorem getMatchReasons_agree (s : shipment) (t : trip) :
  let given := getMatchReasons s t in
  let shipmentType := or_else (vehicle_type_preferred s) "any" in
  let vehicleType := or_else (vehicle_type t) "any" in
  (In "موقع الاستلام متطابق" given <->
   0.8 <= locationSimilarity (pickup_location s) (origin t)) /\
  (In "موقع التسليم متطابق" given <->
   0.8 <= locationSimilarity (delivery_location s) (destination t)) /\
  (In "السعة مناسبة تماماً" given <-> calculateCapacityScore s t = 1.0) /\
  (In "السعة مناسبة" given <-> calculateCapacityScore s t = 0.8) /\
  (In "التاريخ متطابق تماماً" given <-> calculateDateScore s t = 1.0) /\
  (In (String.append "فارق "
         (String.append (numberToString (diffDays s t)) " أيام فقط")) given <->
   calculateDateScore s t = 0.9 \/ calculateDateScore s t = 0.7) /\
  (In "نوع المركبة متطابق" given <->
   shipmentType <> "any" /\ shipmentType = vehicleType) /\
  (List.length given <= 5)%nat.
Proof.
  cbv zeta.
  destruct (calculateCapacityScore_by_band s t) as [Hideal Hgood]. cbv zeta in Hideal, Hgood.
  destruct (calculateDateScore_by_band s t) as [Hsame Hnear].
  pose proof (getMatchReasons_length s t) as Hlength.
  rewrite getMatchReasons_parts in *. cbv zeta.
  set (u := jsdiv (or0 (parseFloat (weight s))) (or0 (parseFloat (capacity t)))) in *.
  set (st := or_else (vehicle_type_preferred s) "any") in *.
  set (vt := or_else (vehicle_type t) "any") in *.
  assert (negb (String.eqb st "any") && negb (String.eqb vt "any") && String.eqb st vt = true
          <-> st <> "any" /\ st = vt) as Hvehicle.
  { rewrite !andb_true_iff, !negb_true_iff, String.eqb_eq, !String.eqb_neq.
    split; [tauto|]. intros [H1 H2]. repeat split; congruence. }
  rewrite Hideal, Hgood, Hsame, Hnear, <- Hvehicle, <- !Qle_bool_iff.
  clear Hideal Hgood Hsame Hnear Hvehicle.
  set (p1 := if Qle_bool 0.8 (locationSimilarity (pickup_location s) (origin t))
             then ["موقع الاستلام متطابق"] else []).
  set (p2 := if Qle_bool 0.8 (locationSimilarity (delivery_location s) (destination t))
             then ["موقع التسليم متطابق"] else []).
  set (p3 := if jsge u (Fin 0.7) && jsle u (Fin 0.9) then ["السعة مناسبة تماماً"]
             else if jsge u (Fin 0.5) && jsle u (Fin 1.0) then ["السعة مناسبة"] else []).
  set (p4 := if is_zero (diffDays s t) then ["التاريخ متطابق تماماً"]
             else if jsle (diffDays s t) (Fin 3)
             then [String.append "فارق "
                     (String.append (numberToString (diffDays s t)) " أيام فقط")]
             else []).
  set (p5 := if negb (String.eqb st "any") && negb (String.eqb vt "any")
                && String.eqb st vt
             then ["نوع المركبة متطابق"] else []).
  rewrite !In_five.
  repeat match goal with |- _ /\ _ => split end; [split .. | exact Hlength].
  - assert (~ In "موقع الاستلام متطابق" p2) by other_reason.
    assert (~ In "موقع الاستلام متطابق" p3) by other_reason.
    assert (~ In "موقع الاستلام متطابق" p4) by other_reason.
    assert (~ In "موقع الاستلام متطابق" p5) by other_reason.
    intros [Hmem|Hmem]; [|tauto]. apply In_if_one in Hmem. tauto.
  - intros Hle. left. apply In_if_one. now split.
  - assert (~ In "موقع التسليم متطابق" p1) by other_reason.
    assert (~ In "موقع التسليم متطابق" p3) by other_reason.
    assert (~ In "موقع التسليم متطابق" p4) by other_reason.
    assert (~ In "موقع التسليم متطابق" p5) by other_reason.
    intros [Hmem|[Hmem|Hmem]]; [tauto| |tauto]. apply In_if_one in Hmem. tauto.
  - intros Hle. right. left. apply In_if_one. now split.
  - assert (~ In "السعة مناسبة تماماً" p1) by other_reason.
    assert (~ In "السعة مناسبة تماماً" p2) by other_reason.
    assert (~ In "السعة مناسبة تماماً" p4) by other_reason.
    assert (~ In "السعة مناسبة تماماً" p5) by other_reason.
    intros [Hmem|[Hmem|[Hmem|Hmem]]]; [tauto|tauto| |tauto].
    apply In_if_two in Hmem. destruct Hmem as [[Hmem _]|[_ [_ Hmem]]]; [exact Hmem | discriminate Hmem].
  - intros Hb. right. right. left. apply In_if_two. left. now split.
  - assert (~ In "السعة مناسبة" p1) by other_reason.
    assert (~ In "السعة مناسبة" p2) by other_reason.
    assert (~ In "السعة مناسبة" p4) by other_reason.
    assert (~ In "السعة مناسبة" p5) by other_reason.
    intros [Hmem|[Hmem|[Hmem|Hmem]]]; [tauto|tauto| |tauto].
    apply In_if_two in Hmem. destruct Hmem as [[_ Hmem]|[Hmem [Hgood _]]]; [discriminate Hmem | now split].
  - intros [Hb Hc]. right. right. left. apply In_if_two. right. now repeat split.
  - assert (~ In "التاريخ متطابق تماماً" p1) by other_reason.
    assert (~ In "التاريخ متطابق تماماً" p2) by other_reason.
    assert (~ In "التاريخ متطابق تماماً" p3) by other_reason.
    assert (~ In "التاريخ متطابق تماماً" p5) by other_reason.
    intros [Hmem|[Hmem|[Hmem|[Hmem|Hmem]]]]; [tauto|tauto|tauto| |tauto].
    apply In_if_two in Hmem. destruct Hmem as [[Hmem _]|[_ [_ Hmem]]]; [exact Hmem|].
    simpl in Hmem. discriminate Hmem.
  - intros Hb. right. right. right. left. apply In_if_two. left. now split.
  - set (apart := String.append "فارق "
                    (String.append (numberToString (diffDays s t)) " أيام فقط")) in *.
    assert (~ In apart p1) by (apply not_In_if_one; subst apart; simpl; discriminate).
    assert (~ In apart p2) by (apply not_In_if_one; subst apart; simpl; discriminate).
    assert (~ In apart p3) by (apply not_In_if_two; subst apart; simpl; discriminate).
    assert (~ In apart p5) by (apply not_In_if_one; subst apart; simpl; discriminate).
    intros [Hmem|[Hmem|[Hmem|[Hmem|Hmem]]]]; [tauto|tauto|tauto| |tauto].
    apply In_if_two in Hmem. destruct Hmem as [[_ Hmem]|[Hmem [Hgood _]]]; [|now split].
    subst apart. simpl in Hmem. discriminate Hmem.
  - intros [Hb Hc]. right. right. right. left. apply In_if_two. right. now repeat split.
  - assert (~ In "نوع المركبة متطابق" p1) by other_reason.
    assert (~ In "نوع المركبة متطابق" p2) by other_reason.
    assert (~ In "نوع المركبة متطابق" p3) by other_reason.
    assert (~ In "نوع المركبة متطابق" p4) by other_reason.
    intros [Hmem|[Hmem|[Hmem|[Hmem|Hmem]]]]; [tauto|tauto|tauto|tauto|].
    apply In_if_one in Hmem. tauto.
  - intros Hb. right. right. right. right. apply In_if_one. now split.
Qed.

End Reasons.

(** ** The top score *)

Section TopScore.
Context {JS : Builtins}.

Lemma locationSimilarity_values (loc1 loc2 : option string) :
  In (locationSimilarity loc1 loc2) [0; 1.0; 0.8; 0.9; 0.6; 0.2].
Proof.
  unfold locationSimilarity.
  repeat match goal with
  | |- context [if ?b then _ else _] => destruct b
  end; simpl; tauto.
Qed.

Lemma calculateCapacityScore_values (s : shipment) (t : trip) :
  In (calculateCapacityScore s t) [0; 1.0; 0.8; 0.6; 0.4].
Proof.
  unfold calculateCapacityScore.
  repeat match goal with
  | |- context [if ?b then _ else _] => destruct b
  end; simpl; tauto.
Qed.

Lemma calculateDateScore_values (s : shipment) (t : trip) :
  In (calculateDateScore s t) [1.0; 0.9; 0.7; 0.5; 0.3; 0].
Proof.
  unfold calculateDateScore.
  repeat match goal with
  | |- context [if ?b then _ else _] => destruct b
  end; simpl; tauto.
Qed.

(** A composite score of 100 is reached exactly when every sub-score is at
    its top: both locations match exactly, the load uses 70 to 90 percent
    of the capacity, the dates are the same, and the vehicle score is
    1.0. *)
Theorem composite_score_100 (s : shipment) (t : trip) (composite : Q) :
  calculateMatchScore s t = Return composite ->
  (composite == 100 <->
   locationSimilarity (pickup_location s) (origin t) = 1.0 /\
   locationSimilarity (delivery_location s) (destination t) = 1.0 /\
   calculateCapacityScore s t = 1.0 /\
   calculateDateScore s t = 1.0 /\
   calculateVehicleScore s t = Return 1.0).
Proof.
  unfold calculateMatchScore, calculateLocationScore.
  destruct (calculateVehicleScore s t) as [V|e] eqn:HV; [|discriminate].
  intros [= <-].
  pose proof (locationSimilarity_range (pickup_location s) (origin t)) as Hp.
  pose proof (locationSimilarity_range (delivery_location s) (destination t)) as Hd.
  pose proof (calculateCapacityScore_range s t) as HC.
  pose proof (calculateDateScore_range s t) as HD.
  pose proof (locationSimilarity_values (pickup_location s) (origin t)) as Hpv.
  pose proof (locationSimilarity_values (delivery_location s) (destination t)) as Hdv.
  pose proof (calculateCapacityScore_values s t) as HCv.
  pose proof (calculateDateScore_values s t) as HDv.
  pose proof (calculateVehicleScore_values s t V HV) as HVv.
  set (p := locationSimilarity (pickup_location s) (origin t)) in *.
  set (d := locationSimilarity (delivery_location s) (destination t)) in *.
  set (C := calculateCapacityScore s t) in *.
  set (D := calculateDateScore s t) in *.
  assert (0.3 <= V <= 1) as HVr by (destruct HVv as [->|[->| ->]]; lra).
  assert (Qmin 100 (Qmax 0 (0 + (p + d) / 2 * 40 + C * 30 + D * 20 + V * 10))
          == 20 * p + 20 * d + 30 * C + 20 * D + 10 * V) as Hsum.
  { rewrite clamp_inside; [field|]. unfold Qdiv. change (/ 2) with (1 # 2). lra. }
  rewrite Hsum. clearbody p d C D. clear Hsum HV. split.
  - intros Htop.
    assert (p == 1) as Hp1 by lra. assert (d == 1) as Hd1 by lra.
    assert (C == 1) as HC1 by lra. assert (D == 1) as HD1 by lra.
    assert (V == 1) as HV1 by lra.
    repeat split.
    + simpl in Hpv. repeat destruct Hpv as [Hpv|Hpv]; subst; try reflexivity;
        try contradiction; exfalso; lra.
    + simpl in Hdv. repeat destruct Hdv as [Hdv|Hdv]; subst; try reflexivity;
        try contradiction; exfalso; lra.
    + simpl in HCv. repeat destruct HCv as [HCv|HCv]; subst; try reflexivity;
        try contradiction; exfalso; lra.
    + simpl in HDv. repeat destruct HDv as [HDv|HDv]; subst; try reflexivity;
        try contradiction; exfalso; lra.
    + destruct HVv as [->|[->| ->]]; try reflexivity; exfalso; lra.
  - intros [-> [-> [-> [-> [= ->]]]]]. reflexivity.
Qed.

End TopScore.

Lemma composite_score_100_witness :
  exists composite,
    @calculateMatchScore Reference.builtins Sample.cargo Sample.ride = Return composite /\
    composite == 100 /\
    @calculateCapacityScore Reference.builtins Sample.cargo Sample.ride = 1.0.
Proof.
  destruct (@calculateMatchScore Reference.builtins Sample.cargo Sample.ride)
    as [composite|e] eqn:Hrun; [|vm_compute in Hrun; discriminate Hrun].
  exists composite. split; [reflexivity|].
  assert (composite == 100) as Htop
    by (vm_compute in Hrun; injection Hrun as <-; reflexivity).
  split; [exact Htop|].
  exact (proj1 (proj2 (proj2 (proj1 (@composite_score_100 Reference.builtins
                                       _ _ _ Hrun) Htop)))).
Defined.

(** ** What a search and a contact request leave behind *)

Section SearchFrame.
Context {JS : Builtins}.

(** The world after a search: one more request, and one more line on the
    console exactly when the search ended in its [catch] block. *)
Lemma findMatchingTrips_world (s : shipment) (w : world) :
  exists matches w',
    findMatchingTrips s w = (Return matches, w') /\
    store w' = store w /\ currentUser w' = currentUser w /\ now w' = now w /\
    requests w' = push (requests w) (SelectActiveTrips (split_T_0 (now w))) /\
    (console w' = console w \/
     (matches = [] /\ exists e, console w' = push (console w) (search_failed, e))) /\
    (matches <> [] -> failure (store w) Trips = None).
Proof.
  rewrite findMatchingTrips_run. cbv zeta. unfold trips_active.
  destruct (failure (store w) Trips) as [e|].
  - eexists. eexists. split; [reflexivity|]. repeat split.
    + right. split; [reflexivity|]. now exists e.
    + intros H. now contradiction H.
  - destruct (score_trips s _ []) as [matches|e].
    + eexists. eexists. split; [reflexivity|]. repeat split. now left.
    + eexists. eexists. split; [reflexivity|]. repeat split.
      right. split; [reflexivity|]. now exists e.
Qed.

(** A search never raises and only reads: the store, the session and the
    clock are as before; no request leaves but the candidate query, and
    that at most once; and the console has a new line only if the search
    failed and returned the empty list. *)
Theorem findMatchingTrips_frame (s : shipment) (w : world) :
  exists matches w',
    findMatchingTrips s w = (Return matches, w') /\
    store w' = store w /\ currentUser w' = currentUser w /\ now w' = now w /\
    (requests w' = requests w \/
     requests w' = push (requests w) (SelectActiveTrips (split_T_0 (now w)))) /\
    (console w' = console w \/
     (matches = [] /\ exists e, console w' = push (console w) (search_failed, e))).
Proof.
  destruct (findMatchingTrips_world s w) as [matches [w' [H1 [H2 [H3 [H4 [H5 [H6 _]]]]]]]].
  exists matches, w'. repeat split; trivial. now right.
Qed.

Lemma score_trips_raises (s : shipment) (t : trip) (e : jserror) (fetched : list trip) :
  In t fetched -> calculateMatchScore s t = Throw e ->
  forall acc, exists e', score_trips s fetched acc = Throw e'.
Proof.
  intros Hin Hraise. induction fetched as [|t' fetched IH]; [contradiction|].
  intros acc. simpl.
  destruct (calculateMatchScore s t') as [v|e'] eqn:Hv; [|eauto].
  destruct Hin as [->|Hin]; [congruence|]. now apply IH.
Qed.

(** One candidate the scorer raises on empties the whole result: the
    exception leaves the loop, the [catch] block logs it, and the trips
    already scored are not returned. *)
Theorem findMatchingTrips_all_or_nothing
        (s : shipment) (w : world) (t : trip) (e : jserror) :
  failure (store w) Trips = None ->
  In t (candidates w) ->
  calculateMatchScore s t = Throw e ->
  exists e' w',
    findMatchingTrips s w = (Return [], w') /\
    console w' = push (console w) (search_failed, e').
Proof.
  intros Hup Hin Hraise. rewrite findMatchingTrips_run. cbv zeta.
  rewrite (trips_active_candidates w Hup).
  destruct (score_trips_raises s t e (candidates w) Hin Hraise []) as [e' ->].
  exists e'. eexists. split; reflexivity.
Qed.

End SearchFrame.

Lemma findMatchingTrips_all_or_nothing_witness :
  failure (store Sample.signed_in) Trips = None /\
  In Sample.van_ride (@candidates Reference.builtins Sample.signed_in) /\
  @calculateMatchScore Reference.builtins Sample.odd_cargo Sample.van_ride
  = Throw not_a_function /\
  exists e' w',
    @findMatchingTrips Reference.builtins Sample.odd_cargo Sample.signed_in
    = (Return [], w') /\
    console w' = [(search_failed, e')].
Proof.
  assert (In Sample.van_ride (@candidates Reference.builtins Sample.signed_in)) as Hin
    by (vm_compute; tauto).
  split; [reflexivity|]. split; [exact Hin|]. split; [reflexivity|].
  exact (@findMatchingTrips_all_or_nothing Reference.builtins
           Sample.odd_cargo Sample.signed_in Sample.van_ride not_a_function
           eq_refl Hin eq_refl).
Defined.

Section ContactFrame.

Variables shipmentId tripId text : string.

(** A contact request never raises, and it is all or nothing: a failure
    leaves the store as it was and puts the error whose message it returns
    on the console; a success adds one row and logs nothing.  With nobody
    signed in, no request is sent at all. *)
Theorem sendContactRequest_frame (w : world) :
  exists result w',
    sendContactRequest shipmentId tripId text w = (Return result, w') /\
    match result with
    | Failure reason =>
        store w' = store w /\
        exists e, reason = message e /\
                  console w' = push (console w) (contact_failed, e)
    | Success _ =>
        console w' = console w /\
        exists row, contact_requests (store w') = push (contact_requests (store w)) row /\
                    trips (store w') = trips (store w) /\
                    shippers (store w') = shippers (store w)
    end /\
    (currentUser w = None -> requests w' = requests w).
Proof.
  rewrite sendContactRequest_run.
  destruct (currentUser w) as [u|].
  - cbv zeta. destruct (shippers_single (user_id u) (store w)) as [sh|e].
    + destruct (trips_single tripId (store w)) as [t|e].
      * destruct (failure (store w) ContactRequests) as [e|].
        -- eexists. eexists. split; [reflexivity|]. split; [|discriminate].
           split; [reflexivity|]. exists e. now split.
        -- eexists. eexists. split; [reflexivity|]. split; [|discriminate].
           split; [reflexivity|]. eexists. repeat split.
      * eexists. eexists. split; [reflexivity|]. split; [|discriminate].
        split; [reflexivity|]. exists e. now split.
    + eexists. eexists. split; [reflexivity|]. split; [|discriminate].
      split; [reflexivity|]. exists e. now split.
  - eexists. eexists. split; [reflexivity|]. split; [|reflexivity].
    split; [reflexivity|]. exists not_logged_in. now split.
Qed.

(** Nothing deduplicates contact requests.  For a signed-in caller whose
    shipper record resolves, a trip the store has one row for, and a store
    that accepts the insert, a second call with the same arguments, made
    at any later time, succeeds like the first and adds a second row that
    differs in its timestamp only. *)
Theorem sendContactRequest_twice (w : world) (u : user) (sh : shipper) (t : trip)
        (later : string) :
  currentUser w = Some u ->
  shippers_single (user_id u) (store w) = Data sh ->
  trips_single tripId (store w) = Data t ->
  failure (store w) ContactRequests = None ->
  exists w1 w2,
    sendContactRequest shipmentId tripId text w = (Return (Success JNull), w1) /\
    sendContactRequest shipmentId tripId text
      (mkWorld later (currentUser w1) (store w1) (console w1) (requests w1))
    = (Return (Success JNull), w2) /\
    contact_requests (store w2) =
    (contact_requests (store w) ++
     [mkContactRequest (shipper_id sh) (carrier_id t) shipmentId tripId text
                       "pending" (now w);
      mkContactRequest (shipper_id sh) (carrier_id t) shipmentId tripId text
                       "pending" later])%list.
Proof.
  intros Hu Hsh Ht Hup.
  eexists. eexists. split; [|split].
  - rewrite sendContactRequest_run, Hu. cbv zeta. rewrite Hsh, Ht, Hup. reflexivity.
  - rewrite sendContactRequest_run. simpl currentUser. rewrite Hu. cbv zeta.
    simpl store. unfold shippers_single, trips_single in *. simpl.
    rewrite Hsh, Ht, Hup. reflexivity.
  - simpl. unfold push. now rewrite <- app_assoc.
Qed.

End ContactFrame.

Lemma sendContactRequest_twice_witness :
  exists w1 w2,
    sendContactRequest "shipment-1" "trip-1" "hello" Sample.signed_in
    = (Return (Success JNull), w1) /\
    sendContactRequest "shipment-1" "trip-1" "hello"
      (mkWorld "2024-06-01T09:05:00.000Z" (currentUser w1) (store w1) (console w1)
               (requests w1))
    = (Return (Success JNull), w2) /\
    List.length (contact_requests (store w2)) = 2%nat.
Proof.
  destruct (sendContactRequest_twice "shipment-1" "trip-1" "hello"
              Sample.signed_in (mkUser "user-1" "shipper@example.com")
              (mkShipper "shipper-1" "user-1") Sample.ride
              "2024-06-01T09:05:00.000Z" eq_refl eq_refl eq_refl eq_refl)
    as [w1 [w2 [H1 [H2 H3]]]].
  exists w1, w2. split; [exact H1|]. split; [exact H2|]. now rewrite H3.
Defined.

(** ** From a search to a contact request *)

Lemma filter_by_unique_id (rows : list trip) (x : trip) :
  NoDup (map trip_id rows) -> In x rows ->
  filter (fun r => String.eqb (trip_id r) (trip_id x)) rows = [x].
Proof.
  induction rows as [|r rows IH]; [contradiction|].
  simpl. intros Hnodup Hin. inversion Hnodup as [|? ? Hfresh Hrest]; subst.
  assert (forall y, In y rows -> trip_id y <> trip_id r) as Hothers.
  { intros y Hy Heq. apply Hfresh. rewrite <- Heq. now apply in_map. }
  destruct Hin as [->|Hin].
  - rewrite String.eqb_refl. f_equal.
    clear IH Hnodup Hfresh Hrest. induction rows as [|y rows IH]; [reflexivity|].
    simpl. destruct (String.eqb (trip_id y) (trip_id x)) eqn:Hy.
    + apply String.eqb_eq in Hy. exfalso. apply (Hothers y); [now left | exact Hy].
    + apply IH. intros z Hz. apply Hothers. now right.
  - destruct (String.eqb (trip_id r) (trip_id x)) eqn:Hr.
    + apply String.eqb_eq in Hr. exfalso. apply (Hothers x Hin). now symmetry.
    + now apply IH.
Qed.

Section SearchThenContact.
Context {JS : Builtins}.

(** A trip a search returned can be contacted.  Where trip ids are unique
    and the store accepts the insert, a signed-in shipper whose record
    resolves can send a contact request for any returned trip, straight
    after the search: the request succeeds and the new row names that trip
    and its carrier. *)
Theorem found_trip_can_be_contacted
        (s : shipment) (w w1 : world) (matches : list match_result) (m : match_result)
        (u : user) (sh : shipper) (shipmentId text : string) :
  NoDup (map trip_id (trips (store w))) ->
  findMatchingTrips s w = (Return matches, w1) ->
  In m matches ->
  currentUser w = Some u ->
  shippers_single (user_id u) (store w) = Data sh ->
  failure (store w) ContactRequests = None ->
  exists w2,
    sendContactRequest shipmentId (trip_id (trip_of m)) text w1
    = (Return (Success JNull), w2) /\
    contact_requests (store w2) =
    push (contact_requests (store w))
         (mkContactRequest (shipper_id sh) (carrier_id (trip_of m)) shipmentId
                           (trip_id (trip_of m)) text "pending" (now w)).
Proof.
  intros Hunique Hrun Hm Hu Hsh Hup.
  destruct (findMatchingTrips_world s w)
    as [matches' [w' [Hrun' [Hstore [Huser [Hnow [_ [_ Hserved]]]]]]]].
  rewrite Hrun in Hrun'. injection Hrun' as <- <-.
  assert (failure (store w) Trips = None) as Htrips
    by (apply Hserved; intros ->; contradiction).
  assert (In (trip_of m) (trips (store w))) as Hrow.
  { rewrite findMatchingTrips_run in Hrun. cbv zeta in Hrun.
    rewrite (trips_active_candidates w Htrips) in Hrun.
    destruct (score_trips s (candidates w) []) as [unsorted|e] eqn:Hscore;
      [|injection Hrun as <- _; contradiction].
    destruct (score_trips_spec _ _ _ _ Hscore) as [new [Heq [Hmap _]]].
    simpl in Heq. subst new. injection Hrun as <- _.
    apply (Permutation_in _ (sort_Permutation unsorted)) in Hm.
    assert (In (trip_of m) (candidates w)) as Hcand
      by (rewrite <- Hmap; now apply in_map).
    apply filter_In in Hcand. tauto. }
  rewrite sendContactRequest_run, Huser, Hu. cbv zeta. rewrite Hstore, Hsh.
  unfold trips_single. rewrite Htrips, (filter_by_unique_id _ _ Hunique Hrow).
  simpl. rewrite Hup, Hnow. eexists. split; reflexivity.
Qed.

End SearchThenContact.

Lemma found_trip_can_be_contacted_witness :
  exists matches w1 m w2,
    @findMatchingTrips Reference.builtins Sample.cargo Sample.signed_in
    = (Return matches, w1) /\
    In m matches /\ trip_id (trip_of m) = "trip-1" /\
    sendContactRequest "shipment-1" "trip-1" "hello" w1 = (Return (Success JNull), w2) /\
    contact_requests (store w2) =
    [mkContactRequest "shipper-1" "carrier-1" "shipment-1" "trip-1" "hello"
                      "pending" "2024-06-01T09:00:00.000Z"].
Proof.
  destruct (@findMatchingTrips Reference.builtins Sample.cargo Sample.signed_in)
    as [[matches|e] w1] eqn:Hrun; [|vm_compute in Hrun; discriminate Hrun].
  assert (exists m, In m matches /\ trip_of m = Sample.ride) as [m [Hm Htrip]].
  { vm_compute in Hrun. injection Hrun as <- _. eexists. split; [left; reflexivity|].
    reflexivity. }
  assert (NoDup (map trip_id (trips (store Sample.signed_in)))) as Hunique.
  { simpl. constructor; [intros [H|[]]; discriminate H|].
    constructor; [intros []|constructor]. }
  destruct (@found_trip_can_be_contacted Reference.builtins
              Sample.cargo Sample.signed_in w1 matches m
              (mkUser "user-1" "shipper@example.com") (mkShipper "shipper-1" "user-1")
              "shipment-1" "hello" Hunique Hrun Hm eq_refl eq_refl eq_refl)
    as [w2 [Hsend Hrows]].
  rewrite Htrip in Hsend, Hrows.
  exists matches, w1, m, w2. rewrite Htrip. repeat split; assumption.
Defined.

(** * The pages around the matcher: properties *)

(** ** The document tree *)

Lemma find_Element (selects : Dom.attributes -> bool) (a : Dom.attributes)
      (childNodes : list Dom.node) :
  Dom.find selects (Dom.Element a childNodes) =
  if selects a then Some [] else Dom.find_from selects O childNodes.
Proof.
  simpl. destruct (selects a); [reflexivity|].
  generalize O. induction childNodes as [|child rest IH]; intros i; simpl; [reflexivity|].
  destruct (Dom.find selects child); [reflexivity|]. apply IH.
Qed.

Lemma find_from_Some (selects : Dom.attributes -> bool) (nodes : list Dom.node) :
  forall (i : nat) (q : Dom.path),
    Dom.find_from selects i nodes = Some q ->
    exists (k : nat) (q' : Dom.path) (child : Dom.node),
      q = (k + i)%nat :: q' /\ nth_error nodes k = Some child /\
      Dom.find selects child = Some q' /\
      (forall j other, (j < k)%nat -> nth_error nodes j = Some other ->
                       Dom.find selects other = None).
Proof.
  induction nodes as [|child rest IH]; intros i q; simpl; [discriminate|].
  destruct (Dom.find selects child) as [q'|] eqn:Hchild.
  - intros [= <-]. exists O, q', child. repeat split; trivial. intros j other Hj. lia.
  - intros Hrest. destruct (IH _ _ Hrest) as [k [q' [c [-> [Hk [Hc Hbefore]]]]]].
    exists (S k), q', c. repeat split; trivial.
    + f_equal. lia.
    + intros [|j] other Hj; simpl.
      * now intros [= <-].
      * apply Hbefore. lia.
Qed.

Lemma find_from_first (selects : Dom.attributes -> bool) (nodes : list Dom.node) :
  forall (i k : nat) (q' : Dom.path) (child : Dom.node),
    nth_error nodes k = Some child ->
    Dom.find selects child = Some q' ->
    (forall j other, (j < k)%nat -> nth_error nodes j = Some other ->
                     Dom.find selects other = None) ->
    Dom.find_from selects i nodes = Some ((k + i)%nat :: q').
Proof.
  induction nodes as [|c rest IH]; intros i [|k] q' child; simpl; try discriminate.
  - intros [= ->] -> _. reflexivity.
  - intros Hk Hchild Hbefore.
    rewrite (Hbefore O c); [|lia|reflexivity].
    rewrite (IH (S i) k q' child Hk Hchild).
    + f_equal. f_equal. lia.
    + intros j other Hj. apply (Hbefore (S j)). lia.
Qed.

Lemma find_from_None (selects : Dom.attributes -> bool) (nodes : list Dom.node) :
  forall i : nat,
    Dom.find_from selects i nodes = None <->
    (forall child, In child nodes -> Dom.find selects child = None).
Proof.
  induction nodes as [|c rest IH]; intros i; simpl.
  - split; [intros _ child []|reflexivity].
  - destruct (Dom.find selects c) eqn:Hc.
    + split; [discriminate|]. intros H. rewrite (H c) in Hc; [discriminate|now left].
    + rewrite IH. split.
      * intros H child [<-|Hin]; [exact Hc|now apply H].
      * intros H child Hin. apply H. now right.
Qed.

Lemma find_from_content (selects : Dom.attributes -> bool) (i : nat) (text : string) :
  Dom.find_from selects i (Dom.content text) = None.
Proof. unfold Dom.content. now destruct (String.eqb text ""). Qed.

Lemma nth_error_update_nth {A : Type} (f : A -> A) (l : list A) :
  forall i j : nat,
    nth_error (Dom.update_nth i f l) j =
    if Nat.eqb i j then option_map f (nth_error l j) else nth_error l j.
Proof.
  induction l as [|x rest IH]; intros [|i] [|j]; simpl; trivial.
  now destruct (Nat.eqb i j).
Qed.

(** The first element found is an element, and it satisfies the test. *)
Lemma find_sound (selects : Dom.attributes -> bool) (n : Dom.node) :
  forall q : Dom.path,
    Dom.find selects n = Some q ->
    exists a childNodes, Dom.at_path q n = Some (Dom.Element a childNodes) /\
                         selects a = true.
Proof.
  induction n as [data|a childNodes IH] using Dom.node_induction; intros q.
  - discriminate.
  - rewrite find_Element. destruct (selects a) eqn:Ha.
    + intros [= <-]. now exists a, childNodes.
    + intros Hfound.
      destruct (find_from_Some _ _ _ _ Hfound) as [k [q' [child [-> [Hk [Hchild _]]]]]].
      rewrite Nat.add_0_r. simpl. rewrite Hk.
      rewrite Forall_forall in IH. apply IH; [|exact Hchild].
      now apply nth_error_In with k.
Qed.

Lemma at_path_update (change : Dom.node -> Dom.node) :
  forall (q : Dom.path) (n m : Dom.node),
    Dom.at_path q n = Some m ->
    Dom.at_path q (Dom.update q change n) = Some (change m).
Proof.
  induction q as [|i q IH]; intros n m; simpl.
  - now intros [= ->].
  - destruct n as [data|a childNodes]; [discriminate|].
    destruct (nth_error childNodes i) as [child|] eqn:Hi; [|discriminate].
    intros Hm. rewrite nth_error_update_nth, Nat.eqb_refl, Hi. simpl. now apply IH.
Qed.

(** An update that keeps the attributes of the element it is applied to
    leaves the first element found where it was. *)
Lemma find_update (selects : Dom.attributes -> bool) (change : Dom.node -> Dom.node) :
  (forall a childNodes, exists childNodes',
      change (Dom.Element a childNodes) = Dom.Element a childNodes') ->
  forall (n : Dom.node) (q : Dom.path),
    Dom.find selects n = Some q ->
    Dom.find selects (Dom.update q change n) = Some q.
Proof.
  intros Hkeeps.
  induction n as [data|a childNodes IH] using Dom.node_induction; intros q.
  - discriminate.
  - rewrite find_Element. destruct (selects a) eqn:Ha.
    + intros [= <-]. simpl. destruct (Hkeeps a childNodes) as [childNodes' ->].
      now rewrite find_Element, Ha.
    + intros Hfound.
      destruct (find_from_Some _ _ _ _ Hfound) as [k [q' [child [-> [Hk [Hchild Hbefore]]]]]].
      cbn [Dom.update]. rewrite find_Element, Ha.
      apply find_from_first with (child := Dom.update q' change child).
      * rewrite Nat.add_0_r, nth_error_update_nth, Nat.eqb_refl, Hk. reflexivity.
      * rewrite Forall_forall in IH. apply IH; [|exact Hchild].
        now apply nth_error_In with k.
      * intros j other Hj. rewrite Nat.add_0_r, nth_error_update_nth.
        destruct (Nat.eqb k j) eqn:Hkj; [apply Nat.eqb_eq in Hkj; lia|].
        now apply Hbefore.
Qed.

Lemma set_textContent_keeps (text : string) (a : Dom.attributes) (childNodes : list Dom.node) :
  exists childNodes',
    Dom.set_textContent text (Dom.Element a childNodes) = Dom.Element a childNodes'.
Proof. now exists (Dom.content text). Qed.

Lemma classes_at_step (i : nat) (q : Dom.path) (a : Dom.attributes)
      (childNodes : list Dom.node) :
  Session.classes_at (i :: q) (Dom.Element a childNodes) =
  match nth_error childNodes i with
  | Some child => Session.classes_at q child
  | None => None
  end.
Proof. unfold Session.classes_at. simpl. now destruct (nth_error childNodes i). Qed.

Lemma classes_at_Text (q : Dom.path) (data : string) :
  Session.classes_at q (Dom.Text data) = None.
Proof. now destruct q. Qed.

Lemma classes_at_content (q : Dom.path) (i : nat) (a : Dom.attributes) (text : string) :
  Session.classes_at (i :: q) (Dom.Element a (Dom.content text)) = None.
Proof.
  rewrite classes_at_step. unfold Dom.content.
  destruct (String.eqb text ""); destruct i as [|[|i]]; simpl; trivial.
  apply classes_at_Text.
Qed.

(** Giving an element its text changes no class list: an element is still
    in the document with the classes it had, or it has left it. *)
Lemma classes_at_set_textContent (text : string) :
  forall (target q : Dom.path) (n : Dom.node) (classes : list string),
    Session.classes_at q (Dom.update target (Dom.set_textContent text) n) = Some classes ->
    Session.classes_at q n = Some classes.
Proof.
  induction target as [|i target IH]; intros q n classes.
  - destruct n as [data|a childNodes]; simpl.
    + now rewrite classes_at_Text.
    + destruct q as [|j q]; [trivial|]. now rewrite classes_at_content.
  - destruct n as [data|a childNodes]; [trivial|]. cbn [Dom.update].
    destruct q as [|j q]; [trivial|]. rewrite !classes_at_step, nth_error_update_nth.
    destruct (Nat.eqb i j); [|trivial].
    destruct (nth_error childNodes j) as [child|]; simpl; [|trivial]. apply IH.
Qed.

Lemma classes_at_with_classList (change : list string -> list string) :
  forall (q : Dom.path) (n : Dom.node),
    Session.classes_at q (Dom.update q (Dom.with_classList change) n) =
    option_map change (Session.classes_at q n).
Proof.
  induction q as [|i q IH]; intros n.
  - now destruct n.
  - destruct n as [data|a childNodes]; [reflexivity|]. cbn [Dom.update].
    rewrite !classes_at_step, nth_error_update_nth, Nat.eqb_refl.
    destruct (nth_error childNodes i); simpl; [apply IH|reflexivity].
Qed.

Lemma classes_at_elsewhere (change : list string -> list string) :
  forall (target q : Dom.path) (n : Dom.node),
    q <> target ->
    Session.classes_at q (Dom.update target (Dom.with_classList change) n) =
    Session.classes_at q n.
Proof.
  induction target as [|i target IH]; intros q n Hq.
  - destruct q as [|j q]; [congruence|]. now destruct n.
  - destruct n as [data|a childNodes]; [reflexivity|]. cbn [Dom.update].
    destruct q as [|j q]; [reflexivity|]. rewrite !classes_at_step, nth_error_update_nth.
    destruct (Nat.eqb i j) eqn:Hij; [|reflexivity].
    apply Nat.eqb_eq in Hij. subst j.
    destruct (nth_error childNodes i); simpl; [|reflexivity].
    apply IH. congruence.
Qed.

Lemma hidden_add (classes : list string) :
  Session.hidden (Dom.add "hidden" classes) = true.
Proof.
  unfold Session.hidden, Dom.add.
  destruct (existsb (String.eqb "hidden") classes) eqn:H; [exact H|].
  unfold push. rewrite existsb_app. cbn [existsb]. rewrite String.eqb_refl.
  now rewrite orb_true_r.
Qed.

Lemma hidden_remove (classes : list string) :
  Session.hidden (Dom.remove "hidden" classes) = false.
Proof.
  unfold Session.hidden, Dom.remove.
  induction classes as [|c rest IH]; [reflexivity|]. cbn [filter].
  destruct (String.eqb "hidden" c) eqn:Hc; cbn [negb existsb]; [exact IH|].
  now rewrite Hc.
Qed.

Lemma hidden_toggle (classes : list string) :
  Session.hidden (Dom.toggle "hidden" classes) = negb (Session.hidden classes).
Proof.
  unfold Dom.toggle. fold (Session.hidden classes).
  destruct (Session.hidden classes) eqn:H; simpl.
  - apply hidden_remove.
  - unfold Session.hidden, push. rewrite existsb_app. cbn [existsb].
    rewrite String.eqb_refl. now rewrite orb_true_r.
Qed.

(** ** The language switcher *)

Lemma translate_tree_Element (language : string) (a : Dom.attributes)
      (childNodes : list Dom.node) :
  Language.translate_tree language (Dom.Element a childNodes) =
  match Dom.data_ar a, Dom.data_en a with
  | Some arText, Some enText =>
      Dom.Element a (Dom.content (if String.eqb language "ar" then arText else enText))
  | _, _ => Dom.Element a (map (Language.translate_tree language) childNodes)
  end.
Proof. reflexivity. Qed.

Lemma translate_tree_content (language text : string) :
  map (Language.translate_tree language) (Dom.content text) = Dom.content text.
Proof. unfold Dom.content. now destruct (String.eqb text ""). Qed.

(** Translating a translated tree gives what translating the tree gives. *)
Lemma translate_tree_twice (language language' : string) (n : Dom.node) :
  Language.translate_tree language (Language.translate_tree language' n) =
  Language.translate_tree language n.
Proof.
  induction n as [data|a childNodes IH] using Dom.node_induction; [reflexivity|].
  rewrite !translate_tree_Element.
  destruct (Dom.data_ar a) as [arText|] eqn:Har;
    [destruct (Dom.data_en a) as [enText|] eqn:Hen|];
    rewrite translate_tree_Element, Har; try rewrite Hen; try reflexivity;
    f_equal; rewrite map_map; apply map_ext_in; now apply Forall_forall.
Qed.

Lemma find_from_map (selects : Dom.attributes -> bool) (f g : Dom.node -> Dom.node)
      (nodes : list Dom.node) :
  Forall (fun n => Dom.find selects (f n) = Dom.find selects (g n)) nodes ->
  forall i : nat,
    Dom.find_from selects i (map f nodes) = Dom.find_from selects i (map g nodes).
Proof.
  induction 1 as [|child rest Hchild _ IH]; intros i; simpl; [reflexivity|].
  rewrite Hchild. destruct (Dom.find selects (g child)); [reflexivity|apply IH].
Qed.

(** Which element is found first does not depend on the language. *)
Lemma find_translate_tree (selects : Dom.attributes -> bool) (language language' : string)
      (n : Dom.node) :
  Dom.find selects (Language.translate_tree language n) =
  Dom.find selects (Language.translate_tree language' n).
Proof.
  induction n as [data|a childNodes IH] using Dom.node_induction; [reflexivity|].
  rewrite !translate_tree_Element.
  destruct (Dom.data_ar a) as [arText|]; [destruct (Dom.data_en a) as [enText|]|];
    rewrite !find_Element; destruct (selects a); try reflexivity;
    try (now rewrite !find_from_content); now apply find_from_map.
Qed.

Lemma update_nth_twice_map (f g h k : Dom.node -> Dom.node) (nodes : list Dom.node) :
  forall i : nat,
    (forall n, In n nodes -> f (g n) = f n) ->
    (forall n, nth_error nodes i = Some n -> k (f (h (g n))) = k (f n)) ->
    Dom.update_nth i k (map f (Dom.update_nth i h (map g nodes))) =
    Dom.update_nth i k (map f nodes).
Proof.
  induction nodes as [|n rest IH]; intros [|i] Hall Hi; simpl; trivial.
  - f_equal.
    + now apply Hi.
    + rewrite map_map. apply map_ext_in. intros m Hm. apply Hall. now right.
  - f_equal.
    + apply Hall. now left.
    + apply IH; [|exact Hi]. intros m Hm. apply Hall. now right.
Qed.

Section Label.

Variable selects : Dom.attributes -> bool.
Variables language language' label label' : string.

(** After the page was shown in one language and its label was written,
    showing it in another finds the label at the same place, and writing
    the label there gives the page that showing the original one gives. *)
Lemma translate_tree_label (n : Dom.node) :
  forall q : Dom.path,
    Dom.find selects (Language.translate_tree language' n) = Some q ->
    Dom.find selects
      (Language.translate_tree language
         (Dom.update q (Dom.set_textContent label')
                     (Language.translate_tree language' n))) = Some q /\
    Dom.update q (Dom.set_textContent label)
      (Language.translate_tree language
         (Dom.update q (Dom.set_textContent label')
                     (Language.translate_tree language' n))) =
    Dom.update q (Dom.set_textContent label) (Language.translate_tree language n).
Proof.
  induction n as [data|a childNodes IH] using Dom.node_induction; intros q.
  - discriminate.
  - rewrite !translate_tree_Element.
    assert (Hplain :
      Dom.find selects (Dom.Element a (map (Language.translate_tree language') childNodes))
      = Some q ->
      (forall nodes, Language.translate_tree language (Dom.Element a nodes) =
                     Dom.Element a (map (Language.translate_tree language) nodes)) ->
      Dom.find selects
        (Language.translate_tree language
           (Dom.update q (Dom.set_textContent label')
              (Dom.Element a (map (Language.translate_tree language') childNodes)))) = Some q /\
      Dom.update q (Dom.set_textContent label)
        (Language.translate_tree language
           (Dom.update q (Dom.set_textContent label')
              (Dom.Element a (map (Language.translate_tree language') childNodes)))) =
      Dom.update q (Dom.set_textContent label)
        (Dom.Element a (map (Language.translate_tree language) childNodes))).
    { intros Hfound Hstep. rewrite find_Element in Hfound.
      destruct (selects a) eqn:Ha.
      - injection Hfound as <-. cbn [Dom.update Dom.set_textContent].
        rewrite Hstep, translate_tree_content. cbn [Dom.set_textContent].
        split; [|reflexivity]. now rewrite find_Element, Ha.
      - destruct (find_from_Some _ _ _ _ Hfound)
          as [k [q' [shown [-> [Hk [Hshown Hbefore]]]]]].
        rewrite Nat.add_0_r in *. rewrite nth_error_map in Hk.
        destruct (nth_error childNodes k) as [child|] eqn:Hchild; [|discriminate].
        injection Hk as <-.
        rewrite Forall_forall in IH.
        destruct (IH child (nth_error_In _ _ Hchild) q' Hshown) as [Hthere Hsame].
        cbn [Dom.update]. rewrite Hstep. cbn [Dom.update]. split.
        + rewrite find_Element, Ha.
          rewrite <- (Nat.add_0_r k) at 2. eapply find_from_first.
          * rewrite nth_error_map, nth_error_update_nth, Nat.eqb_refl, nth_error_map, Hchild.
            reflexivity.
          * exact Hthere.
          * intros j other Hj. rewrite nth_error_map, nth_error_update_nth.
            destruct (Nat.eqb k j) eqn:Hkj; [apply Nat.eqb_eq in Hkj; lia|].
            rewrite nth_error_map.
            destruct (nth_error childNodes j) as [before|] eqn:Hbefore'; [|discriminate].
            intros [= <-]. rewrite translate_tree_twice.
            rewrite (find_translate_tree selects language language').
            apply (Hbefore j); [exact Hj|]. now rewrite nth_error_map, Hbefore'.
        + f_equal. apply update_nth_twice_map.
          * intros m _. apply translate_tree_twice.
          * intros m Hm. rewrite Hchild in Hm. injection Hm as <-. exact Hsame. }
    destruct (Dom.data_ar a) as [arText|] eqn:Har;
      [destruct (Dom.data_en a) as [enText|] eqn:Hen|].
    + rewrite find_Element. destruct (selects a) eqn:Ha.
      * intros [= <-]. cbn [Dom.update Dom.set_textContent].
        rewrite translate_tree_Element, Har, Hen. cbn [Dom.set_textContent].
        split; [|reflexivity]. now rewrite find_Element, Ha.
      * now rewrite find_from_content.
    + intros Hfound. apply Hplain; trivial.
      intros nodes. now rewrite translate_tree_Element, Har, Hen.
    + intros Hfound. apply Hplain; trivial.
      intros nodes. now rewrite translate_tree_Element, Har.
Qed.

End Label.

Lemma initLanguage_over (language language' : string) (store store' : localStorage)
      (lang dir lang' dir' : string) (root : Dom.node) :
  Language.initLanguage
    (Language.mkPage language store lang dir
       (Language.documentElement
          (Language.initLanguage (Language.mkPage language' store' lang' dir' root)))) =
  Language.initLanguage (Language.mkPage language store lang dir root).
Proof.
  unfold Language.initLanguage, Language.updateTranslations, Dom.getElementById.
  cbn [Language.currentLang Language.storage Language.lang Language.dir
       Language.documentElement].
  destruct (Dom.find (Dom.has_id "currentLang") (Language.translate_tree language' root))
    as [q|] eqn:Hfound; cbn [Language.documentElement].
  - destruct (translate_tree_label (Dom.has_id "currentLang") language language'
                (if String.eqb language "ar" then "EN" else "AR")
                (if String.eqb language' "ar" then "EN" else "AR") root q Hfound)
      as [Hthere Hsame].
    rewrite Hthere, (find_translate_tree _ language language'), Hfound.
    cbn [Language.currentLang Language.storage Language.lang Language.dir
         Language.documentElement].
    now rewrite Hsame.
  - rewrite translate_tree_twice, (find_translate_tree _ language language'), Hfound.
    reflexivity.
Qed.

Lemma initLanguage_currentLang (p : Language.page) :
  Language.currentLang (Language.initLanguage p) = Language.currentLang p /\
  Language.storage (Language.initLanguage p) = Language.storage p /\
  Language.lang (Language.initLanguage p) = Language.currentLang p /\
  Language.dir (Language.initLanguage p) =
  (if String.eqb (Language.currentLang p) "ar" then "rtl" else "ltr").
Proof.
  unfold Language.initLanguage, Language.updateTranslations. cbv zeta.
  cbn [Language.currentLang Language.storage Language.lang Language.dir
       Language.documentElement].
  now destruct (Dom.getElementById "currentLang" _).
Qed.

Lemma initLanguage_overwrites (language : string) (store : localStorage)
      (lang dir lang' dir' : string) (root : Dom.node) :
  Language.initLanguage (Language.mkPage language store lang dir root) =
  Language.initLanguage (Language.mkPage language store lang' dir' root).
Proof. reflexivity. Qed.

(** The label, where the page has one, names the other language. *)
Lemma initLanguage_label (p : Language.page) (q : Dom.path) :
  Dom.getElementById "currentLang" (Language.documentElement (Language.initLanguage p))
  = Some q ->
  exists a,
    Dom.at_path q (Language.documentElement (Language.initLanguage p)) =
    Some (Dom.Element a
            [Dom.Text (if String.eqb (Language.currentLang p) "ar" then "EN" else "AR")]).
Proof.
  unfold Language.initLanguage, Language.updateTranslations, Dom.getElementById.
  cbv zeta.
  cbn [Language.currentLang Language.storage Language.lang Language.dir
       Language.documentElement].
  destruct (Dom.find (Dom.has_id "currentLang")
              (Language.translate_tree (Language.currentLang p) (Language.documentElement p)))
    as [q0|] eqn:Hfound; cbn [Language.documentElement Language.currentLang].
  - rewrite (find_update _ _ (set_textContent_keeps _) _ _ Hfound). intros [= <-].
    destruct (find_sound _ _ _ Hfound) as [a [childNodes [Hat _]]].
    exists a. rewrite (at_path_update _ _ _ _ Hat).
    now destruct (String.eqb (Language.currentLang p) "ar").
  - now rewrite Hfound.
Qed.

Section Toggle.

Import Language.

(** What a click on the language button leaves behind.  The
    language is Arabic or English afterwards, English exactly when it was
    Arabic before; it is what [localStorage] holds, so loading the script
    again starts in it; the document's [lang] is the language and its
    direction is right-to-left exactly for Arabic; the saved user is not
    touched; and the label, where the page has one, holds the code of the
    other language and nothing else. *)
Theorem toggleLanguage_persists (p : page) :
  let p' := toggleLanguage p in
  (currentLang p' = "ar" \/ currentLang p' = "en") /\
  (currentLang p' = "en" <-> currentLang p = "ar") /\
  load (storage p') = currentLang p' /\
  lang p' = currentLang p' /\
  (dir p' = "rtl" <-> currentLang p' = "ar") /\
  (dir p' = "ltr" <-> currentLang p' = "en") /\
  fastship_user (storage p') = fastship_user (storage p) /\
  (forall q, Dom.getElementById "currentLang" (documentElement p') = Some q ->
             exists a, Dom.at_path q (documentElement p') =
                       Some (Dom.Element a [Dom.Text (translate p' "EN" "AR")])).
Proof.
  cbv zeta. unfold toggleLanguage, translate.
  set (next := if String.eqb (currentLang p) "ar" then "en" else "ar").
  set (clicked := mkPage next _ _ _ _).
  destruct (initLanguage_currentLang clicked) as [-> [-> [-> ->]]].
  assert (Hnext : (next = "en" /\ currentLang p = "ar") \/
                  (next = "ar" /\ currentLang p <> "ar")).
  { unfold next. destruct (String.eqb (currentLang p) "ar") eqn:H.
    - left. now apply String.eqb_eq in H.
    - right. now apply String.eqb_neq in H. }
  cbn [currentLang storage clicked fastship_user fastship_lang load or_else].
  repeat match goal with |- _ /\ _ => split end.
  - tauto.
  - destruct Hnext as [[-> H]|[-> H]]; [tauto|]. split; [discriminate|tauto].
  - destruct Hnext as [[-> _]|[-> _]]; reflexivity.
  - reflexivity.
  - destruct Hnext as [[-> _]|[-> _]]; simpl; split; trivial; discriminate.
  - destruct Hnext as [[-> _]|[-> _]]; simpl; split; trivial; discriminate.
  - reflexivity.
  - intros q Hq. apply (initLanguage_label clicked q Hq).
Qed.

(** Two clicks bring the page back.  On a page that was shown in
    Arabic or English, with that language saved, toggling twice gives
    exactly the page there was: language, storage, direction and every
    text of the document. *)
Theorem toggleLanguage_twice (p : page) :
  currentLang p = "ar" \/ currentLang p = "en" ->
  fastship_lang (storage p) = Some (currentLang p) ->
  toggleLanguage (toggleLanguage (initLanguage p)) = initLanguage p.
Proof.
  intros Hlanguage Hsaved. unfold toggleLanguage.
  destruct (initLanguage_currentLang p) as [Hsame [Hstore _]].
  rewrite Hsame, Hstore.
  set (other := if String.eqb (currentLang p) "ar" then "en" else "ar").
  set (once := initLanguage (mkPage other _ _ _ _)).
  destruct (initLanguage_currentLang (mkPage other
              (mkStorage (Some other) (fastship_user (storage p)))
              (lang (initLanguage p)) (dir (initLanguage p))
              (documentElement (initLanguage p)))) as [Hother [Hstore' _]].
  fold once in Hother, Hstore'. cbn [currentLang storage] in Hother, Hstore'.
  rewrite Hother, Hstore'. cbn [fastship_user].
  assert (Hback : (if String.eqb other "ar" then "en" else "ar") = currentLang p).
  { unfold other. destruct Hlanguage as [->| ->]; reflexivity. }
  rewrite Hback. unfold once.
  rewrite initLanguage_over.
  destruct p as [language store la d root]. cbn [currentLang storage] in *.
  rewrite initLanguage_over.
  destruct store as [saved user]. cbn [fastship_lang fastship_user] in *. subst saved.
  apply initLanguage_overwrites.
Qed.

End Toggle.

(** ** The session manager *)

Lemma single_one {A : Type} (rows : list A) (row : A) :
  single rows = Data row <-> rows = [row].
Proof.
  destruct rows as [|first [|second rest]]; simpl; split; try discriminate.
  - now intros [= ->].
  - now intros [= ->].
Qed.

(** Painting the bars changes the document and nothing else. *)
Lemma updateAllNavbars_frame (p : Session.page) :
  Session._updateAllNavbars p =
  Session.with_document (Session.document (Session._updateAllNavbars p)) p.
Proof.
  unfold Session._updateAllNavbars, Session._updateSidebarNavbar, Session._updateNavbar.
  cbv zeta. destruct p as [user client store path links shown lines doc calls].
  cbn [Session.document Session.currentUser].
  destruct (Dom.getElementById "notLoggedInMenu" doc);
    [destruct (Dom.getElementById "loggedInMenu" doc)|]; destruct user;
    cbn [Session.document Session.currentUser Session.with_document];
    repeat match goal with
           | |- context [match ?x with Some _ => _ | None => _ end] => destruct x
           end; reflexivity.
Qed.

Section Profile.

Import Session.

Variable authUser : auth_user.

(** Loading the profile never raises and always leaves the user signed
    in, under the id and e-mail of the session.  The profile is the
    [users] row of that id exactly when the store answers and holds one
    such row, and is [null] otherwise.  A refusal other than "no row" is
    logged.  Without a client the failure is logged and the bars are not
    painted.  Once a profile with a user type is loaded, that type is the
    user's type whatever [localStorage] says. *)
Theorem loadUserProfile_signs_in (p : page) :
  exists found p',
    _loadUserProfile authUser p = (Return tt, p') /\
    currentUser p' = Some (mkAccount (au_id authUser) (au_email authUser) found) /\
    supabaseClient p' = supabaseClient p /\ storage p' = storage p /\
    href p' = href p /\ alerts p' = alerts p /\
    (forall row,
        found = Some row <->
        exists b, supabaseClient p = Some b /\ refuses b SelectUser = None /\
                  filter (fun r => String.eqb (auth_user_id r) (au_id authUser)) (users b)
                  = [row]) /\
    match supabaseClient p with
    | None =>
        console p' = push (console p) ("Error loading user profile:", no_client) /\
        document p' = document p
    | Some b =>
        match refuses b SelectUser with
        | Some e =>
            console p' = if is_PGRST116 e then console p
                         else push (console p) ("Profile load error:", e)
        | None => console p' = console p
        end
    end /\
    (forall row t, found = Some row -> user_type row = Some t -> t <> "" ->
                   getUserType p' = Some t).
Proof.
  unfold _loadUserProfile, try_catch, bind, select_user, query.
  destruct (supabaseClient p) as [b|] eqn:Hclient.
  - destruct (refuses b SelectUser) as [e|] eqn:Hrefuses.
    + destruct (is_PGRST116 e) eqn:Hcode; exists None; eexists;
        (split; [cbn; reflexivity|]); rewrite updateAllNavbars_frame; cbn;
        repeat split; trivial; try discriminate.
      all: intros [b' [[= <-] [Hb _]]]; congruence.
    + destruct (filter (fun r => String.eqb (auth_user_id r) (au_id authUser)) (users b))
        as [|row [|second rest]] eqn:Hrows;
        [exists None|exists (Some row)|exists None]; eexists;
        (split; [cbn; reflexivity|]); rewrite updateAllNavbars_frame; cbn;
        repeat split; trivial; try discriminate.
      * intros [b' [[= <-] [_ Hone]]]. congruence.
      * intros [= <-]. now exists b.
      * intros [b' [[= <-] [_ Hone]]]. congruence.
      * intros found t [= <-] Htype Hfilled. unfold getUserType. cbn.
        rewrite Htype. cbn. apply String.eqb_neq in Hfilled. now rewrite Hfilled.
      * intros [b' [[= <-] [_ Hone]]]. congruence.
  - exists None. eexists. split; [reflexivity|]. cbn. repeat split; trivial; try discriminate.
    intros [b [Hb _]]. discriminate.
Qed.

End Profile.

Section SigningOut.

Import Session.



End SigningOut.

Section Notifications.

Import Session.

Variables title text : string.
Variable relatedId : option string.

(** [createNotification], step by step. *)
Lemma createNotification_run (userId type : string) (p : page) :
  createNotification userId type title text relatedId p =
  match supabaseClient p with
  | None => (Return None, snd (console_error "Error creating notification:" no_supabase p))
  | Some b =>
      match refuses b InsertNotification with
      | Some e => (Return None, snd (console_error "Error creating notification:" e p))
      | None =>
          let n := mkNotification
                     (generated b InsertNotification (List.length (notifications b)))
                     userId type title text relatedId false in
          (Return (Some n),
           with_backend (mkBackend (users b) (shippers b) (carriers b)
                                   (push (notifications b) n)
                                   (refuses b) (generated b) (signOut_rejects b)) p)
      end
  end.
Proof.
  unfold createNotification, try_catch, bind, insert_notification, query.
  destruct (supabaseClient p) as [b|]; [|reflexivity].
  now destruct (refuses b InsertNotification).
Qed.


(** The three shorthands address the signed-in user.  With nobody signed
    in each of them answers [null] and does nothing at all, not even a
    line on the console; otherwise a row they return is for the current
    user, unread, and of the kind the shorthand is named after. *)
Theorem notification_for_current_user (p : page) :
  (currentUser p = None ->
   createSystemNotification title text relatedId p = (Return None, p) /\
   createShipmentNotification title text relatedId p = (Return None, p) /\
   createMessageNotification title text relatedId p = (Return None, p)) /\
  (forall n p',
      createSystemNotification title text relatedId p = (Return (Some n), p') \/
      createShipmentNotification title text relatedId p = (Return (Some n), p') \/
      createMessageNotification title text relatedId p = (Return (Some n), p') ->
      exists u, currentUser p = Some u /\ n_user_id n = id u /\
                n_related_id n = relatedId /\ is_read n = false /\
                n_title n = title /\ n_message n = text /\
                (createSystemNotification title text relatedId p = (Return (Some n), p') ->
                 n_type n = "system") /\
                (createShipmentNotification title text relatedId p = (Return (Some n), p') ->
                 n_type n = "shipment") /\
                (createMessageNotification title text relatedId p = (Return (Some n), p') ->
                 n_type n = "message")).
Proof.
  unfold createSystemNotification, createShipmentNotification, createMessageNotification.
  split.
  - intros ->. now repeat split.
  - intros n p' Hmade. destruct (currentUser p) as [u|]; cbn in Hmade.
    2: { destruct Hmade as [H|[H|H]]; discriminate H. }
    exists u. split; [reflexivity|].
    assert (Hfields : forall type,
               createNotification (id u) type title text relatedId p = (Return (Some n), p') ->
               n_user_id n = id u /\ n_related_id n = relatedId /\ is_read n = false /\
               n_title n = title /\ n_message n = text /\ n_type n = type).
    { intros type. rewrite createNotification_run.
      destruct (supabaseClient p) as [b|]; [|discriminate].
      destruct (refuses b InsertNotification); [discriminate|].
      intros [= <- _]. now repeat split. }
    assert (Hany : n_user_id n = id u /\ n_related_id n = relatedId /\ is_read n = false /\
                   n_title n = title /\ n_message n = text).
    { destruct Hmade as [H|[H|H]]; apply Hfields in H; tauto. }
    destruct Hany as [H1 [H2 [H3 [H4 H5]]]]. repeat split; trivial.
    all: intros H; now apply Hfields in H.
Qed.

End Notifications.

(** ** The bars and the menus *)

Lemma find_classes (selects : Dom.attributes -> bool) (doc : Dom.node) (q : Dom.path) :
  Dom.find selects doc = Some q ->
  exists classes, Session.classes_at q doc = Some classes.
Proof.
  intros Hfound. destruct (find_sound _ _ _ Hfound) as [a [childNodes [Hat _]]].
  exists (Dom.classList a). unfold Session.classes_at. now rewrite Hat.
Qed.

(** Elements found under two different ids sit at two different places. *)
Lemma getElementById_apart (doc : Dom.node) (name name' : string) (q q' : Dom.path) :
  Dom.getElementById name doc = Some q ->
  Dom.getElementById name' doc = Some q' ->
  name <> name' -> q <> q'.
Proof.
  unfold Dom.getElementById. intros Hq Hq' Hnames ->.
  destruct (find_sound _ _ _ Hq) as [a [childNodes [Hat Ha]]].
  destruct (find_sound _ _ _ Hq') as [a' [childNodes' [Hat' Ha']]].
  rewrite Hat in Hat'. injection Hat' as <- _.
  unfold Dom.has_id in Ha, Ha'. destruct (Dom.id a) as [x|]; [|discriminate].
  apply String.eqb_eq in Ha, Ha'. congruence.
Qed.

Lemma textContent_set_classes (element : option Dom.path) (text : string)
      (q : Dom.path) (doc : Dom.node) (classes : list string) :
  Session.classes_at q (Session.textContent_set element text doc) = Some classes ->
  Session.classes_at q doc = Some classes.
Proof.
  destruct element as [target|]; [apply classes_at_set_textContent|trivial].
Qed.

Lemma updateSidebarNavbar_classes (p : Session.page) (q : Dom.path) (classes : list string) :
  Session.classes_at q (Session.document (Session._updateSidebarNavbar p)) = Some classes ->
  Session.classes_at q (Session.document p) = Some classes.
Proof.
  unfold Session._updateSidebarNavbar. cbv zeta.
  destruct (Dom.querySelector_class "user-info" (Session.document p)); [|trivial].
  destruct (Session.currentUser p); [|trivial]. cbn [Session.document Session.with_document].
  intros H. now apply textContent_set_classes, textContent_set_classes in H.
Qed.

Lemma updateSidebarNavbar_signed_out (p : Session.page) :
  Session.currentUser p = None -> Session._updateSidebarNavbar p = p.
Proof.
  unfold Session._updateSidebarNavbar. cbv zeta. intros ->.
  now destruct (Dom.querySelector_class "user-info" (Session.document p)).
Qed.

Section Bars.

Import Session.

Variable p : page.
Variables notLoggedInMenu loggedInMenu : Dom.path.

(** The bars show one menu.  On a page that has both menus, after the bars
    are painted the menu for visitors carries [hidden] exactly when
    somebody is signed in, and the menu for users exactly when nobody is,
    for as long as each is in the document; with nobody signed in both
    are. *)
Theorem updateAllNavbars_menus :
  Dom.getElementById "notLoggedInMenu" (document p) = Some notLoggedInMenu ->
  Dom.getElementById "loggedInMenu" (document p) = Some loggedInMenu ->
  let shown := document (_updateAllNavbars p) in
  (forall classes, classes_at notLoggedInMenu shown = Some classes ->
                   hidden classes = isLoggedIn p) /\
  (forall classes, classes_at loggedInMenu shown = Some classes ->
                   hidden classes = negb (isLoggedIn p)) /\
  (isLoggedIn p = false ->
   (exists classes, classes_at notLoggedInMenu shown = Some classes) /\
   (exists classes, classes_at loggedInMenu shown = Some classes)).
Proof.
  intros Hvisitors Husers. cbv zeta.
  assert (Hapart : notLoggedInMenu <> loggedInMenu).
  { apply (getElementById_apart _ _ _ _ _ Hvisitors Husers). discriminate. }
  destruct (find_classes _ _ _ Hvisitors) as [visitors Hv].
  destruct (find_classes _ _ _ Husers) as [users Hu].
  unfold _updateAllNavbars, isLoggedIn.
  destruct (currentUser p) as [u|] eqn:Huser.
  - split; [|split; [|discriminate]]; intros classes Hclasses;
      apply updateSidebarNavbar_classes in Hclasses;
      unfold _updateNavbar in Hclasses; cbv zeta in Hclasses;
      rewrite Hvisitors, Husers, Huser in Hclasses;
      cbn [document with_document] in Hclasses;
      apply textContent_set_classes, textContent_set_classes in Hclasses.
    + rewrite classes_at_elsewhere, classes_at_with_classList, Hv in Hclasses
        by exact Hapart.
      injection Hclasses as <-. apply hidden_add.
    + rewrite classes_at_with_classList, classes_at_elsewhere, Hu in Hclasses
        by congruence.
      injection Hclasses as <-. apply hidden_remove.
  - rewrite updateSidebarNavbar_signed_out
      by (unfold _updateNavbar; cbv zeta; now rewrite Hvisitors, Husers, Huser).
    unfold _updateNavbar. cbv zeta. rewrite Hvisitors, Husers, Huser.
    cbn [document with_document].
    rewrite (classes_at_elsewhere _ loggedInMenu notLoggedInMenu) by exact Hapart.
    rewrite !classes_at_with_classList, Hv.
    rewrite (classes_at_elsewhere _ notLoggedInMenu loggedInMenu) by congruence.
    rewrite Hu. cbn [option_map negb].
    split; [|split].
    + intros classes [= <-]. apply hidden_remove.
    + intros classes [= <-]. apply hidden_add.
    + intros _. split; eexists; reflexivity.
Qed.

End Bars.

Section Menus.

Import Session.

Variable doc : Dom.node.
Variables accountMenu userMenu : Dom.path.

(** The two menus are never left open together.  On a page that has
    both, a click on either button closes the other menu and opens its own
    exactly if that was closed. *)
Theorem toggle_menus_one_open :
  Dom.getElementById "accountMenu" doc = Some accountMenu ->
  Dom.getElementById "userMenu" doc = Some userMenu ->
  exists account user,
    classes_at accountMenu doc = Some account /\
    classes_at userMenu doc = Some user /\
    (exists account' user',
        classes_at accountMenu (toggleAccountMenu doc) = Some account' /\
        classes_at userMenu (toggleAccountMenu doc) = Some user' /\
        hidden account' = negb (hidden account) /\ hidden user' = true) /\
    (exists account' user',
        classes_at accountMenu (toggleUserMenu doc) = Some account' /\
        classes_at userMenu (toggleUserMenu doc) = Some user' /\
        hidden user' = negb (hidden user) /\ hidden account' = true).
Proof.
  intros Haccount Huser.
  assert (Hapart : accountMenu <> userMenu).
  { apply (getElementById_apart _ _ _ _ _ Haccount Huser). discriminate. }
  destruct (find_classes _ _ _ Haccount) as [account Ha].
  destruct (find_classes _ _ _ Huser) as [user Hu].
  exists account, user. split; [exact Ha|]. split; [exact Hu|].
  unfold toggleAccountMenu, toggleUserMenu. rewrite Haccount, Huser. cbv zeta. split.
  - exists (Dom.toggle "hidden" account), (Dom.add "hidden" user).
    rewrite classes_at_elsewhere, !classes_at_with_classList by exact Hapart.
    rewrite classes_at_elsewhere, Ha, Hu by congruence.
    repeat split; [apply hidden_toggle|apply hidden_add].
  - exists (Dom.add "hidden" account), (Dom.toggle "hidden" user).
    rewrite (classes_at_elsewhere _ accountMenu userMenu) by congruence.
    rewrite !classes_at_with_classList.
    rewrite (classes_at_elsewhere _ userMenu accountMenu) by exact Hapart.
    rewrite Ha, Hu. repeat split; [apply hidden_toggle|apply hidden_add].
Qed.

End Menus.

(** ** The way to the dashboard *)

Section Dashboard.

Import Session.

(** What loading a profile leaves as it was. *)
Lemma loadUserProfile_returns (authUser : auth_user) (p : page) :
  exists found p',
    _loadUserProfile authUser p = (Return tt, p') /\
    currentUser p' = Some (mkAccount (au_id authUser) (au_email authUser) found) /\
    supabaseClient p' = supabaseClient p /\ storage p' = storage p /\
    pathname p' = pathname p /\ href p' = href p /\ alerts p' = alerts p /\
    started p' = started p.
Proof.
  unfold _loadUserProfile, try_catch, bind, select_user, query.
  destruct (supabaseClient p) as [b|] eqn:Hclient.
  - destruct (refuses b SelectUser) as [e|].
    + destruct (is_PGRST116 e); eexists; eexists; (split; [cbn; reflexivity|]);
        rewrite updateAllNavbars_frame; cbn; now repeat split.
    + destruct (filter _ (users b)) as [|row [|second rest]];
        eexists; eexists; (split; [cbn; reflexivity|]);
        rewrite updateAllNavbars_frame; cbn; now repeat split.
  - eexists. eexists. split; [reflexivity|]. cbn. now repeat split.
Qed.

Lemma create_profile_outcome (u : account) (p : page) :
  exists proceed p',
    create_profile u p = (Return proceed, p') /\
    storage p' = storage p /\ pathname p' = pathname p /\ started p' = started p /\
    if proceed : bool then
      href p' = href p /\ alerts p' = alerts p /\
      exists found, currentUser p' = Some (mkAccount (id u) (email u) found)
    else
      href p' = push (href p) (_getAuthPath p "register.html") /\
      (exists shown, alerts p' = push (alerts p) shown) /\
      currentUser p' = currentUser p /\ supabaseClient p' = supabaseClient p /\
      console p' = console p /\ document p' = document p.
Proof.
  unfold create_profile. cbv zeta.
  destruct (match fastship_user (storage p) with
            | Readable user_metadata =>
                (optional user_metadata md_user_type,
                 Some (or_else (optional user_metadata md_full_name) ""),
                 Some (or_else (optional user_metadata md_phone) ""))
            | Unreadable _ => (None, None, None)
            | NoItem => (None, None, None)
            end) as [[userType fullName] phone].
  unfold try_catch, bind, insert_user, query.
  destruct (supabaseClient p) as [b|] eqn:Hclient.
  2: { exists false. eexists. split; [reflexivity|]. cbn. repeat split; trivial.
       now eexists. }
  destruct (refuses b InsertUser) as [e|] eqn:Hrefuses.
  { exists false. eexists. split; [reflexivity|]. cbn. repeat split; trivial.
    now eexists. }
  cbn [fst snd].
  match goal with
  | |- context [_loadUserProfile ?a] => set (authUser := a)
  end.
  assert (Hload : forall p1,
             exists found p',
               _loadUserProfile authUser p1 = (Return tt, p') /\
               currentUser p' = Some (mkAccount (id u) (email u) found) /\
               supabaseClient p' = supabaseClient p1 /\ storage p' = storage p1 /\
               pathname p' = pathname p1 /\ href p' = href p1 /\ alerts p' = alerts p1 /\
               started p' = started p1).
  { intros p1. apply (loadUserProfile_returns authUser p1). }
  set (load := _loadUserProfile authUser) in *. clearbody load.
  assert (Hgo : forall found p' (q : page),
             currentUser p' = Some (mkAccount (id u) (email u) found) ->
             storage p' = storage q -> pathname p' = pathname q -> href p' = href q ->
             alerts p' = alerts q -> started p' = started q ->
             storage q = storage p -> pathname q = pathname p -> href q = href p ->
             alerts q = alerts p -> started q = started p ->
             storage p' = storage p /\ pathname p' = pathname p /\
             started p' = started p /\ href p' = href p /\ alerts p' = alerts p /\
             exists found, currentUser p' = Some (mkAccount (id u) (email u) found)).
  { intros found p' q Huser. intros. repeat split; try congruence. now exists found. }
  destruct (String.eqb (or_else userType "shipper") "shipper");
    [|destruct (String.eqb (or_else userType "shipper") "carrier")].
  - unfold insert_shipper, query. cbn [supabaseClient with_backend refuses].
    destruct (refuses b InsertShipper) as [e|]; cbn;
      match goal with
      | |- context [load ?q] =>
          destruct (Hload q) as [found [p' [Hrun [Huser [_ [Hs [Hp [Hh [Ha Hc]]]]]]]]];
          rewrite Hrun; exists true, p'; (split; [reflexivity|]);
          now apply (Hgo found p' q)
      end.
  - unfold insert_carrier, query. cbn [supabaseClient with_backend refuses].
    destruct (refuses b InsertCarrier) as [e|]; cbn;
      match goal with
      | |- context [load ?q] =>
          destruct (Hload q) as [found [p' [Hrun [Huser [_ [Hs [Hp [Hh [Ha Hc]]]]]]]]];
          rewrite Hrun; exists true, p'; (split; [reflexivity|]);
          now apply (Hgo found p' q)
      end.
  - cbn.
    match goal with
    | |- context [load ?q] =>
        destruct (Hload q) as [found [p' [Hrun [Huser [_ [Hs [Hp [Hh [Ha Hc]]]]]]]]];
        rewrite Hrun; exists true, p'; (split; [reflexivity|]);
        now apply (Hgo found p' q)
    end.
Qed.


Lemma falsy_eqb (value : option string) (name : string) :
  falsy value = true -> name <> "" -> option_eqb value name = false.
Proof.
  destruct value as [x|]; simpl; [|reflexivity].
  intros Hx Hname. apply String.eqb_eq in Hx. subst x.
  apply String.eqb_neq. congruence.
Qed.

(** The user type is a filled text or [null]; where it is [null],
    [localStorage] holds no type either. *)
Lemma getUserType_null (p : page) :
  falsy (getUserType p) = true ->
  getUserType p = None /\
  match fastship_user (storage p) with
  | Readable user_metadata => falsy (optional user_metadata md_user_type) = true
  | Unreadable _ => True
  | NoItem => True
  end.
Proof.
  unfold getUserType.
  destruct (falsy (profile_user_type (currentUser p))) eqn:Hprofile; cbn [negb].
  - destruct (fastship_user (storage p)) as [|e|user_metadata]; try (now split).
    unfold or_null.
    destruct (falsy (optional user_metadata md_user_type)) eqn:Hstored; [now split|].
    congruence.
  - congruence.
Qed.

Lemma option_eqb_eq (value : option string) (name : string) :
  option_eqb value name = true <-> value = Some name.
Proof.
  destruct value as [x|]; simpl; [|split; discriminate].
  rewrite String.eqb_eq. split; congruence.
Qed.

Lemma open_dashboard_outcome (p : page) :
  exists target p',
    open_dashboard p = (Return tt, p') /\
    href p' = push (href p) target /\
    currentUser p' = currentUser p /\ supabaseClient p' = supabaseClient p /\
    storage p' = storage p /\ started p' = started p /\ console p' = console p /\
    document p' = document p /\
    ((getUserType p = Some "shipper" /\
      target = _getDashboardPath p "shipper/index.html" /\ alerts p' = alerts p) \/
     (getUserType p = Some "carrier" /\
      target = _getDashboardPath p "carrier/index.html" /\ alerts p' = alerts p) \/
     (getUserType p <> Some "shipper" /\ getUserType p <> Some "carrier" /\
      target = _getAuthPath p "register.html" /\
      exists shown, alerts p' = push (alerts p) shown)).
Proof.
  unfold open_dashboard. cbv zeta.
  set (userType := if falsy (getUserType p) then _ else _).
  assert (Htype : forall name, name <> "" ->
                    option_eqb userType name = option_eqb (getUserType p) name).
  { intros name Hname. unfold userType.
    destruct (falsy (getUserType p)) eqn:Hnull; [|reflexivity].
    destruct (getUserType_null p Hnull) as [-> Hstored].
    destruct (fastship_user (storage p)); trivial.
    now apply falsy_eqb. }
  rewrite !Htype by discriminate.
  destruct (option_eqb (getUserType p) "shipper") eqn:Hshipper.
  - apply option_eqb_eq in Hshipper. eexists. eexists. split; [reflexivity|]. cbn.
    repeat split; trivial. now left.
  - destruct (option_eqb (getUserType p) "carrier") eqn:Hcarrier.
    + apply option_eqb_eq in Hcarrier. eexists. eexists. split; [reflexivity|]. cbn.
      repeat split; trivial. right. now left.
    + eexists. eexists. split; [reflexivity|]. cbn. repeat split; trivial.
      right. right. repeat split.
      * intros H. apply option_eqb_eq in H. congruence.
      * intros H. apply option_eqb_eq in H. congruence.
      * now eexists.
Qed.

Lemma paths_pathname (p q : page) (target : string) :
  pathname q = pathname p ->
  _getAuthPath q target = _getAuthPath p target /\
  _getDashboardPath q target = _getDashboardPath p target.
Proof. unfold _getAuthPath, _getDashboardPath. now intros ->. Qed.

(** Every way through [goToDashboard] ends in one redirect, and it never
    raises.  A visitor goes to the login page.  A dashboard is opened only
    for a user whose type, as the page then knows it, is that dashboard's,
    and without an alert.  Everybody else is shown one alert and sent to
    the registration page.  Who is signed in does not change, nor does
    [localStorage]. *)
Theorem goToDashboard_one_redirect (p : page) :
  exists target p',
    goToDashboard p = (Return tt, p') /\
    href p' = push (href p) target /\
    storage p' = storage p /\
    option_map id (currentUser p') = option_map id (currentUser p) /\
    ((isLoggedIn p = false /\ target = _getAuthPath p "login.html" /\
      alerts p' = alerts p) \/
     (isLoggedIn p = true /\ getUserType p' = Some "shipper" /\
      target = _getDashboardPath p "shipper/index.html" /\ alerts p' = alerts p) \/
     (isLoggedIn p = true /\ getUserType p' = Some "carrier" /\
      target = _getDashboardPath p "carrier/index.html" /\ alerts p' = alerts p) \/
     (isLoggedIn p = true /\ target = _getAuthPath p "register.html" /\
      exists shown, alerts p' = push (alerts p) shown)).
Proof.
  unfold goToDashboard, isLoggedIn.
  destruct (currentUser p) as [u|] eqn:Huser.
  2: { eexists. eexists. split; [reflexivity|]. cbn. rewrite Huser.
       repeat split; trivial. now left. }
  assert (Hopen : forall q,
             storage q = storage p -> pathname q = pathname p ->
             href q = href p -> alerts q = alerts p ->
             option_map id (currentUser q) = Some (id u) ->
             exists target p',
               open_dashboard q = (Return tt, p') /\
               href p' = push (href p) target /\
               storage p' = storage p /\
               option_map id (currentUser p') = Some (id u) /\
               (False \/
                (true = true /\ getUserType p' = Some "shipper" /\
                 target = _getDashboardPath p "shipper/index.html" /\
                 alerts p' = alerts p) \/
                (true = true /\ getUserType p' = Some "carrier" /\
                 target = _getDashboardPath p "carrier/index.html" /\
                 alerts p' = alerts p) \/
                (true = true /\ target = _getAuthPath p "register.html" /\
                 exists shown, alerts p' = push (alerts p) shown))).
  { intros q Hs Hp Hh Ha Hid.
    destruct (open_dashboard_outcome q)
      as [target [p' [Hrun [Hh' [Hu' [Hc' [Hs' [_ [_ [_ Hcases]]]]]]]]]].
    assert (Hsame : getUserType p' = getUserType q).
    { unfold getUserType. now rewrite Hu', Hs'. }
    destruct (paths_pathname p q "register.html" Hp) as [Hregister _].
    destruct (paths_pathname p q "shipper/index.html" Hp) as [_ Hshipper].
    destruct (paths_pathname p q "carrier/index.html" Hp) as [_ Hcarrier].
    exists target, p'. split; [exact Hrun|].
    split; [congruence|]. split; [congruence|]. split; [congruence|].
    right. destruct Hcases as [[Ht [-> Hal]]|[[Ht [-> Hal]]|[_ [_ [-> [shown Hal]]]]]].
    - left. repeat split; congruence.
    - right. left. repeat split; congruence.
    - right. right. repeat split; [congruence|]. exists shown. congruence. }
  unfold bind. cbn [option_map].
  destruct (profile u) as [row|] eqn:Hprofile.
  - cbn [ret negb].
    destruct (Hopen p) as [target [p' [Hrun [H1 [H2 [H3 H4]]]]]]; trivial.
    { now rewrite Huser. }
    exists target, p'. split; [exact Hrun|]. repeat split; trivial.
    destruct H4 as [[]|H4]. now right.
  - destruct (create_profile_outcome u p)
      as [proceed [q [Hrun [Hs [Hp [_ Hrest]]]]]].
    rewrite Hrun. destruct proceed; cbn [negb].
    + destruct Hrest as [Hh [Ha [found Hq]]].
      destruct (Hopen q) as [target [p' [Hrun' [H1 [H2 [H3 H4]]]]]]; trivial.
      { now rewrite Hq. }
      exists target, p'. split; [exact Hrun'|]. repeat split; trivial.
      destruct H4 as [[]|H4]. now right.
    + destruct Hrest as [Hh [[shown Ha] [Hu [_ _]]]].
      exists (_getAuthPath p "register.html"), q. split; [reflexivity|].
      repeat split; trivial.
      * now rewrite Hu, Huser.
      * right. right. right. repeat split. now exists shown.
Qed.

End Dashboard.

(** ** The guard by user type *)

Section Guards.

Import Session.

(** The first stretch of [goToDashboard] is [goToDashboard] itself where
    it meets no [await]; where it waits, nothing has happened yet. *)
Lemma goToDashboard_begins_ends (p p' : page) :
  (goToDashboard_begins p = (Return false, p') -> goToDashboard p = (Return tt, p')) /\
  (goToDashboard_begins p = (Return true, p') ->
   p' = p /\ exists u, currentUser p = Some u /\ profile u = None /\
                       supabaseClient p <> None).
Proof.
  unfold goToDashboard_begins, goToDashboard, bind.
  destruct (currentUser p) as [u|]; [|split; [now intros [= <-]|discriminate]].
  destruct (profile u) as [row|] eqn:Hprofile.
  - cbn [ret negb]. destruct (open_dashboard p) as [[[]|e] q]; split; try discriminate.
    now intros [= <-].
  - destruct (supabaseClient p) as [b|] eqn:Hclient.
    + split; [discriminate|]. intros [= <-]. split; [reflexivity|].
      exists u. repeat split; trivial. discriminate.
    + split; [|discriminate]. intros [= <-].
      unfold create_profile. cbv zeta.
      destruct (match fastship_user (storage p) with
                | Readable user_metadata =>
                    (optional user_metadata md_user_type,
                     Some (or_else (optional user_metadata md_full_name) ""),
                     Some (or_else (optional user_metadata md_phone) ""))
                | Unreadable _ => (None, None, None)
                | NoItem => (None, None, None)
                end) as [[userType fullName] phone].
      unfold try_catch, bind, insert_user, query. rewrite Hclient. cbn.
      now rewrite Hclient.
Qed.

(** The guard of the shipper and carrier pages.  [requireUserType] raises
    exactly for a type other than shipper and carrier, and then does
    nothing else.  It answers [true] exactly when somebody is signed in
    whose type is the required one, and then leaves the page alone.
    Otherwise it answers [false].  A visitor who is not signed in is sent
    to the login page without an alert.  A signed-in user of another type
    is shown the alert, and [goToDashboard] is called: for a user with a
    profile it has run to its end when the guard returns, so the user is
    already on the way to their own dashboard, or, with a second alert, to
    the registration page when their type is neither; for a user without
    a profile it either waits for the store, nothing else being changed
    yet, or, on a page without a client, has failed with a second alert
    and sent them to the registration page.  The session, [localStorage],
    the document and the console are never changed. *)
Theorem requireUserType_guard (requiredType : string) (p : page) :
  match requireUserType requiredType p with
  | (Throw e, p') =>
      requiredType <> "shipper" /\ requiredType <> "carrier" /\
      e = invalid_user_type /\ p' = p
  | (Return true, p') =>
      (requiredType = "shipper" \/ requiredType = "carrier") /\
      isLoggedIn p = true /\ getUserType p = Some requiredType /\ p' = p
  | (Return false, p') =>
      (requiredType = "shipper" \/ requiredType = "carrier") /\
      ((isLoggedIn p = false /\
        href p' = push (href p) (_getAuthPath p "login.html") /\
        alerts p' = alerts p /\ started p' = started p) \/
       (isLoggedIn p = true /\ getUserType p <> Some requiredType /\
        let shown := push (alerts p) "غير مصرح لك بالوصول إلى هذه الصفحة" in
        match current_profile p, supabaseClient p with
        | Some _, _ =>
            started p' = started p /\
            ((getUserType p = Some "shipper" /\ alerts p' = shown /\
              href p' = push (href p) (_getDashboardPath p "shipper/index.html")) \/
             (getUserType p = Some "carrier" /\ alerts p' = shown /\
              href p' = push (href p) (_getDashboardPath p "carrier/index.html")) \/
             (getUserType p <> Some "shipper" /\ getUserType p <> Some "carrier" /\
              (exists second, alerts p' = push shown second) /\
              href p' = push (href p) (_getAuthPath p "register.html")))
        | None, None =>
            started p' = started p /\
            (exists second, alerts p' = push shown second) /\
            href p' = push (href p) (_getAuthPath p "register.html")
        | None, Some _ =>
            started p' = push (started p) GoToDashboard /\
            alerts p' = shown /\ href p' = href p
        end)) /\
      currentUser p' = currentUser p /\ supabaseClient p' = supabaseClient p /\
      storage p' = storage p /\ document p' = document p /\ console p' = console p
  end.
Proof.
  unfold requireUserType.
  assert (Hrequired :
    (negb (String.eqb requiredType "shipper") && negb (String.eqb requiredType "carrier")
     = true /\ requiredType <> "shipper" /\ requiredType <> "carrier") \/
    (negb (String.eqb requiredType "shipper") && negb (String.eqb requiredType "carrier")
     = false /\ (requiredType = "shipper" \/ requiredType = "carrier"))).
  { destruct (String.eqb requiredType "shipper") eqn:Hs;
      [|destruct (String.eqb requiredType "carrier") eqn:Hc]; cbn [negb andb].
    - right. apply String.eqb_eq in Hs. split; [reflexivity|now left].
    - right. apply String.eqb_eq in Hc. split; [reflexivity|now right].
    - left. apply String.eqb_neq in Hs, Hc. now repeat split. }
  destruct Hrequired as [[-> [Hs Hc]]|[-> Htype]].
  { cbn. now repeat split. }
  unfold bind at 1. unfold requireAuth.
  destruct (isLoggedIn p) eqn:Hin; cbn [negb ret]; cbv beta.
  2: { cbn. split; [exact Htype|]. split; [left|]; now repeat split. }
  destruct (option_eqb (getUserType p) requiredType) eqn:Heq; cbn [negb].
  { apply option_eqb_eq in Heq. now repeat split. }
  assert (Hother : getUserType p <> Some requiredType).
  { intros H. apply option_eqb_eq in H. congruence. }
  clear Heq. unfold isLoggedIn in Hin. unfold current_profile.
  destruct (currentUser p) as [u|] eqn:Huser; [|discriminate].
  unfold bind, alert, change.
  match goal with
  | |- context [goToDashboard_begins ?q] => set (alerted := q)
  end.
  assert (Hsame : getUserType alerted = getUserType p) by reflexivity.
  assert (Hpaths : forall target,
             _getAuthPath alerted target = _getAuthPath p target /\
             _getDashboardPath alerted target = _getDashboardPath p target).
  { intros target. now apply paths_pathname. }
  unfold goToDashboard_begins, bind.
  replace (currentUser alerted) with (Some u) by (symmetry; exact Huser).
  destruct (profile u) as [row|] eqn:Hprofile.
  - destruct (open_dashboard_outcome alerted)
      as [target [q [Hrun [Hh [Hu [Hc [Hst [Hsd [Hco [Hd Hcases]]]]]]]]]].
    rewrite Hrun. cbn [ret start change].
    split; [exact Htype|]. split; [right|cbn in *; repeat split; congruence].
    split; [reflexivity|]. split; [exact Hother|]. cbv zeta.
    split; [exact Hsd|]. rewrite Hsame in Hcases.
    destruct (Hpaths "shipper/index.html") as [_ Hshipper].
    destruct (Hpaths "carrier/index.html") as [_ Hcarrier].
    destruct (Hpaths "register.html") as [Hregister _].
    destruct Hcases as [[Ht [-> Ha]]|[[Ht [-> Ha]]|[Hn1 [Hn2 [-> [second Ha]]]]]].
    + left. cbn in *. unfold push in *. repeat split; congruence.
    + right. left. cbn in *. unfold push in *. repeat split; congruence.
    + right. right. cbn in *. unfold push in *. repeat split; try congruence.
      exists second. exact Ha.
  - replace (supabaseClient alerted) with (supabaseClient p) by reflexivity.
    destruct (supabaseClient p) as [b|] eqn:Hclient; cbn;
      (split; [exact Htype|]); (split; [right|now repeat split]);
      (split; [reflexivity|]); (split; [exact Hother|]); repeat split; trivial.
    now eexists.
Qed.

End Guards.

Section FirstVisit.

Import Session.

Variable p : page.
Variable u : account.
Variable b : backend.

(** What [localStorage] knows of the user, and the rows made from it. *)
Let user_metadata : option metadata :=
  match fastship_user (storage p) with
  | Readable m => m
  | Unreadable _ => None
  | NoItem => None
  end.
Let userType : string := or_else (optional user_metadata md_user_type) "shipper".
Let name : option string := or_option (optional user_metadata md_full_name) (email u).
Let created : user_row :=
  mkUserRow (generated b InsertUser (List.length (users b))) (id u) (email u) name
            (Some (or_else (optional user_metadata md_phone) "")) (Some userType).
Let after : backend :=
  mkBackend (push (users b) created)
            (if String.eqb userType "shipper"
             then push (shippers b)
                       (mkShipperRow (generated b InsertShipper (List.length (shippers b)))
                                     (row_id created) name "active")
             else shippers b)
            (if String.eqb userType "shipper" then carriers b
             else if String.eqb userType "carrier"
             then push (carriers b)
                       (mkCarrierRow (generated b InsertCarrier (List.length (carriers b)))
                                     (row_id created) "any" "active")
             else carriers b)
            (notifications b) (refuses b) (generated b) (signOut_rejects b).

Hypothesis signed_in : currentUser p = Some u.
Hypothesis no_profile : profile u = None.
Hypothesis client : supabaseClient p = Some b.
Hypothesis served : forall op, refuses b op = None.
Hypothesis no_row : forall row, In row (users b) -> auth_user_id row <> id u.

Lemma or_else_filled (value : option string) (fallback : string) :
  fallback <> "" -> or_else value fallback <> "".
Proof.
  intros Hfallback. unfold or_else. destruct value as [x|]; [|exact Hfallback].
  destruct (String.eqb x "") eqn:Hx; [exact Hfallback|]. now apply String.eqb_neq.
Qed.

Lemma or_option_or_else (value fallback : option string) :
  or_option (Some (or_else value "")) fallback = or_option value fallback.
Proof.
  unfold or_option, or_else, falsy. destruct value as [x|]; [|reflexivity].
  destruct (String.eqb x "") eqn:Hx; [reflexivity|]. now rewrite Hx.
Qed.

Lemma or_else_or_else (value : option string) :
  or_else (Some (or_else value "")) "" = or_else value "".
Proof.
  unfold or_else. destruct value as [x|]; [|reflexivity].
  destruct (String.eqb x "") eqn:Hx; [reflexivity|]. now rewrite Hx.
Qed.

Lemma no_row_filter :
  filter (fun r => String.eqb (auth_user_id r) (id u)) (push (users b) created) = [created].
Proof.
  unfold push. rewrite filter_app. cbn [filter created auth_user_id].
  rewrite String.eqb_refl.
  replace (filter _ (users b)) with (@nil user_row); [reflexivity|].
  symmetry. clear - no_row. induction (users b) as [|row rest IH]; [reflexivity|].
  cbn [filter]. destruct (String.eqb (auth_user_id row) (id u)) eqn:Hrow.
  - apply String.eqb_eq in Hrow. exfalso. apply (no_row row); [now left|exact Hrow].
  - apply IH. intros r Hr. apply no_row. now right.
Qed.

(** The first block of [goToDashboard] on a first visit that the store
    serves. *)
Lemma create_profile_run :
  exists q,
    create_profile u p = (Return true, q) /\
    supabaseClient q = Some after /\
    currentUser q = Some (mkAccount (id u) (email u) (Some created)) /\
    storage q = storage p /\ pathname q = pathname p /\ href q = href p /\
    alerts q = alerts p /\ console q = console p.
Proof.
  unfold create_profile. cbv zeta.
  assert (Hstored :
    exists fullName phone,
      (match fastship_user (storage p) with
       | Readable user_metadata =>
           (optional user_metadata md_user_type,
            Some (or_else (optional user_metadata md_full_name) ""),
            Some (or_else (optional user_metadata md_phone) ""))
       | Unreadable _ => (None, None, None)
       | NoItem => (None, None, None)
       end) = (optional user_metadata md_user_type, fullName, phone) /\
      or_option fullName (email u) = name /\
      or_else phone "" = or_else (optional user_metadata md_phone) "").
  { unfold name, user_metadata.
    destruct (fastship_user (storage p)) as [|e|m].
    - exists None, None. now repeat split.
    - exists None, None. now repeat split.
    - eexists. eexists. split; [reflexivity|]. split.
      + apply or_option_or_else.
      + apply or_else_or_else. }
  destruct Hstored as [fullName [phone [-> [Hname Hphone]]]].
  fold userType. rewrite Hname, Hphone.
  unfold try_catch, bind, insert_user, query. rewrite client, served.
  cbn [fst snd]. fold created.
  assert (Hload : forall q,
             supabaseClient q = Some after ->
             exists q',
               _loadUserProfile (mkAuthUser (id u) (email u)) q = (Return tt, q') /\
               supabaseClient q' = Some after /\
               currentUser q' = Some (mkAccount (id u) (email u) (Some created)) /\
               storage q' = storage q /\ pathname q' = pathname q /\ href q' = href q /\
               alerts q' = alerts q /\ console q' = console q).
  { intros q Hq. unfold _loadUserProfile, try_catch, bind, select_user, query.
    rewrite Hq. replace (refuses after SelectUser) with (refuses b SelectUser) by reflexivity.
    rewrite served. cbn [users after au_id]. fold created. rewrite no_row_filter.
    eexists. split; [cbn; reflexivity|]. rewrite updateAllNavbars_frame. cbn.
    now repeat split. }
  unfold after in Hload |- *.
  destruct (String.eqb userType "shipper") eqn:Hshipper;
    [|destruct (String.eqb userType "carrier") eqn:Hcarrier].
  - unfold insert_shipper, query. cbn [supabaseClient with_backend refuses].
    rewrite served. cbn [fst snd users shippers carriers notifications generated
                         signOut_rejects refuses ret].
    match goal with
    | |- context [_loadUserProfile _ ?q] =>
        destruct (Hload q) as [q' [Hrun Hrest]]; [reflexivity|]
    end.
    cbn in Hrun. cbn. rewrite Hrun. exists q'. split; [reflexivity|].
    cbn in Hrest. exact Hrest.
  - unfold insert_carrier, query. cbn [supabaseClient with_backend refuses].
    rewrite served. cbn [fst snd users shippers carriers notifications generated
                         signOut_rejects refuses ret].
    match goal with
    | |- context [_loadUserProfile _ ?q] =>
        destruct (Hload q) as [q' [Hrun Hrest]]; [reflexivity|]
    end.
    cbn in Hrun. cbn. rewrite Hrun. exists q'. split; [reflexivity|].
    cbn in Hrest. exact Hrest.
  - cbn [ret].
    match goal with
    | |- context [_loadUserProfile _ ?q] =>
        destruct (Hload q) as [q' [Hrun Hrest]]; [reflexivity|]
    end.
    cbn in Hrun. cbn. rewrite Hrun. exists q'. split; [reflexivity|].
    cbn in Hrest. exact Hrest.
Qed.


(** The first visit.  For a signed-in user who has no [users] row yet, in
    a store that serves every query, [goToDashboard] adds one [users] row
    with the user's id and e-mail and the type [localStorage] holds, or
    shipper when it holds none; it adds one [shippers] or [carriers] row
    for that type, keyed by the id of the new [users] row; the new row
    becomes the profile, so that its type is the user's type from then on;
    and the dashboard of that type is opened, or the registration page,
    with an alert, for a type that is neither. *)
Theorem goToDashboard_first_visit :
  exists p',
    goToDashboard p = (Return tt, p') /\
    supabaseClient p' = Some after /\
    currentUser p' = Some (mkAccount (id u) (email u) (Some created)) /\
    getUserType p' = Some userType /\
    (userType = "shipper" ->
     href p' = push (href p) (_getDashboardPath p "shipper/index.html") /\
     alerts p' = alerts p) /\
    (userType = "carrier" ->
     href p' = push (href p) (_getDashboardPath p "carrier/index.html") /\
     alerts p' = alerts p) /\
    (userType <> "shipper" -> userType <> "carrier" ->
     href p' = push (href p) (_getAuthPath p "register.html") /\
     exists shown, alerts p' = push (alerts p) shown).
Proof.
  unfold goToDashboard. rewrite signed_in, no_profile. unfold bind.
  destruct create_profile_run as [q [-> [Hq [Huser [Hs [Hp [Hh [Ha _]]]]]]]].
  cbn [negb].
  destruct (open_dashboard_outcome q)
    as [target [p' [Hrun [Hh' [Hu' [Hc' [Hs' [_ [_ [_ Hcases]]]]]]]]]].
  assert (Htype : getUserType q = Some userType).
  { unfold getUserType. rewrite Huser. cbn.
    pose proof (or_else_filled (optional user_metadata md_user_type) "shipper") as Hfilled.
    fold userType in Hfilled.
    destruct (String.eqb userType "") eqn:Hempty; [|reflexivity].
    apply String.eqb_eq in Hempty. exfalso. apply Hfilled; [discriminate|exact Hempty]. }
  assert (Hsame : getUserType p' = getUserType q).
  { unfold getUserType. now rewrite Hu', Hs'. }
  destruct (paths_pathname p q "register.html" Hp) as [Hregister _].
  destruct (paths_pathname p q "shipper/index.html" Hp) as [_ Hshipper].
  destruct (paths_pathname p q "carrier/index.html" Hp) as [_ Hcarrier].
  exists p'. split; [exact Hrun|]. split; [congruence|]. split; [congruence|].
  split; [congruence|].
  destruct Hcases as [[Ht [-> Hal]]|[[Ht [-> Hal]]|[Hn1 [Hn2 [-> [shown Hal]]]]]].
  - assert (userType = "shipper") by congruence.
    split; [|split]; intros; try congruence. split; congruence.
  - assert (userType = "carrier") by congruence.
    split; [|split]; intros; try congruence. split; congruence.
  - split; [|split]; intros; try (exfalso; congruence).
    split; [congruence|]. exists shown. congruence.
Qed.

End FirstVisit.

(** ** From the first visit to a contact request *)

Section FirstContact.

Variable p : Session.page.
Variable u : Session.account.
Variable b : Session.backend.
Variable w : world.
Variable user : user.
Variables shipmentId tripId text : string.

(** The id the store gives the new [users] row. *)
Let row_id : string :=
  Session.generated b Session.InsertUser (List.length (Session.users b)).

(** The shipper of a first visit is filed under another id than the one
    the matcher looks for.  [goToDashboard] keys the [shippers] row it
    makes by the id of the new [users] row; [sendContactRequest] looks the
    shipper up by the id of the signed-in user.  So after a first visit as
    a shipper, a contact request of that user finds the shipper exactly
    when the store gave the [users] row the user's own id, and fails with
    "no rows" otherwise. *)
Theorem first_visit_shipper_lookup (p' : Session.page) (b' : Session.backend) :
  Session.currentUser p = Some u ->
  Session.profile u = None ->
  Session.supabaseClient p = Some b ->
  (forall op, Session.refuses b op = None) ->
  (forall row, In row (Session.users b) -> Session.auth_user_id row <> Session.id u) ->
  (forall row, In row (Session.shippers b) -> Session.s_user_id row <> Session.id u) ->
  Session.goToDashboard p = (Return tt, p') ->
  Session.getUserType p' = Some "shipper" ->
  Session.supabaseClient p' = Some b' ->
  currentUser w = Some user ->
  user_id user = Session.id u ->
  failure (store w) Shippers = None ->
  shippers (store w) =
  map (fun row => mkShipper (Session.s_id row) (Session.s_user_id row)) (Session.shippers b') ->
  (row_id <> Session.id u ->
   exists w', sendContactRequest shipmentId tripId text w =
              (Return (Failure (message PGRST116)), w')) /\
  (row_id = Session.id u ->
   shippers_single (user_id user) (store w) =
   Data (mkShipper (Session.generated b Session.InsertShipper
                                      (List.length (Session.shippers b)))
                   (Session.id u))).
Proof.
  intros Hsigned Hprofile Hclient Hserved Husers Hshippers Hrun Htype Hafter
         Huser Hid Hup Hview.
  destruct (create_profile_run p u b Hclient Hserved Husers)
    as [q [Hcreate [Hq [Hacct [Hs [Hp [_ _]]]]]]].
  unfold Session.goToDashboard in Hrun. rewrite Hsigned, Hprofile in Hrun.
  unfold Session.bind in Hrun. rewrite Hcreate in Hrun. cbn [negb] in Hrun.
  destruct (open_dashboard_outcome q)
    as [target [q' [Hopen [_ [Hu' [Hc' [Hs' _]]]]]]].
  rewrite Hopen in Hrun. injection Hrun as <-.
  assert (Hsame : Session.getUserType q' = Session.getUserType q).
  { unfold Session.getUserType. now rewrite Hu', Hs'. }
  rewrite Hsame in Htype. unfold Session.getUserType in Htype.
  rewrite Hacct in Htype. cbn in Htype.
  rewrite Hc', Hq in Hafter. injection Hafter as <-.
  cbn [Session.shippers] in Hview.
  match type of Htype with
  | context [String.eqb ?t ""] => set (userType := t) in *
  end.
  assert (Hshipper : userType = "shipper").
  { pose proof (or_else_filled
                  (Session.optional
                     match fastship_user (Session.storage p) with
                     | Readable m => m
                     | _ => None
                     end md_user_type) "shipper") as Hfilled.
    fold userType in Hfilled.
    destruct (String.eqb userType "") eqn:Hempty.
    - apply String.eqb_eq in Hempty. exfalso. apply Hfilled; [discriminate|exact Hempty].
    - cbn in Htype. congruence. }
  rewrite Hshipper in Hview. cbn [String.eqb Ascii.eqb Bool.eqb] in Hview.
  unfold push in Hview. rewrite map_app in Hview. cbn [map Session.s_id Session.s_user_id
                                                        Session.row_id] in Hview.
  fold row_id in Hview.
  assert (Hold : filter (fun r => String.eqb (shipper_user_id r) (user_id user))
                        (map (fun row => mkShipper (Session.s_id row) (Session.s_user_id row))
                             (Session.shippers b)) = []).
  { rewrite Hid. clear - Hshippers.
    induction (Session.shippers b) as [|row rest IH]; [reflexivity|].
    cbn [map filter shipper_user_id].
    destruct (String.eqb (Session.s_user_id row) (Session.id u)) eqn:Hrow.
    - apply String.eqb_eq in Hrow. exfalso. apply (Hshippers row); [now left|exact Hrow].
    - apply IH. intros r Hr. apply Hshippers. now right. }
  assert (Hlookup :
    shippers_single (user_id user) (store w) =
    if String.eqb row_id (Session.id u)
    then Data (mkShipper (Session.generated b Session.InsertShipper
                                            (List.length (Session.shippers b)))
                         row_id)
    else Error PGRST116).
  { unfold shippers_single. rewrite Hup, Hview, filter_app, Hold.
    cbn [filter app shipper_user_id]. rewrite Hid.
    now destruct (String.eqb row_id (Session.id u)). }
  split.
  - intros Hother. apply String.eqb_neq in Hother.
    rewrite sendContactRequest_run, Huser. cbv zeta. rewrite Hlookup, Hother.
    now eexists.
  - intros Hown. rewrite Hlookup. rewrite Hown at 1. rewrite String.eqb_refl.
    now rewrite Hown.
Qed.

End FirstContact.

(** ** The sample page *)

Lemma toggleLanguage_twice_witness :
  Language.toggleLanguage (Language.toggleLanguage (Language.initLanguage SamplePage.arabic))
  = Language.initLanguage SamplePage.arabic.
Proof. apply toggleLanguage_twice; [now left|reflexivity]. Defined.

Lemma updateAllNavbars_menus_witness :
  Session.hidden ["hidden"] = Session.isLoggedIn SamplePage.first_visit /\
  Session.hidden [] = negb (Session.isLoggedIn SamplePage.first_visit).
Proof.
  destruct (updateAllNavbars_menus SamplePage.first_visit [2%nat] [3%nat] eq_refl eq_refl)
    as [Hvisitors [Husers _]].
  split; [apply Hvisitors|apply Husers]; reflexivity.
Defined.

Lemma toggle_menus_one_open_witness :
  exists account' user',
    Session.classes_at [4%nat] (Session.toggleAccountMenu SamplePage.home) = Some account' /\
    Session.classes_at [5%nat] (Session.toggleAccountMenu SamplePage.home) = Some user' /\
    Session.hidden account' = false /\ Session.hidden user' = true.
Proof.
  destruct (toggle_menus_one_open SamplePage.home [4%nat] [5%nat] eq_refl eq_refl)
    as [account [user [Haccount [_ [[account' [user' [H1 [H2 [H3 H4]]]]] _]]]]].
  exists account', user'. repeat split; trivial.
  injection Haccount as <-. exact H3.
Defined.

Lemma goToDashboard_first_visit_witness :
  exists p',
    Session.goToDashboard SamplePage.first_visit = (Return tt, p') /\
    Session.getUserType p' = Some "shipper" /\
    Session.href p' = ["pages/shipper/index.html"].
Proof.
  destruct (goToDashboard_first_visit SamplePage.first_visit SamplePage.sara
              SamplePage.serving eq_refl eq_refl eq_refl (fun _ => eq_refl)
              (fun row (H : In row []) => match H with end))
    as [p' [Hrun [_ [_ [Htype [Hshipper _]]]]]].
  exists p'. split; [exact Hrun|]. split; [exact Htype|].
  now destruct (Hshipper eq_refl).
Defined.

Lemma first_visit_shipper_lookup_witness :
  exists w',
    sendContactRequest "shipment-1" "trip-1" "hello" SamplePage.after_first_visit =
    (Return (Failure (message PGRST116)), w').
Proof.
  refine (proj1 (first_visit_shipper_lookup
                   SamplePage.first_visit SamplePage.sara SamplePage.serving
                   SamplePage.after_first_visit (mkUser "auth-1" "sara@example.com")
                   "shipment-1" "trip-1" "hello"
                   (snd (Session.goToDashboard SamplePage.first_visit))
                   (Session.mkBackend
                      [Session.mkUserRow "users-0" "auth-1" (Some "sara@example.com")
                                         (Some "sara@example.com") (Some "")
                                         (Some "shipper")]
                      [Session.mkShipperRow "shippers-0" "users-0"
                                            (Some "sara@example.com") "active"]
                      [] [] (fun _ => None) SamplePage.numbered None)
                   eq_refl eq_refl eq_refl (fun _ => eq_refl)
                   (fun row (H : In row []) => match H with end)
                   (fun row (H : In row []) => match H with end)
                   eq_refl eq_refl eq_refl eq_refl eq_refl eq_refl eq_refl) _).
  discriminate.
Defined.
